(** * Test-of-Design control analysis: the LLM orchestration pipeline

    A shallow embedding of [tod_control_testing_v21_enhanced.py]: the
    resilient call executor ([make_llm_call_with_retry]), the response
    parser ([extract_json_from_response]), the nine assessment
    operations ([ask_llm] ... [ask_expected_evidence]), the start-up
    validation ([initialize_client]) and the record processor
    ([process_controls]).

    Python text is a [string] holding UTF-8 bytes.  Python values that flow
    through the pipeline (parsed JSON, spreadsheet cells) are [pyval]s.
    Effects (the remote service, [time.sleep], the logger) are threaded
    through a state-and-exception monad whose state records a chronological
    trace of events. *)

From Stdlib Require Import String Ascii List ZArith QArith Qminmax Bool Lia Arith.
From Stdlib Require Import DecimalString.
Import ListNotations.
Set Warnings "-abstract-large-number,-register-all".
Close Scope Q_scope.
Open Scope string_scope.
Open Scope nat_scope.

(* ================================================================== *)
(** ** Python text *)
(* ================================================================== *)

Module Text.

(** The double-quote character. *)
Definition dq : string := String (ascii_of_nat 34) EmptyString.

(** [requote mark s] is [s] with every [mark] replaced by a double quote:
    text that holds double quotes is written with a stand-in for them. *)
Fixpoint requote (mark : ascii) (s : string) : string :=
  match s with
  | EmptyString => EmptyString
  | String c r =>
      String (if Ascii.eqb c mark then ascii_of_nat 34 else c) (requote mark r)
  end.

(** JSON sample text, single quotes standing for double quotes. *)
Definition json' : string -> string := requote "'"%char.

(** Prompt text, back quotes standing for double quotes. *)
Definition tpl : string -> string := requote "`"%char.

Definition code (c : ascii) : nat := nat_of_ascii c.

Definition between (lo hi n : nat) : bool := (lo <=? n) && (n <=? hi).

(** [str.lower()], on the ASCII letters.  The program only searches the
    lowered text for ASCII words, and no character outside ASCII lowers to
    a letter of those words that the next letter of the word can follow. *)
Definition lower_char (c : ascii) : ascii :=
  if between 65 90 (code c) then ascii_of_nat (code c + 32) else c.

Fixpoint lower (s : string) : string :=
  match s with
  | EmptyString => EmptyString
  | String c r => String (lower_char c) (lower r)
  end.

(** [s.startswith(p)] *)
Definition startswith (s p : string) : bool := String.prefix p s.

(** [needle in hay] *)
Fixpoint contains (needle hay : string) : bool :=
  String.prefix needle hay
  || match hay with
     | EmptyString => false
     | String _ r => contains needle r
     end.

(** [s[n:]] *)
Fixpoint drop (n : nat) (s : string) : string :=
  match n, s with
  | S n', String _ r => drop n' r
  | _, _ => s
  end.

(** [s[start:start+len]] *)
Definition slice (start len : nat) (s : string) : string :=
  String.substring start len s.

(** Number of bytes of the white-space code point at the head of a byte
    list, [0] when the head is not white space.  The code points are those
    of [str.isspace]: U+0009..U+000D, U+001C..U+0020, U+0085, U+00A0,
    U+1680, U+2000..U+200A, U+2028, U+2029, U+202F, U+205F, U+3000. *)
Definition ws_head (l : list nat) : nat :=
  match l with
  | [] => 0
  | a :: r =>
      if between 9 13 a || between 28 32 a then 1
      else match r with
           | b :: r' =>
               if (a =? 194) && ((b =? 133) || (b =? 160)) then 2
               else match r' with
                    | c :: _ =>
                        if (a =? 225) && (b =? 154) && (c =? 128) then 3
                        else if (a =? 226) && (b =? 128)
                                && (between 128 138 c || (c =? 168)
                                    || (c =? 169) || (c =? 175)) then 3
                        else if (a =? 226) && (b =? 129) && (c =? 159) then 3
                        else if (a =? 227) && (b =? 128) && (c =? 128) then 3
                        else 0
                    | [] => 0
                    end
           | [] => 0
           end
  end.

(** The same test on a reversed byte list (white space at the end). *)
Definition ws_last (l : list nat) : nat :=
  match l with
  | [] => 0
  | a :: r =>
      if between 9 13 a || between 28 32 a then 1
      else match r with
           | b :: r' =>
               if ws_head [b; a] =? 2 then 2
               else match r' with
                    | c :: _ => if ws_head [c; b; a] =? 3 then 3 else 0
                    | [] => 0
                    end
           | [] => 0
           end
  end.

Fixpoint strip_with (head : list nat -> nat) (fuel : nat) (l : list nat)
  : list nat :=
  match fuel with
  | 0 => l
  | S f =>
      match head l with
      | 0 => l
      | k => strip_with head f (skipn k l)
      end
  end.

Definition bytes (s : string) : list nat := map code (list_ascii_of_string s).
Definition of_bytes (l : list nat) : string :=
  string_of_list_ascii (map ascii_of_nat l).

(** [s.strip()] *)
Definition strip (s : string) : string :=
  let l := strip_with ws_head (String.length s) (bytes s) in
  of_bytes (rev (strip_with ws_last (length l) (rev l))).

(** The line feed. *)
Definition nl : string := String (ascii_of_nat 10) EmptyString.

(** [sep.join(parts)] *)
Fixpoint join (sep : string) (parts : list string) : string :=
  match parts with
  | [] => ""
  | [p] => p
  | p :: rest => p ++ sep ++ join sep rest
  end.

(** [s * n] *)
Fixpoint times (n : nat) (s : string) : string :=
  match n with
  | 0 => ""
  | S n' => s ++ times n' s
  end.

(** UTF-8 encoding of a code point (used for [\uXXXX] escapes). *)
Definition utf8 (cp : nat) : string :=
  if cp <? 128 then of_bytes [cp]
  else if cp <? 2048 then of_bytes [192 + cp / 64; 128 + cp mod 64]
  else if cp <? 65536 then
    of_bytes [224 + cp / 4096; 128 + (cp / 64) mod 64; 128 + cp mod 64]
  else
    of_bytes [240 + cp / 262144; 128 + (cp / 4096) mod 64;
              128 + (cp / 64) mod 64; 128 + cp mod 64].

End Text.

(* ================================================================== *)
(** ** Python values *)
(* ================================================================== *)

(** A float is kept as the decimal literal it was read from: its value is
    the binary64 number nearest to [(-1)^neg * digits * 10^exp10]. *)
Inductive pyfloat :=
| FDecimal (neg : bool) (digits : Z) (exp10 : Z)
| FNaN
| FInfinity (neg : bool).

Inductive pyval :=
| PNone
| PBool (b : bool)
| PInt (z : Z)
| PFloat (f : pyfloat)
| PStr (s : string)
| PList (l : list pyval)
| PDict (d : list (string * pyval)).

(** A decimal literal reads as [0.0] when it is zero or rounds to zero
    (at most half the least subnormal, [2^-1075]). *)
Definition float_is_zero (f : pyfloat) : bool :=
  match f with
  | FDecimal _ m e =>
      ((m =? 0) || ((e <? 0) && (Z.abs m * 2 ^ 1075 <=? 10 ^ (- e))))%Z
  | FNaN | FInfinity _ => false
  end.

(** Truth value of an object, as tested by [if not x]. *)
Definition truthy (v : pyval) : bool :=
  match v with
  | PNone => false
  | PBool b => b
  | PInt z => negb (z =? 0)%Z
  | PFloat f => negb (float_is_zero f)
  | PStr s => negb (s =? "")%string
  | PList l => match l with [] => false | _ => true end
  | PDict d => match d with [] => false | _ => true end
  end.

(** [d[k] = v] on an insertion-ordered dict. *)
Fixpoint dict_set (k : string) (v : pyval) (d : list (string * pyval))
  : list (string * pyval) :=
  match d with
  | [] => [(k, v)]
  | (k', v') :: r =>
      if (k' =? k)%string then (k', v) :: r else (k', v') :: dict_set k v r
  end.

(** [d.get(k)] *)
Fixpoint dict_find (k : string) (d : list (string * pyval)) : option pyval :=
  match d with
  | [] => None
  | (k', v) :: r => if (k' =? k)%string then Some v else dict_find k r
  end.

(** [d.get(k, default)] *)
Definition dict_get (k : string) (default : pyval) (d : list (string * pyval))
  : pyval :=
  match dict_find k d with
  | Some v => v
  | None => default
  end.

(* ================================================================== *)
(** ** [json.loads] *)
(* ================================================================== *)

(** The decoder of the standard library, as the program uses it (default
    options).  Every way of failing ([JSONDecodeError], [ValueError]) is
    [None]: the caller has one handler for all of them.  The interpreter's
    recursion limit is not modelled. *)
Module Json.
Import Text.

Definition is_ws (c : ascii) : bool :=
  let n := code c in (n =? 32) || (n =? 9) || (n =? 10) || (n =? 13).

Fixpoint skip_ws (s : string) : string :=
  match s with
  | String c r => if is_ws c then skip_ws r else s
  | EmptyString => s
  end.

Definition is_digit (c : ascii) : bool := between 48 57 (code c).

Definition hex_value (c : ascii) : option nat :=
  let n := code c in
  if between 48 57 n then Some (n - 48)
  else if between 97 102 n then Some (n - 87)
  else if between 65 70 n then Some (n - 55)
  else None.

(** Four hexadecimal digits after [\u]. *)
Definition hex4 (s : string) : option (nat * string) :=
  match s with
  | String a (String b (String c (String d r))) =>
      match hex_value a, hex_value b, hex_value c, hex_value d with
      | Some x, Some y, Some z, Some w =>
          Some (((x * 16 + y) * 16 + z) * 16 + w, r)
      | _, _, _, _ => None
      end
  | _ => None
  end.

Definition simple_escape (c : ascii) : option nat :=
  let n := code c in
  if n =? 34 then Some 34            (* quote *)
  else if n =? 92 then Some 92       (* backslash *)
  else if n =? 47 then Some 47       (* slash *)
  else if n =? 98 then Some 8        (* backspace *)
  else if n =? 102 then Some 12      (* form feed *)
  else if n =? 110 then Some 10      (* line feed *)
  else if n =? 114 then Some 13      (* carriage return *)
  else if n =? 116 then Some 9       (* tab *)
  else None.

(** The text of a string literal after its opening quote (strict mode:
    raw control characters are refused). *)
Fixpoint scanstring (fuel : nat) (s acc : string) : option (string * string) :=
  match fuel with
  | 0 => None
  | S f =>
      match s with
      | EmptyString => None
      | String c r =>
          if code c =? 34 then Some (acc, r)
          else if code c =? 92 then
            match r with
            | EmptyString => None
            | String e r' =>
                match simple_escape e with
                | Some n => scanstring f r' (acc ++ utf8 n)
                | None =>
                    if code e =? 117 then
                      match hex4 r' with
                      | None => None
                      | Some (hi, r2) =>
                          let lone := scanstring f r2 (acc ++ utf8 hi) in
                          if between 55296 56319 hi then
                            match r2 with
                            | String b (String u r3) =>
                                if (code b =? 92) && (code u =? 117) then
                                  match hex4 r3 with
                                  | Some (lo, r4) =>
                                      if between 56320 57343 lo then
                                        scanstring f r4
                                          (acc ++ utf8 (65536
                                             + (hi - 55296) * 1024
                                             + (lo - 56320)))
                                      else lone
                                  | None => lone
                                  end
                                else lone
                            | _ => lone
                            end
                          else lone
                      end
                    else None
                end
            end
          else if code c <? 32 then None
          else scanstring f r (acc ++ String c EmptyString)
      end
  end.

Fixpoint span_digits (s : string) : string * string :=
  match s with
  | String c r =>
      if is_digit c then let (d, rest) := span_digits r in (String c d, rest)
      else (EmptyString, s)
  | EmptyString => (EmptyString, s)
  end.

Fixpoint digits_value (s : string) (acc : Z) : Z :=
  match s with
  | String c r => digits_value r (acc * 10 + Z.of_nat (code c - 48))%Z
  | EmptyString => acc
  end.

(** [sys.get_int_max_str_digits()] *)
Definition int_max_str_digits : nat := 4300.

(** A number: an optional minus sign, then a lone zero or digits that do not
    start with zero, then an optional fraction (a dot and digits) and an
    optional exponent (e or E, a sign, digits); an [int] when it has neither
    fraction nor exponent. *)
Definition scan_number (s : string) : option (pyval * string) :=
  let (neg, s1) :=
    match s with
    | String c r => if code c =? 45 then (true, r) else (false, s)
    | EmptyString => (false, s)
    end in
  let int_part :=
    match s1 with
    | String c r =>
        if code c =? 48 then Some (String c EmptyString, r)
        else if is_digit c then Some (span_digits s1)
        else None
    | EmptyString => None
    end in
  match int_part with
  | None => None
  | Some (ds, s2) =>
      let (frac, s3) :=
        match s2 with
        | String c r =>
            if code c =? 46 then
              match span_digits r with
              | (EmptyString, _) => (EmptyString, s2)
              | (fs, r') => (fs, r')
              end
            else (EmptyString, s2)
        | EmptyString => (EmptyString, s2)
        end in
      let '(has_exp, ex, s4) :=
        match s3 with
        | String c r =>
            if (code c =? 101) || (code c =? 69) then
              let (eneg, r1) :=
                match r with
                | String g r' =>
                    if code g =? 45 then (true, r')
                    else if code g =? 43 then (false, r')
                    else (false, r)
                | EmptyString => (false, r)
                end in
              match span_digits r1 with
              | (EmptyString, _) => (false, 0%Z, s3)
              | (es, r2) =>
                  (true,
                   if eneg then (- digits_value es 0)%Z else digits_value es 0,
                   r2)
              end
            else (false, 0%Z, s3)
        | EmptyString => (false, 0%Z, s3)
        end in
      let is_float := negb (frac =? "")%string || has_exp in
      if is_float then
        Some (PFloat (FDecimal neg (digits_value (ds ++ frac) 0)
                        (ex - Z.of_nat (String.length frac))), s4)
      else if int_max_str_digits <? String.length ds then None
      else
        Some (PInt (if neg then - digits_value ds 0 else digits_value ds 0)%Z,
              s4)
  end.

(** One JSON value at the head of the text; the rest of the text follows. *)
Fixpoint scan_once (fuel : nat) (s : string) : option (pyval * string) :=
  match fuel with
  | 0 => None
  | S f =>
      match s with
      | EmptyString => None
      | String c r =>
          if code c =? 34 then
            match scanstring (String.length r) r "" with
            | Some (str, rest) => Some (PStr str, rest)
            | None => None
            end
          else if code c =? 123 then
            let r0 := skip_ws r in
            match r0 with
            | String c0 r1 =>
                if code c0 =? 125 then Some (PDict [], r1)
                else parse_members f r0 []
            | EmptyString => None
            end
          else if code c =? 91 then
            let r0 := skip_ws r in
            match r0 with
            | String c0 r1 =>
                if code c0 =? 93 then Some (PList [], r1)
                else parse_items f r0 []
            | EmptyString => None
            end
          else if startswith s "null" then Some (PNone, drop 4 s)
          else if startswith s "true" then Some (PBool true, drop 4 s)
          else if startswith s "false" then Some (PBool false, drop 5 s)
          else if startswith s "NaN" then Some (PFloat FNaN, drop 3 s)
          else if startswith s "Infinity" then
            Some (PFloat (FInfinity false), drop 8 s)
          else if startswith s "-Infinity" then
            Some (PFloat (FInfinity true), drop 9 s)
          else scan_number s
      end
  end

(** The members of an object, from a key on; [acc] is the dict so far. *)
with parse_members (fuel : nat) (s : string) (acc : list (string * pyval))
  : option (pyval * string) :=
  match fuel with
  | 0 => None
  | S f =>
      match s with
      | String c r =>
          if code c =? 34 then
            match scanstring (String.length r) r "" with
            | None => None
            | Some (key, r1) =>
                match skip_ws r1 with
                | String c1 r2 =>
                    if code c1 =? 58 then
                      match scan_once f (skip_ws r2) with
                      | None => None
                      | Some (v, r3) =>
                          let acc' := dict_set key v acc in
                          match skip_ws r3 with
                          | String c3 r4 =>
                              if code c3 =? 125 then Some (PDict acc', r4)
                              else if code c3 =? 44 then
                                parse_members f (skip_ws r4) acc'
                              else None
                          | EmptyString => None
                          end
                      end
                    else None
                | EmptyString => None
                end
            end
          else None
      | EmptyString => None
      end
  end

(** The items of an array, from a value on; [acc] is the list so far. *)
with parse_items (fuel : nat) (s : string) (acc : list pyval)
  : option (pyval * string) :=
  match fuel with
  | 0 => None
  | S f =>
      match scan_once f s with
      | None => None
      | Some (v, r) =>
          match skip_ws r with
          | String c r1 =>
              if code c =? 93 then Some (PList (acc ++ [v]), r1)
              else if code c =? 44 then parse_items f (skip_ws r1) (acc ++ [v])
              else None
          | EmptyString => None
          end
      end
  end.

(** [json.loads(s)] *)
Definition loads (s : string) : option pyval :=
  match scan_once (2 * String.length s + 2) (skip_ws s) with
  | Some (v, rest) =>
      match skip_ws rest with
      | EmptyString => Some v
      | String _ _ => None
      end
  | None => None
  end.

End Json.

(* ================================================================== *)
(** ** The regular expression [BRACE_RE] *)
(* ================================================================== *)

(** The fragment of [re] the program uses: literal characters and a greedy
    [.*] under [re.S] (the dot matches every character, newlines too),
    matched by backtracking, longest repetition first. *)
Module Re.

Inductive atom :=
| Lit (c : ascii)
| AnyStar.

Definition pattern := list atom.

(** Length of the match of [p] anchored at the head of the text. *)
Fixpoint match_here (p : pattern) : string -> option nat :=
  match p with
  | [] => fun _ => Some 0
  | Lit c :: p' =>
      fun s =>
        match s with
        | String d r =>
            if Ascii.eqb c d then option_map S (match_here p' r) else None
        | EmptyString => None
        end
  | AnyStar :: p' =>
      fix star (s : string) : option nat :=
        match s with
        | EmptyString => match_here p' s
        | String _ r =>
            match star r with
            | Some n => Some (S n)
            | None => match_here p' s
            end
        end
  end.

(** [p.search(s)]: start and length of the leftmost match. *)
Fixpoint search (p : pattern) (s : string) : option (nat * nat) :=
  match match_here p s with
  | Some n => Some (0, n)
  | None =>
      match s with
      | EmptyString => None
      | String _ r =>
          match search p r with
          | Some (i, n) => Some (S i, n)
          | None => None
          end
      end
  end.

End Re.

(** [BRACE_RE = re.compile(r"\{.*\}", re.S)] *)
Definition BRACE_RE : Re.pattern :=
  [Re.Lit "{"%char; Re.AnyStar; Re.Lit "}"%char].

(* ================================================================== *)
(** ** Configuration *)
(* ================================================================== *)

(** Delays are floats in the program and exact rationals here: the
    products of the program scale a delay by a power of two, which binary
    floating point does exactly.  A product beyond the largest float is
    [inf] in the program; [min] and [time.sleep] treat it as they treat the
    exact product. *)
Record Config := {
  INPUT_FILE : string;
  OUTPUT_FILE : string;
  ELEMENTS : list string;
  API_KEY : string;
  BASE_URL : string;
  MODEL : string;
  SUPPORTED_MODELS : list string;
  MAX_RETRIES : nat;
  RETRY_DELAY : Q;
  MAX_RETRY_DELAY : Q;
  REQUEST_TIMEOUT : Q;
  REQUIRED_COLS : list string
}.

(** The settings of [class Config]; [env_key] is the value of the
    environment variable [OPENAI_API_KEY], when set. *)
Definition default_config (env_key : option string) : Config := {|
  INPUT_FILE := "sample_controls.xlsx";
  OUTPUT_FILE := "sample_controls_TestResult.xlsx";
  ELEMENTS := ["When"; "Why"; "Who"; "What"; "Where"; "How"];
  API_KEY := match env_key with
             | Some k => k
             | None => "YOUR_OPENAI_API_KEY_HERE"
             end;
  BASE_URL := "https://api.openai.com/v1";
  MODEL := "gpt-4";
  SUPPORTED_MODELS :=
    ["gpt-4"; "gpt-4-turbo"; "gpt-3.5-turbo"; "gpt-4o"; "gpt-4o-mini"];
  MAX_RETRIES := 5;
  RETRY_DELAY := 1%Q;
  MAX_RETRY_DELAY := 60%Q;
  REQUEST_TIMEOUT := 120%Q;
  REQUIRED_COLS :=
    ["Risk"; "Risk Description"; "Control"; "Control Description";
     "Automation"; "Detective/ Preventive"; "Operation Frequency"]
|}.

(* ================================================================== *)
(** ** Data frames *)
(* ================================================================== *)

(** A frame is its row count and its columns in order, each a header and
    the cells from the first row down.  Rows are numbered from zero (the
    index [pd.read_excel] gives). *)
Record DataFrame := {
  nrows : nat;
  columns : list (string * list pyval)
}.

Definition headers (df : DataFrame) : list string := map fst (columns df).

(** [col in df.columns] *)
Definition has_column (col : string) (df : DataFrame) : bool :=
  existsb (String.eqb col) (headers df).

(** The cells under the first column with this header. *)
Fixpoint find_column (col : string) (cs : list (string * list pyval))
  : option (list pyval) :=
  match cs with
  | [] => None
  | (h, cells) :: r => if (h =? col)%string then Some cells else find_column col r
  end.

Definition column (col : string) (df : DataFrame) : option (list pyval) :=
  find_column col (columns df).

(** Every column has one cell per row. *)
Definition well_formed (df : DataFrame) : Prop :=
  Forall (fun c => length (snd c) = nrows df) (columns df).

(* ================================================================== *)
(** ** Effects *)
(* ================================================================== *)

(** One [client.chat.completions.create] request. *)
Record request := {
  req_model : string;
  req_system : string;
  req_user : string;
  req_max_tokens : option nat
}.

(** What a request comes back with: a response carrying the message content
    of each choice ([None] for a null content), or an exception, of which
    only its text [str(e)] is used. *)
Inductive api_result :=
| Response (choices : list (option string))
| ApiError (msg : string).

(** The remote service seen from the program: a transition on the state of
    the service, whatever that state is. *)
Record Client (S : Type) := {
  create : request -> S -> api_result * S
}.
Arguments create {S}.

(** The exceptions the program can meet, apart from those of the service
    (which come back as [ApiError]). *)
Inductive exn :=
| AttributeError (msg : string)
| KeyError (key : string)
| ValueError (msg : string)
| FileNotFoundError (path : string)
| OverflowError (msg : string).

Inductive level := INFO | WARNING | ERROR.

(** Values interpolated into a log line. *)
Inductive log_arg :=
| ANat (n : nat)
| AStr (s : string)
| ASeconds (d : Q)
| AVal (v : pyval)
| AStrs (l : list string)
| AExn (e : exn).

(** What the program does to the outside: a request (with what came back),
    a pause, a log line, the hand-over of the result frame. *)
Inductive event :=
| ECall (r : request) (res : api_result)
| ESleep (seconds : Q)
| ELog (l : level) (template : string) (args : list log_arg)
| ESaved (df : DataFrame).

(** The service and the chronological record of what the program did. *)
Record World (S : Type) := {
  service : S;
  trace : list event
}.
Arguments service {S}.
Arguments trace {S}.

(** How a computation ends: with a value, with an exception, or with
    [sys.exit(code)], which no [except Exception] clause catches. *)
Inductive Res (A : Type) :=
| Ok (a : A)
| Raise (e : exn)
| Exit (code : Z).
Arguments Ok {A}.
Arguments Raise {A}.
Arguments Exit {A}.

Definition M (St A : Type) : Type := St -> Res A * St.

Definition ret {St A} (a : A) : M St A := fun st => (Ok a, st).

Definition bind {St A B} (m : M St A) (k : A -> M St B) : M St B :=
  fun st =>
    match m st with
    | (Ok a, st') => k a st'
    | (Raise e, st') => (Raise e, st')
    | (Exit c, st') => (Exit c, st')
    end.

Definition raise {St A} (e : exn) : M St A := fun st => (Raise e, st).

Definition sys_exit {St A} (code : Z) : M St A := fun st => (Exit code, st).

(** [try: body  except Exception: handler] *)
Definition try_except {St A} (body : M St A) (handler : exn -> M St A)
  : M St A :=
  fun st =>
    match body st with
    | (Raise e, st') => handler e st'
    | other => other
    end.

Declare Scope monad_scope.
Delimit Scope monad_scope with monad.
Notation "x <- m ;; k" := (bind m (fun x => k))
  (at level 61, m at next level, right associativity) : monad_scope.
Notation "' p <- m ;; k" := (bind m (fun x => let 'p := x in k))
  (at level 61, p pattern, m at next level, right associativity) : monad_scope.
Notation "m ;; k" := (bind m (fun _ => k))
  (at level 61, right associativity) : monad_scope.
Open Scope monad_scope.

(** [for x in xs: body(x)] *)
Fixpoint for_each {St A} (xs : list A) (body : A -> M St unit) : M St unit :=
  match xs with
  | [] => ret tt
  | x :: r => body x ;; for_each r body
  end.

(** The longest pause [time.sleep] takes: the clock of the interpreter
    counts nanoseconds in 64 bits. *)
Definition sleep_limit : Q := (inject_Z (2 ^ 63 - 1) / inject_Z (10 ^ 9))%Q.

(** A pause [time.sleep] takes. *)
Definition accepted (seconds : Q) : bool :=
  Qle_bool 0 seconds && Qle_bool seconds sleep_limit.

Section Effects.
Context {S : Type}.

Definition emit (e : event) : M (World S) unit :=
  fun w => (Ok tt, {| service := service w; trace := trace w ++ [e] |}).

Definition log (l : level) (template : string) (args : list log_arg)
  : M (World S) unit :=
  emit (ELog l template args).

(** [time.sleep(seconds)]: the length is converted to the clock first,
    which fails when it is out of the range of the clock either way, and a
    negative length is refused. *)
Definition sleep (seconds : Q) : M (World S) unit :=
  if Qle_bool (- sleep_limit) seconds && Qle_bool seconds sleep_limit then
    if Qle_bool 0 seconds then emit (ESleep seconds)
    else raise (ValueError "sleep length must be non-negative")
  else raise (OverflowError "timestamp too large to convert to C _PyTime_t").

(** [client.chat.completions.create(...)]; its exceptions come back as
    [ApiError]. *)
Definition chat_create (client : Client S) (r : request)
  : M (World S) api_result :=
  fun w =>
    let (res, s') := create client r (service w) in
    (Ok res, {| service := s'; trace := trace w ++ [ECall r res] |}).

End Effects.

(** Requests sent (with what came back), pauses taken and frames handed
    over, read off a trace. *)
Definition calls_of (t : list event) : list (request * api_result) :=
  flat_map (fun e => match e with ECall r res => [(r, res)] | _ => [] end) t.

Definition sleeps_of (t : list event) : list Q :=
  flat_map (fun e => match e with ESleep d => [d] | _ => [] end) t.

Definition saved_of (t : list event) : list DataFrame :=
  flat_map (fun e => match e with ESaved d => [d] | _ => [] end) t.

(* ================================================================== *)
(** ** The pipeline *)
(* ================================================================== *)

(** How the [except] clauses of the executor and of the start-up check
    sort a failure, from the lowered text of the exception; the first test
    that holds decides. *)
Inductive error_class := RateLimited | Unauthorized | NotFound | OtherError.

Definition classify (e : string) : error_class :=
  let error_msg := Text.lower e in
  if Text.contains "429" error_msg
     || Text.contains "too many requests" error_msg then RateLimited
  else if Text.contains "401" error_msg
          || Text.contains "unauthorized" error_msg then Unauthorized
  else if Text.contains "404" error_msg
          || Text.contains "not found" error_msg then NotFound
  else OtherError.

(** [2 ** attempt] *)
Definition pow2 (attempt : nat) : Q := inject_Z (2 ^ Z.of_nat attempt).

(** The largest power [2 ** attempt] that converts to a float is
    [2 ** 1023]. *)
Definition float_exponents : nat := 1024.

(** The settings under which the retry loops can compute and take every
    pause within their budget of attempts: each power of two converts to a
    float, and each delay, capped or not, is a pause [time.sleep] takes.
    (No uncapped pause follows the last attempt.) *)
Definition settings_in_range (C : Config) : bool :=
  forallb
    (fun attempt =>
       (attempt <? float_exponents)
       && accepted (Qmin (RETRY_DELAY C * pow2 attempt) (MAX_RETRY_DELAY C))
       && ((MAX_RETRIES C - 1 <=? attempt)
           || accepted (RETRY_DELAY C * pow2 attempt)))
    (seq 0 (MAX_RETRIES C)).

(** [response.choices[0].message.content.strip()] inside the [try] of the
    executor: the stripped text, or the text of the exception raised. *)
Definition first_content (r : api_result) : string + string :=
  match r with
  | ApiError msg => inr msg
  | Response [] => inr "list index out of range"
  | Response (None :: _) => inr "'NoneType' object has no attribute 'strip'"
  | Response (Some c :: _) => inl (Text.strip c)
  end.

(** The test of the start-up check,
    [response and response.choices and response.choices[0].message.content],
    and the exception raised when it fails. *)
Definition ping_outcome (r : api_result) : unit + string :=
  match r with
  | ApiError msg => inr msg
  | Response (Some c :: _) =>
      if (c =? "")%string then inr "Invalid response structure from API"
      else inl tt
  | Response _ => inr "Invalid response structure from API"
  end.

(** The names of the nineteen result lists of [process_controls]. *)
Inductive result_list :=
| present_list | missing_list | suggestion_list
| objective_ans | objective_exp
| exec_ans | exec_exp
| type_ans | type_exp
| freq_ans | freq_exp
| sysdep_ans | sysdep_exp
| present_missing_list
| adaptability_ans | adaptability_exp
| overall_rating_ans | overall_rating_exp
| potential_evidence_list.

Definition result_list_eqb (a b : result_list) : bool :=
  match a, b with
  | present_list, present_list | missing_list, missing_list
  | suggestion_list, suggestion_list
  | objective_ans, objective_ans | objective_exp, objective_exp
  | exec_ans, exec_ans | exec_exp, exec_exp
  | type_ans, type_ans | type_exp, type_exp
  | freq_ans, freq_ans | freq_exp, freq_exp
  | sysdep_ans, sysdep_ans | sysdep_exp, sysdep_exp
  | present_missing_list, present_missing_list
  | adaptability_ans, adaptability_ans | adaptability_exp, adaptability_exp
  | overall_rating_ans, overall_rating_ans
  | overall_rating_exp, overall_rating_exp
  | potential_evidence_list, potential_evidence_list => true
  | _, _ => false
  end.

(** The lists in the order the [except] clause of the loop goes through
    them. *)
Definition all_result_lists : list result_list :=
  [present_list; missing_list; suggestion_list; present_missing_list;
   objective_ans; objective_exp; exec_ans; exec_exp; type_ans; type_exp;
   freq_ans; freq_exp; sysdep_ans; sysdep_exp; adaptability_ans;
   adaptability_exp; overall_rating_ans; overall_rating_exp;
   potential_evidence_list].

(** The contents of the nineteen lists. *)
Definition Lists := result_list -> list pyval.

Definition empty_lists : Lists := fun _ => [].

Definition LLM_error : pyval := PStr "LLM error".
Definition Processing_error : pyval := PStr "Processing error".

(** Headers of the output columns, in the order [process_controls] leaves
    them when the input has none of them. *)
Definition present_missing_col : string :=
  "Has the control been formally documented? (When, Why, Who, What, Where and How)".
Definition objective_col : string :=
  "Control objective: Is the control designed able to mitigate the risk ?".
Definition execution_col : string :=
  "Is the control execution appropriate for the risk being addressed?".
Definition type_col : string :=
  "Is the control type adequate for the risk it addresses".
Definition frequency_col : string :=
  "Is the control frequency appropriate for the associated risk?".
Definition sysdep_col : string :=
  "System/data dependencies: Are the systems/data sources used reliable and secure?".
Definition adaptability_col : string :=
  "Adaptability - Is the control adaptable to new risks or process changes?".

Definition output_columns : list (string * result_list) :=
  [(present_missing_col, present_missing_list);
   ("Suggestions", suggestion_list);
   (objective_col, objective_ans);
   ("Control objective: Explanation", objective_exp);
   (execution_col, exec_ans);
   ("Execution appropriateness: Explanation", exec_exp);
   (type_col, type_ans);
   ("Type adequacy: Explanation", type_exp);
   (frequency_col, freq_ans);
   ("Frequency appropriateness: Explanation", freq_exp);
   (sysdep_col, sysdep_ans);
   (adaptability_col, adaptability_ans);
   ("Adaptability: Explanation", adaptability_exp);
   ("Overall Rating", overall_rating_ans);
   ("Overall Rating: Explanation", overall_rating_exp);
   ("Potential Evidences Expected Based on Control Description",
    potential_evidence_list)].

(** *** Operations on frames *)

(** [df[col] = values]: fills the column of that header where it stands, or
    adds it after the last one; the values must be one per row. *)
Definition set_column (col : string) (values : list pyval) (df : DataFrame)
  : Res DataFrame :=
  if length values =? nrows df then
    Ok {| nrows := nrows df;
          columns :=
            if has_column col df then
              map (fun c => if (fst c =? col)%string then (fst c, values) else c)
                  (columns df)
            else columns df ++ [(col, values)] |}
  else Raise (ValueError "Length of values does not match length of index").

(** [if col in df.columns: del df[col]] *)
Definition del_if_present (col : string) (df : DataFrame) : DataFrame :=
  {| nrows := nrows df;
     columns := filter (fun c => negb (fst c =? col)%string) (columns df) |}.

(** [df.rename(columns={old: new}, inplace=True)] *)
Definition rename_column (old new : string) (df : DataFrame) : DataFrame :=
  {| nrows := nrows df;
     columns := map (fun c => if (fst c =? old)%string then (new, snd c) else c)
                    (columns df) |}.



(** [x = step(x)] for a step that can raise. *)
Definition and_then {A B} (r : Res A) (k : A -> Res B) : Res B :=
  match r with
  | Ok a => k a
  | Raise e => Raise e
  | Exit c => Exit c
  end.

(** The column assignments at the end of [process_controls]. *)
Definition add_result_columns (L : Lists) (df : DataFrame) : Res DataFrame :=
  and_then (set_column "Present & Missing" (L present_missing_list) df)
  (fun df =>
  let df := fold_left (fun d col => del_if_present col d) ["Present"; "Missing"] df in
  and_then (set_column "Suggestions" (L suggestion_list) df) (fun df =>
  let df := del_if_present "Source" df in
  and_then (set_column objective_col (L objective_ans) df) (fun df =>
  and_then (set_column "Control objective: Explanation" (L objective_exp) df) (fun df =>
  and_then (set_column execution_col (L exec_ans) df) (fun df =>
  and_then (set_column "Execution appropriateness: Explanation" (L exec_exp) df) (fun df =>
  and_then (set_column type_col (L type_ans) df) (fun df =>
  and_then (set_column "Type adequacy: Explanation" (L type_exp) df) (fun df =>
  and_then (set_column frequency_col (L freq_ans) df) (fun df =>
  and_then (set_column "Frequency appropriateness: Explanation" (L freq_exp) df) (fun df =>
  and_then (set_column sysdep_col (L sysdep_ans) df) (fun df =>
  and_then (set_column adaptability_col (L adaptability_ans) df) (fun df =>
  and_then (set_column "Adaptability: Explanation" (L adaptability_exp) df) (fun df =>
  and_then (set_column "Overall Rating" (L overall_rating_ans) df) (fun df =>
  and_then (set_column "Overall Rating: Explanation" (L overall_rating_exp) df) (fun df =>
  and_then (set_column "Potential Evidences Expected Based on Control Description"
              (L potential_evidence_list) df) (fun df =>
  let df := del_if_present "System/data dependencies: Explanation" df in
  let df := if has_column "Present & Missing" df
            then rename_column "Present & Missing" present_missing_col df
            else df in
  Ok df)))))))))))))))).

(** *** Python values as text *)

Definition type_name (v : pyval) : string :=
  match v with
  | PNone => "NoneType"
  | PBool _ => "bool"
  | PInt _ => "int"
  | PFloat _ => "float"
  | PStr _ => "str"
  | PList _ => "list"
  | PDict _ => "dict"
  end.

Definition no_attribute (v : pyval) (attr : string) : exn :=
  AttributeError ("'" ++ type_name v ++ "' object has no attribute '" ++ attr ++ "'").

Definition str_of_int (z : Z) : string := NilZero.string_of_int (Z.to_int z).

(** [not raw_response] for the result of the executor. *)
Definition no_text (raw_response : option string) : bool :=
  match raw_response with
  | None => true
  | Some s => (s =? "")%string
  end.

(** [not data] for the result of the parser. *)
Definition no_data (data : option pyval) : bool :=
  match data with
  | None => true
  | Some v => negb (truthy v)
  end.

(** The text, once [not raw_response] has been ruled out. *)
Definition text_of (raw_response : option string) : string :=
  match raw_response with
  | Some s => s
  | None => ""
  end.

(** The parsed value, once [not data] has been ruled out. *)
Definition value_of (data : option pyval) : pyval :=
  match data with
  | Some v => v
  | None => PNone
  end.

Definition default_system_content : string :=
  "Respond only with the JSON object.".

(** *** Prompts *)

(** The prompt of [ask_llm]. *)
Definition ask_llm_prompt (elements : list string) (text : string) : string :=
  "
You are the world's best professional auditor with decades of experience testing control descriptions for completeness.

Given the following control description, evaluate it for the presence of six key elements: "
  ++ Text.join ", " elements
  ++ Text.tpl ".

For each element:
- If present, list it with a short clause (<20 words) referencing how it's reflected in the description.
- If missing, explain briefly why it's considered missing (e.g., `no timeline or frequency mentioned`).

Then suggest improvements for each missing element based on the description.

Return valid JSON in this format:
{
  `present`: {
    `Who`: `...`,
    `What`: `...`,
    ...
  },
  `missing`: {
    `When`: `No timeline stated`,
    `Where`: `No tool or system mentioned`,
    ...
  },
  `suggestions`: {
    `When`: `Suggest adding a specific timeline or frequency for review`,
    ...
  }
}

Control Description:
```"
  ++ text
  ++ Text.tpl "```

JSON:
".

(** The prompt of [ask_control_objective]. *)
Definition ask_control_objective_prompt (risk_desc control_desc : string) : string :=
  "
Given the following risk description and control description, answer:
1. Is the control, as designed, able to mitigate the risk? (Yes/No)
2. Briefly explain your reasoning (1-2 sentences).

Risk Description:
"
  ++ risk_desc
  ++ "

Control Description:
"
  ++ control_desc
  ++ Text.tpl "

Respond in JSON:
{
  `answer`: `Yes or No`,
  `explanation`: `...`
}
".

(** The prompt of [ask_execution_appropriateness]. *)
Definition ask_execution_appropriateness_prompt (automation risk_desc control_desc : string) : string :=
  "
Given the automation type (Automated/Semi-Auto/Manual), risk description, and control description, answer:
1. Is the control execution appropriate based on the control description and risk description? (Yes/No)
2. Briefly explain your reasoning (1-2 sentences).

Automation: "
  ++ automation
  ++ "
Risk Description: "
  ++ risk_desc
  ++ "
Control Description: "
  ++ control_desc
  ++ Text.tpl "

Respond in JSON:
{
  `answer`: `Yes or No`,
  `explanation`: `...`
}
".

(** The prompt of [ask_type_adequacy]. *)
Definition ask_type_adequacy_prompt (control_type risk_desc control_desc : string) : string :=
  "
Given the control type (Detective/Preventive), risk description, and control description, answer:
1. Is the control type appropriate based on control description and adequate for the risk it addresses? (Yes/No)
2. Briefly explain your reasoning (1-2 sentences).

Type: "
  ++ control_type
  ++ "
Risk Description: "
  ++ risk_desc
  ++ "
Control Description: "
  ++ control_desc
  ++ Text.tpl "

Respond in JSON:
{
  `answer`: `Yes or No`,
  `explanation`: `...`
}
".

(** The prompt of [ask_frequency_appropriateness]. *)
Definition ask_frequency_appropriateness_prompt (frequency risk_desc control_desc : string) : string :=
  "
Given the operation frequency, risk description, and control description, answer:
1. Is the control frequency appropriate based on the control description and adequated for the associated risk? (Yes/No)
2. Briefly explain your reasoning (1-2 sentences).

Frequency: "
  ++ frequency
  ++ "
Risk Description: "
  ++ risk_desc
  ++ "
Control Description: "
  ++ control_desc
  ++ Text.tpl "

Respond in JSON:
{
  `answer`: `Yes or No`,
  `explanation`: `...`
}
".

(** The prompt of [ask_system_dependency]. *)
Definition ask_system_dependency_prompt (control_desc : string) : string :=
  Text.tpl "
Given the control description, extract the names of any systems or data sources mentioned. List only the system or data source names (comma-separated if more than one). If none are mentioned, return `None found`.

Control Description: "
  ++ control_desc
  ++ Text.tpl "

Respond in JSON:
{
  `systems`: `...`
}
".

(** The prompt of [ask_adaptability]. *)
Definition ask_adaptability_prompt (control_desc : string) : string :=
  "
Given the following control description, answer:
1. Does the control ensure that no single individual has end-to-end responsibility for critical transactions so like proper Segregation of duties? (Yes/No)
2. Briefly explain your reasoning (1-2 sentences).

Control Description:
"
  ++ control_desc
  ++ Text.tpl "

Respond in JSON:
{
  `answer`: `Yes or No`,
  `explanation`: `...`
}
".

(** The prompt of [ask_overall_rating]. *)
Definition ask_overall_rating_prompt (objective execution type_adequacy frequency dependencies present missing : string) : string :=
  "
Given the following analysis of a control, provide an overall rating as one of the following: Effective, Partially effective, In-effective. Consider all the information below:
- Control objective: "
  ++ objective
  ++ "
- Execution appropriateness: "
  ++ execution
  ++ "
- Type adequacy: "
  ++ type_adequacy
  ++ "
- Frequency appropriateness: "
  ++ frequency
  ++ "
- System/data dependencies: "
  ++ dependencies
  ++ "
- Present: "
  ++ present
  ++ "
- Missing: "
  ++ missing
  ++ Text.tpl "

Return a JSON object:
{
  `rating`: `Effective, Partially effective, or In-effective`,
  `explanation`: `...`
}
".

(** The prompt of [ask_expected_evidence]. *)
Definition ask_expected_evidence_prompt (control_desc : string) : string :=
  "
You are the world's best professional auditor with decades of experience testing control descriptions for completeness.

Given the following control description, list the types of evidence an auditor or tester would expect to see to verify the control's operation. List each expected evidence as a separate numbered point (1., 2., 3., etc.).

Control Description:
"
  ++ control_desc
  ++ "

Respond with a numbered list of expected evidence types only.
".

(** *** The names of the operations *)

(** The nine operations by name, so that a statement can range over all of
    them. *)
Inductive operation :=
| Completeness
| ObjectiveFit
| ExecutionFit
| TypeFit
| FrequencyFit
| DependencyExtraction
| SegregationOfDuties
| OverallRating
| ExpectedEvidence.

(** What the operations are given: the fields of the record and, for the
    overall rating, the results of the operations before it. *)
Record assessment_inputs := {
  in_risk_desc : pyval;
  in_control_desc : pyval;
  in_automation : pyval;
  in_control_type : pyval;
  in_frequency : pyval;
  in_answers : pyval * pyval * pyval * pyval * pyval;
  in_present : string;
  in_missing : string;
  in_adaptability : pyval
}.

(** The keys each operation expects in the response (the text of the
    evidence list is not JSON and goes under [text]). *)
Definition expected_keys (op : operation) : list string :=
  match op with
  | Completeness => ["present"; "missing"; "suggestions"]
  | DependencyExtraction => ["systems"]
  | OverallRating => ["rating"; "explanation"]
  | ExpectedEvidence => ["text"]
  | _ => ["answer"; "explanation"]
  end.

Definition system_content_of (op : operation) : string :=
  match op with
  | ExpectedEvidence => "Respond only with the numbered list."
  | _ => default_system_content
  end.

Section Pipeline.

Context {S : Type}.
(** The client object handed to every function. *)
Variable client : Client S.
Variable Cfg : Config.
(** [json.loads], [None] when it raises.  {!Json.loads} is the decoder of
    the standard library; the program is modelled over any decoder. *)
Variable loads : string -> option pyval.
(** [repr] of floats, lists and dicts, which [str] and f-strings fall back
    on. *)
Variable py_repr : pyval -> string.

#[local] Abbreviation W := (World S).

(** [str(v)], as an f-string interpolates a value. *)
Definition py_str (v : pyval) : string :=
  match v with
  | PStr s => s
  | PNone => "None"
  | PBool true => "True"
  | PBool false => "False"
  | PInt z => str_of_int z
  | _ => py_repr v
  end.

(** [data.get(key, default)] *)
Definition py_get {St} (data : pyval) (key : string) (default : pyval)
  : M St pyval :=
  match data with
  | PDict d => ret (dict_get key default d)
  | _ => raise (no_attribute data "get")
  end.

(** [v.items()] *)
Definition py_items {St} (v : pyval) : M St (list (string * pyval)) :=
  match v with
  | PDict d => ret d
  | _ => raise (no_attribute v "items")
  end.

(** *** Response parser *)

(** Both [except] clauses log a warning and return [None]; the line kept in
    the trace is that of the first. *)
Definition extract_json_from_response (raw_response : string)
  : M W (option pyval) :=
  let raw_response :=
    if Text.startswith (Text.lower raw_response) "json"
    then Text.strip (Text.drop 4 raw_response)
    else raw_response in
  let json_str :=
    match Re.search BRACE_RE raw_response with
    | Some (start, len) => Text.slice start len raw_response
    | None => raw_response
    end in
  match loads json_str with
  | Some data => ret (Some data)
  | None => log WARNING "Failed to parse JSON response: {}" [] ;; ret None
  end.

(** *** Resilient call executor *)

(** [Config.RETRY_DELAY * (2 ** attempt)]: the delay is a float, so the
    power is converted to a float for the product, which raises from
    [2 ** 1024] on. *)
Definition backoff (attempt : nat) : M W Q :=
  if attempt <? float_exponents then ret (RETRY_DELAY Cfg * pow2 attempt)%Q
  else raise (OverflowError "int too large to convert to float").

(** The [for attempt in range(Config.MAX_RETRIES)] loop, [remaining]
    iterations from [attempt] on; falling out of the loop returns [None].
    What the [except] clause itself raises (the product, the pause) leaves
    the function. *)
Fixpoint llm_attempts (r : request) (remaining attempt : nat)
  : M W (option string) :=
  match remaining with
  | 0 => ret None
  | Datatypes.S remaining' =>
      response <- chat_create client r ;;
      match first_content response with
      | inl text => ret (Some text)
      | inr e =>
          log WARNING "LLM call attempt {} failed: {}" [ANat (attempt + 1); AStr e] ;;
          match classify e with
          | RateLimited =>
              delay <- backoff attempt ;;
              let wait_time := Qmin delay (MAX_RETRY_DELAY Cfg) in
              log INFO "Rate limit hit, waiting {}s before retry..." [ASeconds wait_time] ;;
              sleep wait_time ;;
              llm_attempts r remaining' (Datatypes.S attempt)
          | Unauthorized =>
              log ERROR "🚫 Authentication failed during LLM call" [] ;;
              ret None
          | NotFound =>
              log ERROR "🚫 Model or endpoint not found during LLM call" [] ;;
              ret None
          | OtherError =>
              if attempt <? MAX_RETRIES Cfg - 1 then
                wait_time <- backoff attempt ;;
                log INFO "Retrying LLM call in {}s..." [ASeconds wait_time] ;;
                sleep wait_time ;;
                llm_attempts r remaining' (Datatypes.S attempt)
              else
                log ERROR "All {} LLM call attempts failed" [ANat (MAX_RETRIES Cfg)] ;;
                llm_attempts r remaining' (Datatypes.S attempt)
          end
      end
  end.

Definition make_llm_call_with_retry (prompt system_content : string)
  : M W (option string) :=
  llm_attempts
    {| req_model := MODEL Cfg; req_system := system_content;
       req_user := prompt; req_max_tokens := None |}
    (MAX_RETRIES Cfg) 0.

(** *** Start-up validation *)

Definition ping_request : request :=
  {| req_model := MODEL Cfg; req_system := "Be concise and precise.";
     req_user := "ping"; req_max_tokens := Some 10 |}.

(** The connection test loop of [initialize_client]; falling out of the
    loop exits.  Here too, what the [except] clause itself raises leaves
    the function. *)
Fixpoint connection_attempts (remaining attempt : nat) : M W unit :=
  match remaining with
  | 0 =>
      log ERROR "🚫 OpenAI API connection could not be established" [] ;;
      sys_exit 1
  | Datatypes.S remaining' =>
      log INFO "Testing connection (attempt {}/{})..."
          [ANat (attempt + 1); ANat (MAX_RETRIES Cfg)] ;;
      response <- chat_create client ping_request ;;
      match ping_outcome response with
      | inl _ =>
          log INFO "✔ OpenAI API connection test successful" [] ;;
          log INFO "✔ Model '{}' is working correctly" [AStr (MODEL Cfg)] ;;
          ret tt
      | inr e =>
          log WARNING "Connection test attempt {} failed: {}"
              [ANat (attempt + 1); AStr e] ;;
          match classify e with
          | RateLimited =>
              delay <- backoff attempt ;;
              let wait_time := Qmin delay (MAX_RETRY_DELAY Cfg) in
              log INFO "Rate limit hit, waiting {}s before retry..." [ASeconds wait_time] ;;
              sleep wait_time ;;
              connection_attempts remaining' (Datatypes.S attempt)
          | Unauthorized =>
              log ERROR "🚫 Authentication failed - check your API key" [] ;;
              sys_exit 1
          | NotFound =>
              log ERROR "🚫 API endpoint not found - check base URL and model name" [] ;;
              sys_exit 1
          | OtherError =>
              if attempt <? MAX_RETRIES Cfg - 1 then
                wait_time <- backoff attempt ;;
                log INFO "Retrying in {}s..." [ASeconds wait_time] ;;
                sleep wait_time ;;
                connection_attempts remaining' (Datatypes.S attempt)
              else
                log ERROR "🚫 All connection attempts failed. Last error: {}" [AStr e] ;;
                log ERROR "Please check:" [] ;;
                log ERROR "1. API key is valid and not expired" [] ;;
                log ERROR "2. Model name is supported" [] ;;
                log ERROR "3. Network connectivity" [] ;;
                log ERROR "4. OpenAI API service status" [] ;;
                sys_exit 1
          end
      end
  end.

(** Returns when the connection test succeeds (the client is the one the
    other functions are given). *)
Definition initialize_client : M W unit :=
  if (API_KEY Cfg =? "YOUR_OPENAI_API_KEY_HERE")%string then
    log ERROR "⚠  Set OPENAI_API_KEY environment variable or update Config.API_KEY" [] ;;
    sys_exit 1
  else
    (if existsb (String.eqb (MODEL Cfg)) (SUPPORTED_MODELS Cfg) then ret tt
     else
       log WARNING "⚠ Model '{}' not in supported models list: {}"
           [AStr (MODEL Cfg); AStrs (SUPPORTED_MODELS Cfg)] ;;
       log INFO "Continuing with '{}' - it may still work" [AStr (MODEL Cfg)]) ;;
    log INFO "Initializing OpenAI client with model: {}" [AStr (MODEL Cfg)] ;;
    log INFO "Base URL: {}" [AStr (BASE_URL Cfg)] ;;
    connection_attempts (MAX_RETRIES Cfg) 0.

(** *** Assessment operations *)

Definition bullet_line (kv : string * pyval) : string :=
  "• " ++ fst kv ++ ": " ++ py_str (snd kv).

(** Completeness against the six elements. *)
Definition ask_llm (text : pyval) : M W (string * string * string) :=
  let prompt := ask_llm_prompt (ELEMENTS Cfg) (py_str text) in
  raw_response <- make_llm_call_with_retry prompt default_system_content ;;
  if no_text raw_response then ret ("", "LLM error", "") else
  data <- extract_json_from_response (text_of raw_response) ;;
  if no_data data then ret ("", "LLM error", "") else
  let data := value_of data in
  present <- py_get data "present" (PDict []) ;;
  missing <- py_get data "missing" (PDict []) ;;
  suggestions <- py_get data "suggestions" (PDict []) ;;
  present_items <- py_items present ;;
  let present_str := Text.join Text.nl (map bullet_line present_items) in
  missing_items <- py_items missing ;;
  let missing_str := Text.join Text.nl (map bullet_line missing_items) in
  suggestions_items <- py_items suggestions ;;
  let suggestions_str := Text.join Text.nl (map bullet_line suggestions_items) in
  ret (present_str, missing_str, suggestions_str).

(** Does the control, as designed, mitigate the risk. *)
Definition ask_control_objective (risk_desc control_desc : pyval)
  : M W (pyval * pyval) :=
  let prompt :=
    ask_control_objective_prompt (py_str risk_desc) (py_str control_desc) in
  raw_response <- make_llm_call_with_retry prompt default_system_content ;;
  if no_text raw_response then ret (LLM_error, LLM_error) else
  data <- extract_json_from_response (text_of raw_response) ;;
  if no_data data then ret (LLM_error, LLM_error) else
  let data := value_of data in
  answer <- py_get data "answer" LLM_error ;;
  explanation <- py_get data "explanation" LLM_error ;;
  ret (answer, explanation).

Definition ask_execution_appropriateness
  (automation risk_desc control_desc : pyval) : M W (pyval * pyval) :=
  let prompt :=
    ask_execution_appropriateness_prompt
      (py_str automation) (py_str risk_desc) (py_str control_desc) in
  raw_response <- make_llm_call_with_retry prompt default_system_content ;;
  if no_text raw_response then ret (LLM_error, LLM_error) else
  data <- extract_json_from_response (text_of raw_response) ;;
  if no_data data then ret (LLM_error, LLM_error) else
  let data := value_of data in
  answer <- py_get data "answer" LLM_error ;;
  explanation <- py_get data "explanation" LLM_error ;;
  ret (answer, explanation).

Definition ask_type_adequacy (control_type risk_desc control_desc : pyval)
  : M W (pyval * pyval) :=
  let prompt :=
    ask_type_adequacy_prompt
      (py_str control_type) (py_str risk_desc) (py_str control_desc) in
  raw_response <- make_llm_call_with_retry prompt default_system_content ;;
  if no_text raw_response then ret (LLM_error, LLM_error) else
  data <- extract_json_from_response (text_of raw_response) ;;
  if no_data data then ret (LLM_error, LLM_error) else
  let data := value_of data in
  answer <- py_get data "answer" LLM_error ;;
  explanation <- py_get data "explanation" LLM_error ;;
  ret (answer, explanation).

Definition ask_frequency_appropriateness
  (frequency risk_desc control_desc : pyval) : M W (pyval * pyval) :=
  let prompt :=
    ask_frequency_appropriateness_prompt
      (py_str frequency) (py_str risk_desc) (py_str control_desc) in
  raw_response <- make_llm_call_with_retry prompt default_system_content ;;
  if no_text raw_response then ret (LLM_error, LLM_error) else
  data <- extract_json_from_response (text_of raw_response) ;;
  if no_data data then ret (LLM_error, LLM_error) else
  let data := value_of data in
  answer <- py_get data "answer" LLM_error ;;
  explanation <- py_get data "explanation" LLM_error ;;
  ret (answer, explanation).

(** The systems and data sources the description names; the second
    component is a placeholder explanation that no column receives. *)
Definition ask_system_dependency (control_desc : pyval)
  : M W (pyval * pyval) :=
  let prompt := ask_system_dependency_prompt (py_str control_desc) in
  raw_response <- make_llm_call_with_retry prompt default_system_content ;;
  if no_text raw_response then ret (LLM_error, PStr "") else
  data <- extract_json_from_response (text_of raw_response) ;;
  if no_data data then ret (LLM_error, PStr "") else
  let data := value_of data in
  systems <- py_get data "systems" LLM_error ;;
  ret (systems, PStr "").

(** Segregation of duties. *)
Definition ask_adaptability (control_desc : pyval) : M W (pyval * pyval) :=
  let prompt := ask_adaptability_prompt (py_str control_desc) in
  raw_response <- make_llm_call_with_retry prompt default_system_content ;;
  if no_text raw_response then ret (LLM_error, LLM_error) else
  data <- extract_json_from_response (text_of raw_response) ;;
  if no_data data then ret (LLM_error, LLM_error) else
  let data := value_of data in
  answer <- py_get data "answer" LLM_error ;;
  explanation <- py_get data "explanation" LLM_error ;;
  ret (answer, explanation).

(** The [row] argument of [ask_overall_rating]: the five answers under the
    headers of their columns. *)
Definition overall_row (ans ans2 ans3 ans4 ans5 : pyval)
  : list (string * pyval) :=
  [(objective_col, ans); (execution_col, ans2); (type_col, ans3);
   (frequency_col, ans4); (sysdep_col, ans5)].

(** [row[key]] on a dict. *)
Definition dict_item {St} (row : list (string * pyval)) (key : string)
  : M St pyval :=
  match dict_find key row with
  | Some v => ret v
  | None => raise (KeyError key)
  end.

Definition ask_overall_rating (row : list (string * pyval))
  (present missing : string) (adaptability : pyval) : M W (pyval * pyval) :=
  objective <- dict_item row objective_col ;;
  execution <- dict_item row execution_col ;;
  type_adequacy <- dict_item row type_col ;;
  frequency <- dict_item row frequency_col ;;
  dependencies <- dict_item row sysdep_col ;;
  let prompt :=
    ask_overall_rating_prompt (py_str objective) (py_str execution)
      (py_str type_adequacy) (py_str frequency) (py_str dependencies)
      present missing in
  raw_response <- make_llm_call_with_retry prompt default_system_content ;;
  if no_text raw_response then ret (LLM_error, LLM_error) else
  data <- extract_json_from_response (text_of raw_response) ;;
  if no_data data then ret (LLM_error, LLM_error) else
  let data := value_of data in
  rating <- py_get data "rating" LLM_error ;;
  explanation <- py_get data "explanation" LLM_error ;;
  ret (rating, explanation).

Definition ask_expected_evidence (control_desc : pyval) : M W string :=
  let prompt := ask_expected_evidence_prompt (py_str control_desc) in
  raw_response <-
    make_llm_call_with_retry prompt "Respond only with the numbered list." ;;
  ret (if no_text raw_response then "LLM error"
       else Text.strip (text_of raw_response)).

(** *** Record processor *)

(** A computation on the world, run where the result lists are in scope. *)
Definition lift {A} (m : M W A) : M (Lists * W) A :=
  fun st => let (r, w) := m (snd st) in (r, (fst st, w)).

(** [lst.append(v)] *)
Definition append (l : result_list) (v : pyval) : M (Lists * W) unit :=
  fun st =>
    (Ok tt,
     (fun l' => if result_list_eqb l l' then (fst st l' ++ [v])%list else fst st l',
      snd st)).

(** [len(lst)] *)
Definition len (l : result_list) : M (Lists * W) nat :=
  fun st => (Ok (length (fst st l)), st).

(** [row[col]] for the row at [idx], where the header [col] stands over
    one column: the cell.  (Where a header is repeated pandas hands back
    the Series of the cells under it; the statements that depend on what is
    read assume that the headers read are not repeated.) *)
Definition row_item {St} (df : DataFrame) (idx : nat) (col : string)
  : M St pyval :=
  match column col df with
  | Some cells =>
      match nth_error cells idx with
      | Some v => ret v
      | None => raise (KeyError col)
      end
  | None => raise (KeyError col)
  end.

(** [row.get(col, default)] *)
Definition row_get (df : DataFrame) (idx : nat) (col : string)
  (default : pyval) : pyval :=
  match column col df with
  | Some cells => nth idx cells default
  | None => default
  end.

(** The body of the [try] in the loop of [process_controls]. *)
Definition analyse_record (df : DataFrame) (idx : nat) (control_name : pyval)
  : M (Lists * W) unit :=
  (* 1. Completeness analysis *)
  text <- row_item df idx "Control Description" ;;
  '(pres, miss, sugg) <- lift (ask_llm text) ;;
  append present_list (PStr pres) ;;
  append missing_list (PStr miss) ;;
  append suggestion_list (PStr sugg) ;;
  let present_missing :=
    "Present:" ++ Text.nl ++ pres ++ Text.nl ++ Text.nl
    ++ "Missing:" ++ Text.nl ++ miss in
  append present_missing_list (PStr present_missing) ;;
  (* 2. Control objective *)
  risk_desc <- row_item df idx "Risk Description" ;;
  control_desc <- row_item df idx "Control Description" ;;
  '(ans, exp) <- lift (ask_control_objective risk_desc control_desc) ;;
  append objective_ans ans ;;
  append objective_exp exp ;;
  (* 3. Execution appropriateness *)
  automation <- row_item df idx "Automation" ;;
  risk_desc <- row_item df idx "Risk Description" ;;
  control_desc <- row_item df idx "Control Description" ;;
  '(ans2, exp2) <-
    lift (ask_execution_appropriateness automation risk_desc control_desc) ;;
  append exec_ans ans2 ;;
  append exec_exp exp2 ;;
  (* 4. Type adequacy *)
  control_type <- row_item df idx "Detective/ Preventive" ;;
  risk_desc <- row_item df idx "Risk Description" ;;
  control_desc <- row_item df idx "Control Description" ;;
  '(ans3, exp3) <- lift (ask_type_adequacy control_type risk_desc control_desc) ;;
  append type_ans ans3 ;;
  append type_exp exp3 ;;
  (* 5. Frequency appropriateness *)
  frequency <- row_item df idx "Operation Frequency" ;;
  risk_desc <- row_item df idx "Risk Description" ;;
  control_desc <- row_item df idx "Control Description" ;;
  '(ans4, exp4) <-
    lift (ask_frequency_appropriateness frequency risk_desc control_desc) ;;
  append freq_ans ans4 ;;
  append freq_exp exp4 ;;
  (* 6. System/data dependencies *)
  control_desc <- row_item df idx "Control Description" ;;
  '(ans5, exp5) <- lift (ask_system_dependency control_desc) ;;
  append sysdep_ans ans5 ;;
  append sysdep_exp exp5 ;;
  (* 7. Adaptability *)
  control_desc <- row_item df idx "Control Description" ;;
  '(ans6, exp6) <- lift (ask_adaptability control_desc) ;;
  append adaptability_ans ans6 ;;
  append adaptability_exp exp6 ;;
  (* 8. Overall Rating *)
  '(ans7, exp7) <-
    lift (ask_overall_rating (overall_row ans ans2 ans3 ans4 ans5)
            pres miss ans6) ;;
  append overall_rating_ans ans7 ;;
  append overall_rating_exp exp7 ;;
  (* 9. Expected evidence *)
  control_desc <- row_item df idx "Control Description" ;;
  expected_evidence <- lift (ask_expected_evidence control_desc) ;;
  append potential_evidence_list (PStr expected_evidence) ;;
  lift (log INFO "  ✓ Completed analysis for {}" [AVal control_name]).

(** The [except] clause of the loop: error placeholders for the lists the
    record has not reached. *)
Definition fill_placeholders (idx : nat) (control_name : pyval) (e : exn)
  : M (Lists * W) unit :=
  lift (log ERROR "  ✗ Error processing {}: {}" [AVal control_name; AExn e]) ;;
  for_each all_result_lists
    (fun lst =>
       n <- len lst ;;
       if n <=? idx then append lst Processing_error else ret tt).

(** One iteration of the loop over [df.iterrows()]. *)
Definition process_record (df : DataFrame) (total_controls idx : nat)
  : M (Lists * W) unit :=
  let control_name :=
    row_get df idx "Control"
      (PStr ("Control_" ++ str_of_int (Z.of_nat (idx + 1)))) in
  lift (log INFO "Processing [{}/{}]: {}"
          [ANat (idx + 1); ANat total_controls; AVal control_name]) ;;
  try_except (analyse_record df idx control_name)
             (fill_placeholders idx control_name).

(** Runs a computation with the result lists empty at the start and hands
    back their final contents. *)
Definition with_lists {A} (m : M (Lists * W) A) : M W (A * Lists) :=
  fun w =>
    match m (empty_lists, w) with
    | (Ok a, (L, w')) => (Ok (a, L), w')
    | (Raise e, (_, w')) => (Raise e, w')
    | (Exit c, (_, w')) => (Exit c, w')
    end.

Definition of_res {St A} (r : Res A) : M St A := fun st => (r, st).

Definition process_controls (df : DataFrame) : M W DataFrame :=
  log INFO "Starting control analysis..." [] ;;
  let total_controls := nrows df in
  '(_, L) <-
    with_lists (for_each (seq 0 (nrows df)) (process_record df total_controls)) ;;
  df <- of_res (add_result_columns L df) ;;
  log INFO "✓ Control analysis completed" [] ;;
  ret df.

(** *** Main *)

(** [sheet] is what [pd.read_excel] finds in the input file, [None] when it
    cannot be read. *)
Definition load_and_validate_data (sheet : option DataFrame)
  : M W DataFrame :=
  try_except
    (log INFO "Loading data from {}" [AStr (INPUT_FILE Cfg)] ;;
     df <- match sheet with
           | Some df => ret df
           | None => raise (FileNotFoundError (INPUT_FILE Cfg))
           end ;;
     let missing_cols :=
       filter (fun col => negb (has_column col df)) (REQUIRED_COLS Cfg) in
     match missing_cols with
     | [] =>
         log INFO "✔ Loaded {} controls with all required columns"
             [ANat (nrows df)] ;;
         ret df
     | _ => raise (ValueError "Missing required columns")
     end)
    (fun e =>
       log ERROR "⚠ Could not read {} → {}" [AStr (INPUT_FILE Cfg); AExn e] ;;
       sys_exit 1).

(** The rendering of the workbook belongs to the output side; the trace
    keeps the frame that is handed over. *)
Definition save_results_to_excel (df : DataFrame) : M W unit :=
  log INFO "Saving results to {}" [AStr (OUTPUT_FILE Cfg)] ;;
  emit (ESaved df) ;;
  log INFO "✓ Results saved successfully to {}" [AStr (OUTPUT_FILE Cfg)].

(** The clock is not modelled: the elapsed time of the summary line is
    left out of its arguments.  An interrupt from the keyboard is not
    modelled either. *)
Definition main (sheet : option DataFrame) : M W unit :=
  try_except
    (log INFO (Text.times 80 "=") [] ;;
     log INFO "AI-Powered TOD Control Testing Framework" [] ;;
     log INFO (Text.times 80 "=") [] ;;
     initialize_client ;;
     df <- load_and_validate_data sheet ;;
     df_results <- process_controls df ;;
     save_results_to_excel df_results ;;
     log INFO (Text.times 80 "=") [] ;;
     log INFO "✓ Analysis completed successfully!" [] ;;
     log INFO "✓ Processed {} controls in {:.1f} seconds" [ANat (nrows df)] ;;
     log INFO "✓ Results saved to: {}" [AStr (OUTPUT_FILE Cfg)] ;;
     log INFO (Text.times 80 "=") [])
    (fun e =>
       log ERROR "✗ Analysis failed: {}" [AExn e] ;;
       sys_exit 1).

(** *** The operations as a catalog *)

Definition prompt_of (op : operation) (i : assessment_inputs) : string :=
  match op with
  | Completeness => ask_llm_prompt (ELEMENTS Cfg) (py_str (in_control_desc i))
  | ObjectiveFit =>
      ask_control_objective_prompt
        (py_str (in_risk_desc i)) (py_str (in_control_desc i))
  | ExecutionFit =>
      ask_execution_appropriateness_prompt (py_str (in_automation i))
        (py_str (in_risk_desc i)) (py_str (in_control_desc i))
  | TypeFit =>
      ask_type_adequacy_prompt (py_str (in_control_type i))
        (py_str (in_risk_desc i)) (py_str (in_control_desc i))
  | FrequencyFit =>
      ask_frequency_appropriateness_prompt (py_str (in_frequency i))
        (py_str (in_risk_desc i)) (py_str (in_control_desc i))
  | DependencyExtraction =>
      ask_system_dependency_prompt (py_str (in_control_desc i))
  | SegregationOfDuties => ask_adaptability_prompt (py_str (in_control_desc i))
  | OverallRating =>
      let '(ans, ans2, ans3, ans4, ans5) := in_answers i in
      ask_overall_rating_prompt (py_str ans) (py_str ans2) (py_str ans3)
        (py_str ans4) (py_str ans5) (in_present i) (in_missing i)
  | ExpectedEvidence =>
      ask_expected_evidence_prompt (py_str (in_control_desc i))
  end.

(** Runs an operation and names its results by the expected keys. *)
Definition run_operation (op : operation) (i : assessment_inputs)
  : M W (list (string * pyval)) :=
  match op with
  | Completeness =>
      '(pres, miss, sugg) <- ask_llm (in_control_desc i) ;;
      ret [("present", PStr pres); ("missing", PStr miss);
           ("suggestions", PStr sugg)]
  | ObjectiveFit =>
      '(ans, exp) <-
        ask_control_objective (in_risk_desc i) (in_control_desc i) ;;
      ret [("answer", ans); ("explanation", exp)]
  | ExecutionFit =>
      '(ans, exp) <-
        ask_execution_appropriateness (in_automation i) (in_risk_desc i)
          (in_control_desc i) ;;
      ret [("answer", ans); ("explanation", exp)]
  | TypeFit =>
      '(ans, exp) <-
        ask_type_adequacy (in_control_type i) (in_risk_desc i)
          (in_control_desc i) ;;
      ret [("answer", ans); ("explanation", exp)]
  | FrequencyFit =>
      '(ans, exp) <-
        ask_frequency_appropriateness (in_frequency i) (in_risk_desc i)
          (in_control_desc i) ;;
      ret [("answer", ans); ("explanation", exp)]
  | DependencyExtraction =>
      '(ans, _) <- ask_system_dependency (in_control_desc i) ;;
      ret [("systems", ans)]
  | SegregationOfDuties =>
      '(ans, exp) <- ask_adaptability (in_control_desc i) ;;
      ret [("answer", ans); ("explanation", exp)]
  | OverallRating =>
      let '(ans, ans2, ans3, ans4, ans5) := in_answers i in
      '(rating, exp) <-
        ask_overall_rating (overall_row ans ans2 ans3 ans4 ans5)
          (in_present i) (in_missing i) (in_adaptability i) ;;
      ret [("rating", rating); ("explanation", exp)]
  | ExpectedEvidence =>
      text <- ask_expected_evidence (in_control_desc i) ;;
      ret [("text", PStr text)]
  end.

End Pipeline.

(* ================================================================== *)
(** ** Sample services and sample data *)
(* ================================================================== *)

Module Sample.
Import Text.

(** A service whose reply depends on the request alone. *)
Definition replying (reply : request -> api_result) : Client unit :=
  {| create := fun r s => (reply r, s) |}.

(** A service that plays a script, one reply per request, and repeats
    [last] once the script is over. *)
Definition scripted (last : api_result) : Client (list api_result) :=
  {| create := fun _ script =>
                 match script with
                 | [] => (last, [])
                 | r :: rest => (r, rest)
                 end |}.

Definition start {S} (s : S) : World S := {| service := s; trace := [] |}.

(** Well-formed answers for every operation. *)
Definition helpful (r : request) : api_result :=
  if (req_system r =? "Respond only with the numbered list.")%string then
    Response [Some "1. Sign-off sheet"]
  else if contains "six key elements" (req_user r) then
    Response [Some (json' "json
{'present': {'Who': 'Manager'}, 'missing': {'When': 'No timeline'}, 'suggestions': {'When': 'Add one'}}")]
  else if contains "overall rating" (req_user r) then
    Response [Some (json' "{'rating': 'Effective', 'explanation': 'fine'}")]
  else if contains "systems or data sources" (req_user r) then
    Response [Some (json' "{'systems': 'SAP'}")]
  else Response [Some (json' "Sure! {'answer': 'Yes', 'explanation': 'ok'}")].

Definition always (res : api_result) : Client unit := replying (fun _ => res).

Definition cfg : Config := default_config (Some "sk-test").

(** The default settings with eight attempts instead of five. *)
Definition cfg8 : Config := {|
  INPUT_FILE := INPUT_FILE cfg; OUTPUT_FILE := OUTPUT_FILE cfg;
  ELEMENTS := ELEMENTS cfg; API_KEY := API_KEY cfg; BASE_URL := BASE_URL cfg;
  MODEL := MODEL cfg; SUPPORTED_MODELS := SUPPORTED_MODELS cfg;
  MAX_RETRIES := 8;
  RETRY_DELAY := RETRY_DELAY cfg; MAX_RETRY_DELAY := MAX_RETRY_DELAY cfg;
  REQUEST_TIMEOUT := REQUEST_TIMEOUT cfg; REQUIRED_COLS := REQUIRED_COLS cfg
|}.

(** The default settings with a negative delay, and with 1026 attempts:
    retry settings out of range. *)
Definition cfg_negative : Config := {|
  INPUT_FILE := INPUT_FILE cfg; OUTPUT_FILE := OUTPUT_FILE cfg;
  ELEMENTS := ELEMENTS cfg; API_KEY := API_KEY cfg; BASE_URL := BASE_URL cfg;
  MODEL := MODEL cfg; SUPPORTED_MODELS := SUPPORTED_MODELS cfg;
  MAX_RETRIES := MAX_RETRIES cfg;
  RETRY_DELAY := (-1)%Q; MAX_RETRY_DELAY := MAX_RETRY_DELAY cfg;
  REQUEST_TIMEOUT := REQUEST_TIMEOUT cfg; REQUIRED_COLS := REQUIRED_COLS cfg
|}.

Definition cfg1026 : Config := {|
  INPUT_FILE := INPUT_FILE cfg; OUTPUT_FILE := OUTPUT_FILE cfg;
  ELEMENTS := ELEMENTS cfg; API_KEY := API_KEY cfg; BASE_URL := BASE_URL cfg;
  MODEL := MODEL cfg; SUPPORTED_MODELS := SUPPORTED_MODELS cfg;
  MAX_RETRIES := 1026;
  RETRY_DELAY := RETRY_DELAY cfg; MAX_RETRY_DELAY := MAX_RETRY_DELAY cfg;
  REQUEST_TIMEOUT := REQUEST_TIMEOUT cfg; REQUIRED_COLS := REQUIRED_COLS cfg
|}.

(** A stand-in for [repr]; the samples interpolate strings only. *)
Definition repr (v : pyval) : string := "<" ++ type_name v ++ ">".

Definition one_control : DataFrame := {|
  nrows := 1;
  columns :=
    [("Risk", [PStr "R1"]);
     ("Risk Description", [PStr "Fraud"]);
     ("Control", [PStr "C1"]);
     ("Control Description", [PStr "Manager reviews reports"]);
     ("Automation", [PStr "Manual"]);
     ("Detective/ Preventive", [PStr "Detective"]);
     ("Operation Frequency", [PStr "Monthly"])]
|}.

Definition two_controls : DataFrame := {|
  nrows := 2;
  columns :=
    [("Risk", [PStr "R1"; PStr "R2"]);
     ("Risk Description", [PStr "Fraud"; PStr "Data loss"]);
     ("Control", [PStr "C1"; PStr "C2"]);
     ("Control Description",
      [PStr "Manager reviews reports"; PStr "Nightly backup to tape"]);
     ("Automation", [PStr "Manual"; PStr "Automated"]);
     ("Detective/ Preventive", [PStr "Detective"; PStr "Preventive"]);
     ("Operation Frequency", [PStr "Monthly"; PStr "Daily"])]
|}.

(** The inputs of the operations for the first sample control. *)
Definition inputs : assessment_inputs := {|
  in_risk_desc := PStr "Fraud";
  in_control_desc := PStr "Manager reviews reports";
  in_automation := PStr "Manual";
  in_control_type := PStr "Detective";
  in_frequency := PStr "Monthly";
  in_answers := (PStr "Yes", PStr "Yes", PStr "Yes", PStr "Yes", PStr "SAP");
  in_present := "• Who: Manager";
  in_missing := "• When: No timeline";
  in_adaptability := PStr "Yes"
|}.

(** A service that is down, one that rejects the key, and services that
    answer every request with the same text. *)
Definition timing_out : Client unit := always (ApiError "Request timed out.").
Definition rate_limited : Client unit :=
  always (ApiError "Error code: 429 - Too Many Requests").
Definition saying (text : string) : Client unit := always (Response [Some text]).

(** Answers that are objects, but not of the expected shape. *)
Definition only_answer : Client unit := saying (json' "{'answer': 'Yes'}").

Definition only_present : Client unit :=
  saying (json' "{'present': {'Who': 'Manager'}}").

Definition empty_object : Client unit := saying (json' "{}").

(** An answer with a JSON null under the key that is read. *)
Definition null_answer : Client unit :=
  saying (json' "{'answer': null, 'explanation': 'n/a'}").

(** Answers the operations cannot use: white space, an array, and an object
    whose [missing] section is an array. *)
Definition blank : Client unit := saying "   ".

Definition array_answer : Client unit := saying "[1, 2]".

Definition nothing_missing : Client unit :=
  saying (json' "{'present': {'Who': 'Manager'}, 'missing': []}").

(** A frame without the column of the descriptions. *)
Definition no_description : DataFrame := {|
  nrows := 2;
  columns :=
    [("Risk", [PStr "R1"; PStr "R2"]);
     ("Control", [PStr "C1"; PStr "C2"])]
|}.

(** The first sample control with a result of an earlier run. *)
Definition earlier_result : DataFrame := {|
  nrows := 1;
  columns := columns one_control ++ [(present_missing_col, [PStr "earlier"])]
|}.

End Sample.

(* ================================================================== *)
(** ** The vocabulary of the statements *)
(* ================================================================== *)

Section Facts.

Context {S : Type}.
(** The client, the settings, the decoder and [repr], whatever they are. *)
Variable client : Client S.
Variable Cfg : Config.
Variable loads : string -> option pyval.
Variable py_repr : pyval -> string.

Section Vocabulary.

#[local] Abbreviation W := (World S).
#[local] Abbreviation W' := (World S).
#[local] Abbreviation call := (make_llm_call_with_retry client Cfg).
#[local] Abbreviation extract := (@extract_json_from_response S loads).
#[local] Abbreviation run := (run_operation client Cfg loads py_repr).
#[local] Abbreviation prompt := (prompt_of Cfg py_repr).

(** A request that came back without a text. *)
Definition failed (c : request * api_result) : Prop :=
  exists e, first_content (snd c) = inr e.

(** What the executor returns, against the trace [t] of the call: a text
    is the text of the last event, the one response that succeeded; [None]
    means that no response succeeded. *)
Definition first_success_wins (r : request) (result : option string)
  (t : list event) : Prop :=
  match result with
  | Some text =>
      exists t0 res,
        t = (t0 ++ [ECall r res])%list
        /\ first_content res = inl text
        /\ Forall failed (calls_of t0)
  | None => Forall failed (calls_of t)
  end.

(** The request the executor sends for a prompt. *)
Definition request_of (prompt system_content : string) : request :=
  {| req_model := MODEL Cfg; req_system := system_content;
     req_user := prompt; req_max_tokens := None |}.

(** The executor gives no text to the operation. *)
Definition executor_fails (op : operation) (i : assessment_inputs) (w : W)
  : Prop :=
  exists raw w1,
    call (prompt op i) (system_content_of op) w = (Ok raw, w1)
    /\ no_text raw = true.

(** The executor gives a text and the parser reads [data] from it
    ([None]: the parser fails). *)
Definition parser_gives (op : operation) (i : assessment_inputs) (w : W)
  (data : option pyval) : Prop :=
  exists raw w1,
    call (prompt op i) (system_content_of op) w = (Ok raw, w1)
    /\ no_text raw = false
    /\ fst (extract (text_of raw) w1) = Ok data.

(** What an operation answers when it cannot obtain a value. *)
Definition failure_markers (op : operation) : list (string * pyval) :=
  match op with
  | Completeness =>
      [("present", PStr ""); ("missing", LLM_error); ("suggestions", PStr "")]
  | _ => map (fun k => (k, LLM_error)) (expected_keys op)
  end.

(** The shape the eight JSON operations share. *)
Definition json_operation {A} (p : string) (markers : A)
  (read : pyval -> M W A) : M W A :=
  raw_response <- call p default_system_content ;;
  if no_text raw_response then ret markers else
  data <- extract (text_of raw_response) ;;
  if no_data data then ret markers else read (value_of data).

(** What the two-key operations read from the parsed value. *)
Definition read_pair (k1 k2 : string) (data : pyval) : Res (pyval * pyval) :=
  match data with
  | PDict d => Ok (dict_get k1 LLM_error d, dict_get k2 LLM_error d)
  | _ => Raise (no_attribute data "get")
  end.

(** The last lines of the two-key operations. *)
Definition pair_reader (k1 k2 : string) (data : pyval) : M W (pyval * pyval) :=
  a <- py_get data k1 LLM_error ;;
  b <- py_get data k2 LLM_error ;;
  ret (a, b).

(** What Completeness reads from the parsed value. *)
Definition bullets (v : pyval) : string :=
  match v with
  | PDict items => Text.join Text.nl (map (bullet_line py_repr) items)
  | _ => ""
  end.

(** The last lines of [ask_llm]. *)
Definition completeness_reader (data : pyval) : M W (string * string * string) :=
  present <- py_get data "present" (PDict []) ;;
  missing <- py_get data "missing" (PDict []) ;;
  suggestions <- py_get data "suggestions" (PDict []) ;;
  present_items <- py_items present ;;
  missing_items <- py_items missing ;;
  suggestions_items <- py_items suggestions ;;
  ret (Text.join Text.nl (map (bullet_line py_repr) present_items),
       Text.join Text.nl (map (bullet_line py_repr) missing_items),
       Text.join Text.nl (map (bullet_line py_repr) suggestions_items)).

(** The last lines of [ask_system_dependency]. *)
Definition systems_reader (data : pyval) : M W (pyval * pyval) :=
  systems <- py_get data "systems" LLM_error ;;
  ret (systems, PStr "").

(** The executor gave no text, or the parser gave nothing that counts as
    data. *)
Definition degraded (p : string) (w : W) : Prop :=
  exists raw w1,
    call p default_system_content w = (Ok raw, w1)
    /\ (no_text raw = true
        \/ (no_text raw = false
            /\ exists data,
                 fst (extract (text_of raw) w1) = Ok data
                 /\ no_data data = true)).

(** The headers [process_controls] assigns, removes or renames. *)
Definition rewritten_columns : list string :=
  ["Present & Missing"; "Present"; "Missing"; "Source";
   "System/data dependencies: Explanation"] ++ map fst output_columns.

(** Where the column assignments stand at [df]: the lists in [done] are
    columns of the frame, and no header outside [gone] and [done] has been
    touched. *)
Definition assigned (L : Lists) (df0 df : DataFrame)
  (done : list (string * result_list)) (gone : list string) : Prop :=
  nrows df = nrows df0
  /\ (well_formed df0 -> well_formed df)
  /\ Forall (fun cl => In (fst cl, L (snd cl)) (columns df)) done
  /\ (forall c, ~ In c (gone ++ map fst done) -> column c df = column c df0).

Definition other_than (col : string) (done : list (string * result_list))
  : bool :=
  forallb (fun cl => negb (fst cl =? col)%string) done.

Definition renamed (old new : string) (done : list (string * result_list))
  : list (string * result_list) :=
  map (fun cl => if (fst cl =? old)%string then (new, snd cl) else cl) done.

(** From a state in [P], the computation ends with a value in a state in
    [Q], or raises in a state in [E]; it does not exit. *)
Definition triple {St A} (P : St -> Prop) (m : M St A)
  (Q : A -> St -> Prop) (E : St -> Prop) : Prop :=
  forall st, P st ->
    match m st with
    | (Ok a, st') => Q a st'
    | (Raise _, st') => E st'
    | (Exit _, _) => False
    end.

(** A computation that ends with a value or raises, whatever the state. *)
Definition no_exit {St A} (m : M St A) : Prop :=
  triple (fun _ => True) m (fun _ _ => True) (fun _ => True).

(** While a record is processed: the lists in [done] have received its
    entry, the others not yet. *)
Definition stage (done : result_list -> bool) (idx : nat) (st : Lists * W')
  : Prop :=
  forall l, length (fst st l) = if done l then Datatypes.S idx else idx.

(** Every list holds the entries of the records before [idx], and perhaps
    the entry of record [idx]. *)
Definition partly (idx : nat) (st : Lists * W') : Prop :=
  forall l, length (fst st l) = idx \/ length (fst st l) = Datatypes.S idx.

Definition filled (n : nat) (st : Lists * W') : Prop :=
  forall l, length (fst st l) = n.



Definition placeholder_key : string := "YOUR_OPENAI_API_KEY_HERE".

(** Position of the first [c] in the text. *)
Fixpoint first_index (c : ascii) (s : string) : option nat :=
  match s with
  | EmptyString => None
  | String d r =>
      if Ascii.eqb c d then Some 0 else option_map Datatypes.S (first_index c r)
  end.

(** Position of the last [c] in the text. *)
Fixpoint last_index (c : ascii) (s : string) : option nat :=
  match s with
  | EmptyString => None
  | String d r =>
      match last_index c r with
      | Some j => Some (Datatypes.S j)
      | None => if Ascii.eqb c d then Some 0 else None
      end
  end.

(** The text without a leading [json] marker, in any case, and trimmed
    when the marker was there. *)
Definition without_marker (raw : string) : string :=
  if Text.startswith (Text.lower raw) "json"
  then Text.strip (Text.drop 4 raw)
  else raw.

(** From the first opening brace to the last closing brace, when the one
    comes before the other; the whole text otherwise. *)
Definition brace_to_brace (s : string) : string :=
  match first_index "{" s, last_index "}" s with
  | Some i, Some j => if i <? j then Text.slice i (j - i + 1) s else s
  | _, _ => s
  end.

(** From states related by [R], the computation gives the same result and
    leaves states related by [R]. *)
Definition same_result {St A} (R : St -> St -> Prop) (m : M St A) : Prop :=
  forall s1 s2, R s1 s2 ->
    fst (m s1) = fst (m s2) /\ R (snd (m s1)) (snd (m s2)).

Definition any_world (w1 w2 : World S) : Prop := True.

Definition same_lists (s1 s2 : Lists * World S) : Prop := fst s1 = fst s2.

(** A service whose answer depends on the request alone. *)
Definition stateless : Prop :=
  exists reply : request -> api_result,
    forall r s, fst (create client r s) = reply r.

(** The computation only adds to the trace, and the requests it adds have
    a user prompt in [P]. *)
Definition sends_only {A} (P : string -> Prop) (m : M (World S) A) : Prop :=
  forall w, exists t,
    trace (snd (m w)) = (trace w ++ t)%list
    /\ Forall (fun c => P (req_user (fst c))) (calls_of t).

(** The seven operations that come before the overall rating, in the order
    of the loop, with what the overall rating takes from them. *)
Definition prerequisites (text risk automation control_type frequency : pyval)
  : M W (string * string * (pyval * pyval * pyval * pyval * pyval) * pyval) :=
  '(pres, miss, sugg) <- ask_llm client Cfg loads py_repr text ;;
  '(ans, exp) <- ask_control_objective client Cfg loads py_repr risk text ;;
  '(ans2, exp2) <-
    ask_execution_appropriateness client Cfg loads py_repr automation risk text ;;
  '(ans3, exp3) <-
    ask_type_adequacy client Cfg loads py_repr control_type risk text ;;
  '(ans4, exp4) <-
    ask_frequency_appropriateness client Cfg loads py_repr frequency risk text ;;
  '(ans5, exp5) <- ask_system_dependency client Cfg loads py_repr text ;;
  '(ans6, exp6) <- ask_adaptability client Cfg loads py_repr text ;;
  ret (pres, miss, (ans, ans2, ans3, ans4, ans5), ans6).

(** What [analyse_record] does once the overall rating has answered. *)
Definition after_overall_rating (df : DataFrame) (idx : nat)
  (control_name : pyval) (rating : pyval * pyval) : M (Lists * W) unit :=
  let '(ans7, exp7) := rating in
  append overall_rating_ans ans7 ;;
  append overall_rating_exp exp7 ;;
  control_desc <- row_item df idx "Control Description" ;;
  expected_evidence <-
    lift (ask_expected_evidence client Cfg py_repr control_desc) ;;
  append potential_evidence_list (PStr expected_evidence) ;;
  lift (log INFO "  ✓ Completed analysis for {}" [AVal control_name]).

(** The cell of a column at a row. *)
Definition cell (df : DataFrame) (idx : nat) (col : string) : option pyval :=
  match column col df with
  | Some cells => nth_error cells idx
  | None => None
  end.

(** The prompts of the seven operations, for a record. *)
Definition prerequisite_prompts (text risk automation control_type frequency : pyval)
  : list string :=
  let s := py_str py_repr in
  [ask_llm_prompt (ELEMENTS Cfg) (s text);
   ask_control_objective_prompt (s risk) (s text);
   ask_execution_appropriateness_prompt (s automation) (s risk) (s text);
   ask_type_adequacy_prompt (s control_type) (s risk) (s text);
   ask_frequency_appropriateness_prompt (s frequency) (s risk) (s text);
   ask_system_dependency_prompt (s text);
   ask_adaptability_prompt (s text)].

(** The service answers every request, in every state, with [res]. *)
Definition keeps_answering (res : api_result) : Prop :=
  forall r s, fst (create client r s) = res.

(** The pause after a failed attempt: capped after a rate limit, as it is
    after any other failure. *)
Definition capped_delay (attempt : nat) : Q :=
  Qmin (RETRY_DELAY Cfg * pow2 attempt) (MAX_RETRY_DELAY Cfg).

Definition plain_delay (attempt : nat) : Q :=
  (RETRY_DELAY Cfg * pow2 attempt)%Q.

(** The computation only adds to the trace: at most [n] requests and no
    frame handed over. *)
Definition spends {St A} (tr : St -> list event) (n : nat) (m : M St A)
  : Prop :=
  forall st, exists t,
    tr (snd (m st)) = (tr st ++ t)%list
    /\ length (calls_of t) <= n
    /\ saved_of t = [].

(** The column operations at the end of [process_controls], one by one in
    the order of the source. *)
Inductive column_step :=
| SetCol (col : string) (l : result_list)
| DelCol (col : string)
| RenameCol (old new : string).

Definition column_steps : list column_step :=
  [SetCol "Present & Missing" present_missing_list;
   DelCol "Present";
   DelCol "Missing";
   SetCol "Suggestions" suggestion_list;
   DelCol "Source";
   SetCol objective_col objective_ans;
   SetCol "Control objective: Explanation" objective_exp;
   SetCol execution_col exec_ans;
   SetCol "Execution appropriateness: Explanation" exec_exp;
   SetCol type_col type_ans;
   SetCol "Type adequacy: Explanation" type_exp;
   SetCol frequency_col freq_ans;
   SetCol "Frequency appropriateness: Explanation" freq_exp;
   SetCol sysdep_col sysdep_ans;
   SetCol adaptability_col adaptability_ans;
   SetCol "Adaptability: Explanation" adaptability_exp;
   SetCol "Overall Rating" overall_rating_ans;
   SetCol "Overall Rating: Explanation" overall_rating_exp;
   SetCol "Potential Evidences Expected Based on Control Description"
     potential_evidence_list;
   DelCol "System/data dependencies: Explanation";
   RenameCol "Present & Missing" present_missing_col].

(** [set_column] once the length of the values has been checked. *)
Definition assign (col : string) (values : list pyval) (df : DataFrame)
  : DataFrame :=
  {| nrows := nrows df;
     columns :=
       if has_column col df then
         map (fun c => if (fst c =? col)%string then (fst c, values) else c)
             (columns df)
       else columns df ++ [(col, values)] |}.

Definition run_step (L : Lists) (df : DataFrame) (s : column_step)
  : DataFrame :=
  match s with
  | SetCol col l => assign col (L l) df
  | DelCol col => del_if_present col df
  | RenameCol old new =>
      if has_column old df then rename_column old new df else df
  end.

(** A step as [process_controls] runs it: an assignment checks the length
    of the values. *)
Definition checked_step (L : Lists) (s : column_step) (df : DataFrame)
  : Res DataFrame :=
  match s with
  | SetCol col l => set_column col (L l) df
  | DelCol col => Ok (del_if_present col df)
  | RenameCol old new =>
      Ok (if has_column old df then rename_column old new df else df)
  end.

Fixpoint checked_steps (L : Lists) (steps : list column_step) (df : DataFrame)
  : Res DataFrame :=
  match steps with
  | [] => Ok df
  | s :: rest => and_then (checked_step L s df) (checked_steps L rest)
  end.

(** The headers a step names. *)
Definition touches (s : column_step) : list string :=
  match s with
  | SetCol col _ => [col]
  | DelCol col => [col]
  | RenameCol old new => [old; new]
  end.

(** Whether the header [c] is known to be absent after a step, given
    whether it was known to be absent before. *)
Definition absent_step (c : string) (absent : bool) (s : column_step) : bool :=
  match s with
  | SetCol col _ => absent && negb (c =? col)%string
  | DelCol col => absent || (c =? col)%string
  | RenameCol old new => (absent || (c =? old)%string) && negb (c =? new)%string
  end.

(** The cells under the first column whose header passes the test. *)
Fixpoint first_of (p : string -> bool) (cs : list (string * list pyval))
  : option (list pyval) :=
  match cs with
  | [] => None
  | (h, cells) :: r => if p h then Some cells else first_of p r
  end.

(** The headers [process_controls] removes from its result. *)
Definition dropped_columns : list string :=
  ["Present"; "Missing"; "Source"; "System/data dependencies: Explanation";
   "Present & Missing"].

(** From states related by [R], two computations give the same result and
    leave states related by [R]. *)
Definition alike {St A} (R : St -> St -> Prop) (m1 m2 : M St A) : Prop :=
  forall s1 s2, R s1 s2 ->
    fst (m1 s1) = fst (m2 s2) /\ R (snd (m1 s1)) (snd (m2 s2)).










(** The prompt of the overall rating, line by line, on the five answers
    and the present and missing text of Completeness. *)
Definition overall_rating_lines (ans ans2 ans3 ans4 ans5 : pyval)
  (present missing : string) : list string :=
  [""; 
   "Given the following analysis of a control, provide an overall rating as one of the following: Effective, Partially effective, In-effective. Consider all the information below:";
   "- Control objective: " ++ py_str py_repr ans;
   "- Execution appropriateness: " ++ py_str py_repr ans2;
   "- Type adequacy: " ++ py_str py_repr ans3;
   "- Frequency appropriateness: " ++ py_str py_repr ans4;
   "- System/data dependencies: " ++ py_str py_repr ans5;
   "- Present: " ++ present;
   "- Missing: " ++ missing;
   "";
   "Return a JSON object:";
   "{";
   Text.tpl "  `rating`: `Effective, Partially effective, or In-effective`,";
   Text.tpl "  `explanation`: `...`";
   "}";
   ""].

(** The settings with another list of supported models. *)
Definition with_supported_models (models : list string) (C : Config)
  : Config :=
  {| INPUT_FILE := INPUT_FILE C; OUTPUT_FILE := OUTPUT_FILE C;
     ELEMENTS := ELEMENTS C; API_KEY := API_KEY C; BASE_URL := BASE_URL C;
     MODEL := MODEL C; SUPPORTED_MODELS := models;
     MAX_RETRIES := MAX_RETRIES C; RETRY_DELAY := RETRY_DELAY C;
     MAX_RETRY_DELAY := MAX_RETRY_DELAY C;
     REQUEST_TIMEOUT := REQUEST_TIMEOUT C; REQUIRED_COLS := REQUIRED_COLS C |}.

(** Two worlds with the service in the same state, after the same requests
    and the same pauses. *)
Definition same_traffic (w1 w2 : World S) : Prop :=
  service w1 = service w2
  /\ calls_of (trace w1) = calls_of (trace w2)
  /\ sleeps_of (trace w1) = sleeps_of (trace w2).

(** What each list receives for a record when no request gets an answer. *)
Definition outage_entry (l : result_list) : pyval :=
  match l with
  | present_list | suggestion_list | sysdep_exp => PStr ""
  | present_missing_list =>
      PStr ("Present:" ++ Text.nl ++ "" ++ Text.nl ++ Text.nl
            ++ "Missing:" ++ Text.nl ++ "LLM error")
  | _ => LLM_error
  end.

(** While a record is processed without an answer: the lists in [done]
    have received its entry, the others not yet, all entries are those of
    [outage_entry], and [calls] requests have been sent since [w0]. *)
Definition outage_stage (w0 : World S) (calls : nat)
  (done : result_list -> bool) (idx : nat) (st : Lists * World S) : Prop :=
  (forall l,
     fst st l
     = repeat (outage_entry l) (if done l then Datatypes.S idx else idx))
  /\ exists t,
       trace (snd st) = (trace w0 ++ t)%list /\ length (calls_of t) = calls.

(** The requests a call of the executor sends when every response is the
    failure [e]: the whole budget when the failure is retried, one when it
    is not. *)
Definition attempts_made (e : string) : nat :=
  match classify e with
  | RateLimited | OtherError => MAX_RETRIES Cfg
  | Unauthorized | NotFound => Nat.min 1 (MAX_RETRIES Cfg)
  end.

(** The columns [analyse_record] reads. *)
Definition read_columns : list string :=
  ["Control Description"; "Risk Description"; "Automation";
   "Detective/ Preventive"; "Operation Frequency"].

(** None of the headers [analyse_record] reads is repeated in the frame
    (under a repeated header [row[col]] is not a cell but the Series of the
    cells under it, which [row_item] does not cover). *)
Definition read_once (df : DataFrame) : bool :=
  forallb (fun c => count_occ string_dec (headers df) c <=? 1) read_columns.

End Vocabulary.

(* ================================================================== *)
(** ** Facts about the executor and the operations *)
(* ================================================================== *)

Lemma calls_of_app (a b : list event) : calls_of (a ++ b) = (calls_of a ++ calls_of b)%list.
Proof. apply flat_map_app. Qed.

Lemma sleeps_of_app (a b : list event) : sleeps_of (a ++ b) = (sleeps_of a ++ sleeps_of b)%list.
Proof. apply flat_map_app. Qed.

Section ExecutorFacts.

Lemma first_success_wins_later r res e result t pre :
  first_content res = inr e ->
  calls_of pre = [(r, res)] ->
  first_success_wins r result t ->
  first_success_wins r result (pre ++ t).
Proof.
  intros Hres Hpre Hwin. destruct result as [text|]; simpl in *.
  - destruct Hwin as (t0 & res' & -> & Hok & Hall).
    exists (pre ++ t0)%list, res'. rewrite app_assoc. repeat split; auto.
    rewrite calls_of_app, Hpre. constructor; auto. exists e; auto.
  - rewrite calls_of_app, Hpre. constructor; auto. exists e; auto.
Qed.

Lemma accepted_in_clock d :
  accepted d = true ->
  Qle_bool (- sleep_limit) d && Qle_bool d sleep_limit = true.
Proof.
  unfold accepted. intros H. apply andb_true_iff in H as [H0 H1].
  rewrite H1, andb_true_r. apply Qle_bool_iff.
  apply Qle_bool_iff in H0. eapply Qle_trans; [|exact H0].
  vm_compute. discriminate.
Qed.

(** A pause that is accepted is taken. *)
Lemma sleep_accepted d (w : World S) :
  accepted d = true -> sleep d w = emit (ESleep d) w.
Proof.
  intros H. unfold sleep. rewrite (accepted_in_clock d H).
  unfold accepted in H. apply andb_true_iff in H as [-> _]. reflexivity.
Qed.

(** What a pause leaves: one more event and nothing raised, or nothing
    done and an error. *)
Lemma sleep_outcome d (w : World S) :
  sleep d w = emit (ESleep d) w \/ exists e, sleep d w = (Raise e, w).
Proof.
  unfold sleep.
  destruct (Qle_bool (- sleep_limit) d && Qle_bool d sleep_limit);
    [destruct (Qle_bool 0 d)|];
    first [left; reflexivity | right; eexists; reflexivity].
Qed.

Lemma backoff_outcome attempt (w : World S) :
  backoff Cfg attempt w = (Ok (RETRY_DELAY Cfg * pow2 attempt)%Q, w)
  \/ exists e, backoff Cfg attempt w = (Raise e, w).
Proof.
  unfold backoff. destruct (attempt <? float_exponents);
    first [left; reflexivity | right; eexists; reflexivity].
Qed.

Lemma backoff_in_range attempt (w : World S) :
  attempt < float_exponents ->
  backoff Cfg attempt w = (Ok (RETRY_DELAY Cfg * pow2 attempt)%Q, w).
Proof.
  intros H. unfold backoff.
  destruct (Nat.ltb_spec attempt float_exponents); [reflexivity | lia].
Qed.

(** What the settings in range give for an attempt within the budget. *)
Lemma settings_in_range_attempt attempt :
  settings_in_range Cfg = true ->
  attempt < MAX_RETRIES Cfg ->
  attempt < float_exponents
  /\ accepted (Qmin (RETRY_DELAY Cfg * pow2 attempt) (MAX_RETRY_DELAY Cfg)) = true
  /\ (attempt < MAX_RETRIES Cfg - 1 ->
      accepted (RETRY_DELAY Cfg * pow2 attempt) = true).
Proof.
  unfold settings_in_range. rewrite forallb_forall. intros H Hlt.
  specialize (H attempt). rewrite in_seq in H.
  assert (Hin : 0 <= attempt < 0 + MAX_RETRIES Cfg) by lia.
  apply H in Hin. apply andb_true_iff in Hin as [Hin Hplain].
  apply andb_true_iff in Hin as [Hexp Hcap].
  split; [apply Nat.ltb_lt, Hexp|]. split; [exact Hcap|].
  intros Hlast. apply orb_true_iff in Hplain as [Hle|Hok]; [|exact Hok].
  apply Nat.leb_le in Hle. lia.
Qed.

(** A failed attempt of the executor: the request, the warning, and what
    the [except] clause does for the failure. *)
Lemma llm_attempts_failed r n attempt (w : World S) res s1 e :
  create client r (service w) = (res, s1) ->
  first_content res = inr e ->
  llm_attempts client Cfg r (Datatypes.S n) attempt w
  = match classify e with
    | RateLimited =>
        delay <- backoff Cfg attempt ;;
        let wait_time := Qmin delay (MAX_RETRY_DELAY Cfg) in
        log INFO "Rate limit hit, waiting {}s before retry..." [ASeconds wait_time] ;;
        sleep wait_time ;;
        llm_attempts client Cfg r n (Datatypes.S attempt)
    | Unauthorized =>
        log ERROR "🚫 Authentication failed during LLM call" [] ;;
        ret None
    | NotFound =>
        log ERROR "🚫 Model or endpoint not found during LLM call" [] ;;
        ret None
    | OtherError =>
        if attempt <? MAX_RETRIES Cfg - 1 then
          wait_time <- backoff Cfg attempt ;;
          log INFO "Retrying LLM call in {}s..." [ASeconds wait_time] ;;
          sleep wait_time ;;
          llm_attempts client Cfg r n (Datatypes.S attempt)
        else
          log ERROR "All {} LLM call attempts failed" [ANat (MAX_RETRIES Cfg)] ;;
          llm_attempts client Cfg r n (Datatypes.S attempt)
    end
      {| service := s1;
         trace := trace w ++
           [ECall r res;
            ELog WARNING "LLM call attempt {} failed: {}"
              [ANat (attempt + 1); AStr e]] |}.
Proof.
  intros Hc Hres. cbn [llm_attempts].
  unfold bind at 1, chat_create. rewrite Hc, Hres.
  unfold bind at 1, log at 1, emit at 1. cbn [fst snd service trace].
  rewrite <- app_assoc. reflexivity.
Qed.

(** One failed attempt of the executor that is retried: the request, the
    two log lines and the pause, or the error of the product or of the
    pause. *)
Lemma llm_attempts_retry r n attempt (w : World S) res s1 e :
  create client r (service w) = (res, s1) ->
  first_content res = inr e ->
  classify e = RateLimited
  \/ (classify e = OtherError /\ attempt < MAX_RETRIES Cfg - 1) ->
  exists pre,
    calls_of pre = [(r, res)]
    /\ (llm_attempts client Cfg r (Datatypes.S n) attempt w
        = llm_attempts client Cfg r n (Datatypes.S attempt)
            {| service := s1; trace := trace w ++ pre |}
        \/ exists err,
             llm_attempts client Cfg r (Datatypes.S n) attempt w
             = (Raise err, {| service := s1; trace := trace w ++ pre |})).
Proof.
  intros Hc Hres Hcls. rewrite (llm_attempts_failed r n attempt w res s1 e Hc Hres).
  assert (Hlt : classify e = OtherError -> (attempt <? MAX_RETRIES Cfg - 1) = true).
  { intros Ho. destruct Hcls as [Hr | [_ Hlt]]; [congruence|].
    apply Nat.ltb_lt, Hlt. }
  assert (Hkind : classify e = RateLimited \/ classify e = OtherError)
    by tauto.
  clear Hcls.
  destruct Hkind as [Hk | Hk]; rewrite Hk; [|rewrite (Hlt Hk)]; clear Hlt;
    match goal with
    | |- exists pre, _ /\ (?A = _ \/ _) => remember A as run eqn:Hrun
    end;
    unfold bind, log in Hrun;
    match type of Hrun with
    | context [backoff Cfg attempt ?w1] =>
        destruct (backoff_outcome attempt w1) as [Hb | (err & Hb)];
        rewrite Hb in Hrun
    end;
    cbv beta iota zeta in Hrun;
    try (subst run; eexists; split; [|right; exists err; reflexivity];
         reflexivity);
    unfold emit at 1 in Hrun; cbn [fst snd service trace] in Hrun;
    match type of Hrun with
    | context [sleep ?d ?w1] =>
        destruct (sleep_outcome d w1) as [Hs | (err & Hs)]; rewrite Hs in Hrun
    end;
    unfold emit in Hrun; cbv beta iota zeta in Hrun;
    cbn [fst snd service trace] in Hrun;
    rewrite <- !app_assoc in Hrun; cbn [app] in Hrun; subst run;
    first [ eexists; split; [|right; exists err; reflexivity]; reflexivity
          | eexists; split; [|left; reflexivity]; reflexivity ].
Qed.

(** One failed attempt without a pause: the failures that end the call,
    and the last attempt of the budget, which only logs. *)
Lemma llm_attempts_no_pause r n attempt (w : World S) res s1 e :
  create client r (service w) = (res, s1) ->
  first_content res = inr e ->
  exists pre,
    calls_of pre = [(r, res)]
    /\ match classify e with
       | RateLimited => True
       | Unauthorized | NotFound =>
           llm_attempts client Cfg r (Datatypes.S n) attempt w
           = (Ok None, {| service := s1; trace := trace w ++ pre |})
       | OtherError =>
           attempt < MAX_RETRIES Cfg - 1
           \/ llm_attempts client Cfg r (Datatypes.S n) attempt w
              = llm_attempts client Cfg r n (Datatypes.S attempt)
                  {| service := s1; trace := trace w ++ pre |}
       end.
Proof.
  intros Hc Hres. rewrite (llm_attempts_failed r n attempt w res s1 e Hc Hres).
  destruct (classify e).
  - exists [ECall r res]. split; [reflexivity | exact I].
  - unfold bind, log, emit, ret. cbn [fst snd service trace].
    rewrite <- ?app_assoc. cbn [app]. eexists. split; [|reflexivity]. reflexivity.
  - unfold bind, log, emit, ret. cbn [fst snd service trace].
    rewrite <- ?app_assoc. cbn [app]. eexists. split; [|reflexivity]. reflexivity.
  - destruct (Nat.ltb_spec attempt (MAX_RETRIES Cfg - 1)).
    + exists [ECall r res]. split; [reflexivity | left; assumption].
    + unfold bind at 1, log at 1, emit at 1. cbn [fst snd service trace].
      rewrite <- ?app_assoc. cbn [app]. eexists. split; [|right; reflexivity].
      reflexivity.
Qed.

Lemma llm_attempts_spec (r : request) (remaining : nat) :
  forall attempt (w : World S),
  exists out s' t,
    llm_attempts client Cfg r remaining attempt w
      = (out, {| service := s'; trace := trace w ++ t |})
    /\ length (calls_of t) <= remaining
    /\ Forall (fun c => fst c = r) (calls_of t)
    /\ match out with
       | Ok result => first_success_wins r result t
       | Raise _ => Forall failed (calls_of t)
       | Exit _ => False
       end.
Proof.
  induction remaining as [|n IH]; intros attempt w.
  - exists (Ok None), (service w), []. simpl. rewrite app_nil_r. destruct w; simpl.
    split; [reflexivity|]. split; [lia|]. split; constructor.
  - destruct (create client r (service w)) as [res s1] eqn:Hc.
    destruct (first_content res) as [text|e] eqn:Hres.
    + cbn [llm_attempts]. unfold bind at 1, chat_create. rewrite Hc, Hres.
      exists (Ok (Some text)), s1, [ECall r res]. simpl.
      split; [reflexivity|]. split; [lia|]. split; [repeat constructor|].
      exists [], res. simpl. split; [reflexivity|]. split; [assumption|constructor].
    + assert (Hcont : forall pre,
                 calls_of pre = [(r, res)] ->
                 exists out s' t,
                   llm_attempts client Cfg r n (Datatypes.S attempt)
                     {| service := s1; trace := trace w ++ pre |}
                     = (out, {| service := s'; trace := trace w ++ t |})
                   /\ length (calls_of t) <= Datatypes.S n
                   /\ Forall (fun c => fst c = r) (calls_of t)
                   /\ match out with
                      | Ok result => first_success_wins r result t
                      | Raise _ => Forall failed (calls_of t)
                      | Exit _ => False
                      end).
      { intros pre Hpre.
        destruct (IH (Datatypes.S attempt) {| service := s1; trace := trace w ++ pre |})
          as (out & s' & t & Heq & Hlen & Hreq & Hwin).
        exists out, s', (pre ++ t)%list. rewrite Heq. cbn [trace].
        rewrite app_assoc.
        split; [reflexivity|]. rewrite calls_of_app, Hpre. simpl.
        split; [lia|]. split; [constructor; auto|].
        destruct out as [result|err|c]; [| |exact Hwin].
        - eapply first_success_wins_later; eauto.
        - constructor; [exists e; exact Hres | exact Hwin]. }
      assert (Hstop : forall pre (out : Res (option string)),
                 calls_of pre = [(r, res)] ->
                 out = Ok None \/ (exists err, out = Raise err) ->
                 exists out' s' t,
                   (out, {| service := s1; trace := trace w ++ pre |})
                     = (out', {| service := s'; trace := trace w ++ t |})
                   /\ length (calls_of t) <= Datatypes.S n
                   /\ Forall (fun c => fst c = r) (calls_of t)
                   /\ match out' with
                      | Ok result => first_success_wins r result t
                      | Raise _ => Forall failed (calls_of t)
                      | Exit _ => False
                      end).
      { intros pre out Hpre Hout. exists out, s1, pre. rewrite Hpre. simpl.
        split; [reflexivity|]. split; [lia|]. split; [repeat constructor|].
        destruct Hout as [-> | (err & ->)]; cbn [first_success_wins];
          rewrite ?Hpre; (constructor; [exists e; exact Hres | constructor]). }
      destruct (llm_attempts_no_pause r n attempt w res s1 e Hc Hres)
        as (pre0 & Hpre0 & Hno).
      destruct (classify e) eqn:Hcls.
      * destruct (llm_attempts_retry r n attempt w res s1 e Hc Hres)
          as (pre & Hpre & [-> | (err & ->)]); [left; exact Hcls | |].
        -- apply Hcont, Hpre.
        -- apply Hstop; [exact Hpre | right; eauto].
      * rewrite Hno. apply Hstop; [exact Hpre0 | left; reflexivity].
      * rewrite Hno. apply Hstop; [exact Hpre0 | left; reflexivity].
      * destruct Hno as [Hlt | ->]; [|apply Hcont, Hpre0].
        destruct (llm_attempts_retry r n attempt w res s1 e Hc Hres)
          as (pre & Hpre & [-> | (err & ->)]); [right; split; assumption | |].
        -- apply Hcont, Hpre.
        -- apply Hstop; [exact Hpre | right; eauto].
Qed.

End ExecutorFacts.

Section OperationFacts.

#[local] Abbreviation W := (World S).
#[local] Abbreviation call := (make_llm_call_with_retry client Cfg).
#[local] Abbreviation extract := (@extract_json_from_response S loads).
#[local] Abbreviation run := (run_operation client Cfg loads py_repr).
#[local] Abbreviation prompt := (prompt_of Cfg py_repr).

Lemma make_llm_call_with_retry_spec p system_content (w : W) :
  exists out s' t,
    call p system_content w
      = (out, {| service := s'; trace := trace w ++ t |})
    /\ length (calls_of t) <= MAX_RETRIES Cfg
    /\ Forall (fun c => fst c = request_of p system_content) (calls_of t)
    /\ match out with
       | Ok result => first_success_wins (request_of p system_content) result t
       | Raise _ => Forall failed (calls_of t)
       | Exit _ => False
       end.
Proof. apply llm_attempts_spec. Qed.



Lemma extract_json_from_response_spec raw (w : W) :
  exists data t,
    extract raw w = (Ok data, {| service := service w; trace := trace w ++ t |})
    /\ calls_of t = [].
Proof.
  unfold extract_json_from_response.
  match goal with |- context [loads ?x] => destruct (loads x) as [v|] end.
  - exists (Some v), []. rewrite app_nil_r. destruct w; split; reflexivity.
  - eexists None, [_]. split; reflexivity.
Qed.

Lemma json_operation_no_text {A} p (markers : A) read w raw w1 :
  call p default_system_content w = (Ok raw, w1) ->
  no_text raw = true ->
  json_operation p markers read w = (Ok markers, w1).
Proof.
  intros Hcall Hraw. unfold json_operation, bind. rewrite Hcall, Hraw.
  reflexivity.
Qed.

Lemma json_operation_data {A} p (markers : A) read w raw w1 data :
  call p default_system_content w = (Ok raw, w1) ->
  no_text raw = false ->
  fst (extract (text_of raw) w1) = Ok data ->
  exists w2,
    json_operation p markers read w
      = if no_data data then (Ok markers, w2) else read (value_of data) w2.
Proof.
  intros Hcall Hraw Hdata. unfold json_operation, bind. rewrite Hcall, Hraw.
  destruct (extract (text_of raw) w1) as [[d|e|c] w2]; simpl in *;
    try discriminate.
  injection Hdata as ->. exists w2. destruct (no_data data); reflexivity.
Qed.

Lemma pair_reader_run k1 k2 (data : pyval) (w : W) :
  pair_reader k1 k2 data w = (read_pair k1 k2 data, w).
Proof. destruct data; reflexivity. Qed.

Lemma ask_llm_shape text :
  ask_llm client Cfg loads py_repr text
  = json_operation (ask_llm_prompt (ELEMENTS Cfg) (py_str py_repr text))
      ("", "LLM error", "") completeness_reader.
Proof. reflexivity. Qed.

Lemma ask_control_objective_shape r c :
  ask_control_objective client Cfg loads py_repr r c
  = json_operation
      (ask_control_objective_prompt (py_str py_repr r) (py_str py_repr c))
      (LLM_error, LLM_error) (pair_reader "answer" "explanation").
Proof. reflexivity. Qed.

Lemma ask_execution_appropriateness_shape a r c :
  ask_execution_appropriateness client Cfg loads py_repr a r c
  = json_operation
      (ask_execution_appropriateness_prompt (py_str py_repr a)
         (py_str py_repr r) (py_str py_repr c))
      (LLM_error, LLM_error) (pair_reader "answer" "explanation").
Proof. reflexivity. Qed.

Lemma ask_type_adequacy_shape t r c :
  ask_type_adequacy client Cfg loads py_repr t r c
  = json_operation
      (ask_type_adequacy_prompt (py_str py_repr t) (py_str py_repr r)
         (py_str py_repr c))
      (LLM_error, LLM_error) (pair_reader "answer" "explanation").
Proof. reflexivity. Qed.

Lemma ask_frequency_appropriateness_shape f r c :
  ask_frequency_appropriateness client Cfg loads py_repr f r c
  = json_operation
      (ask_frequency_appropriateness_prompt (py_str py_repr f)
         (py_str py_repr r) (py_str py_repr c))
      (LLM_error, LLM_error) (pair_reader "answer" "explanation").
Proof. reflexivity. Qed.

Lemma ask_system_dependency_shape c :
  ask_system_dependency client Cfg loads py_repr c
  = json_operation (ask_system_dependency_prompt (py_str py_repr c))
      (LLM_error, PStr "") systems_reader.
Proof. reflexivity. Qed.

Lemma ask_adaptability_shape c :
  ask_adaptability client Cfg loads py_repr c
  = json_operation (ask_adaptability_prompt (py_str py_repr c))
      (LLM_error, LLM_error) (pair_reader "answer" "explanation").
Proof. reflexivity. Qed.

Lemma ask_overall_rating_shape ans ans2 ans3 ans4 ans5 pres miss ans6 :
  ask_overall_rating client Cfg loads py_repr
    (overall_row ans ans2 ans3 ans4 ans5) pres miss ans6
  = json_operation
      (ask_overall_rating_prompt (py_str py_repr ans) (py_str py_repr ans2)
         (py_str py_repr ans3) (py_str py_repr ans4) (py_str py_repr ans5)
         pres miss)
      (LLM_error, LLM_error) (pair_reader "rating" "explanation").
Proof. reflexivity. Qed.

(** Rewrites an operation into the shape it shares with the others. *)
Ltac op_shape :=
  rewrite ?ask_llm_shape, ?ask_control_objective_shape,
    ?ask_execution_appropriateness_shape, ?ask_type_adequacy_shape,
    ?ask_frequency_appropriateness_shape, ?ask_system_dependency_shape,
    ?ask_adaptability_shape, ?ask_overall_rating_shape.

Lemma json_operation_degraded {A} p (markers : A) read w :
  degraded p w ->
  exists w', json_operation p markers read w = (Ok markers, w').
Proof.
  intros (raw & w1 & Hcall & [Hraw | (Hraw & data & Hdata & Hno)]).
  - exists w1. eapply json_operation_no_text; eauto.
  - destruct (json_operation_data p markers read w raw w1 data Hcall Hraw Hdata)
      as (w2 & ->).
    rewrite Hno. eauto.
Qed.

Lemma run_operation_degraded op i w :
  op <> ExpectedEvidence ->
  degraded (prompt op i) w ->
  fst (run op i w) = Ok (failure_markers op).
Proof.
  intros Hop Hdeg.
  destruct op; try congruence; simpl in *;
    try (destruct (in_answers i) as [[[[ans ans2] ans3] ans4] ans5]);
    op_shape; unfold bind;
    match goal with
    | |- context [json_operation ?p ?m ?r w] =>
        destruct (json_operation_degraded p m r w Hdeg) as (w' & ->)
    end; reflexivity.
Qed.

Lemma executor_fails_degraded op i w :
  op <> ExpectedEvidence ->
  executor_fails op i w -> degraded (prompt op i) w.
Proof.
  intros Hop (raw & w1 & Hcall & Hraw). exists raw, w1.
  destruct op; try congruence; auto.
Qed.

Lemma parser_gives_degraded op i w data :
  op <> ExpectedEvidence ->
  parser_gives op i w data -> no_data data = true ->
  degraded (prompt op i) w.
Proof.
  intros Hop (raw & w1 & Hcall & Hraw & Hdata) Hno. exists raw, w1.
  destruct op; try congruence; split; auto; right; split; auto;
    exists data; auto.
Qed.

Lemma ask_expected_evidence_fails i w :
  executor_fails ExpectedEvidence i w ->
  fst (run ExpectedEvidence i w) = Ok (failure_markers ExpectedEvidence).
Proof.
  intros (raw & w1 & Hcall & Hraw). simpl in *.
  unfold ask_expected_evidence, bind. rewrite Hcall. simpl. rewrite Hraw.
  reflexivity.
Qed.

(** C3 (as amended).  When the executor gives no text, or (for the
    operations that parse one) the parser fails, an operation answers with
    its failure markers: "LLM error" under every expected key for every
    operation but Completeness, which answers "LLM error" under [missing]
    and the empty string under [present] and [suggestions]. *)
Theorem failure_markers_of_each_operation :
  forall op i (w : W),
    executor_fails op i w
    \/ (op <> ExpectedEvidence /\ parser_gives op i w None) ->
    fst (run op i w) = Ok (failure_markers op)
    /\ (op <> Completeness ->
        failure_markers op = map (fun k => (k, LLM_error)) (expected_keys op))
    /\ failure_markers Completeness
       = [("present", PStr ""); ("missing", LLM_error);
          ("suggestions", PStr "")].
Proof.
  intros op i w Hfail. split; [|split].
  - destruct Hfail as [Hexec | [Hop Hparse]].
    + destruct op;
        try (apply run_operation_degraded;
             [discriminate | apply executor_fails_degraded; [discriminate | exact Hexec]]).
      apply ask_expected_evidence_fails, Hexec.
    + apply run_operation_degraded; [exact Hop|].
      eapply parser_gives_degraded; eauto.
  - destruct op; intros Hop; try reflexivity. congruence.
  - reflexivity.
Qed.

(** C10.  A response that parses to the empty object is answered exactly as
    a response that does not parse: with the failure markers of the
    operation, for each of the eight operations that parse their response. *)
Theorem empty_object_is_treated_as_parse_failure :
  forall op i (w : W) data,
    op <> ExpectedEvidence ->
    parser_gives op i w data ->
    data = Some (PDict []) \/ data = None ->
    fst (run op i w) = Ok (failure_markers op).
Proof.
  intros op i w data Hop Hparse Hdata.
  apply run_operation_degraded; [exact Hop|].
  eapply parser_gives_degraded; eauto.
  destruct Hdata as [-> | ->]; reflexivity.
Qed.

Lemma run_operation_parsed op i w data :
  op <> ExpectedEvidence ->
  parser_gives op i w (Some data) ->
  truthy data = true ->
  exists w2,
    run op i w
    = match op with
      | Completeness =>
          ('(pres, miss, sugg) <- completeness_reader data ;;
           ret [("present", PStr pres); ("missing", PStr miss);
                ("suggestions", PStr sugg)]) w2
      | DependencyExtraction =>
          ('(ans, _) <- systems_reader data ;; ret [("systems", ans)]) w2
      | OverallRating =>
          ('(ans, exp) <- pair_reader "rating" "explanation" data ;;
           ret [("rating", ans); ("explanation", exp)]) w2
      | _ =>
          ('(ans, exp) <- pair_reader "answer" "explanation" data ;;
           ret [("answer", ans); ("explanation", exp)]) w2
      end.
Proof.
  intros Hop (raw & w1 & Hcall & Hraw & Hdata) Htrue.
  destruct op; try congruence; simpl in *;
    try (destruct (in_answers i) as [[[[ans ans2] ans3] ans4] ans5]);
    op_shape;
    match goal with
    | |- context [json_operation ?p ?m ?r] =>
        destruct (json_operation_data p m r w raw w1 (Some data) Hcall Hraw Hdata)
          as (w2 & Heq)
    end;
    exists w2; unfold bind at 1; rewrite Heq; simpl; rewrite Htrue; reflexivity.
Qed.

(** C4 (as amended).  When the response parses to a non-empty object, the
    operation succeeds and reads each expected key on its own: the value
    under the key or, when the key is absent, "LLM error" -- for every
    operation that parses its response but Completeness, where an absent
    key reads as the empty mapping and so as the empty string. *)
Theorem absent_keys_default_one_by_one :
  forall op i (w : W) d,
    op <> ExpectedEvidence ->
    parser_gives op i w (Some (PDict d)) ->
    d <> [] ->
    match op with
    | Completeness =>
        (forall k, In k (expected_keys op) ->
                   exists items, dict_get k (PDict []) d = PDict items) ->
        fst (run op i w)
        = Ok (map (fun k => (k, PStr (bullets (dict_get k (PDict []) d))))
                  (expected_keys op))
        /\ forall k, dict_find k d = None ->
                     bullets (dict_get k (PDict []) d) = ""
    | _ =>
        fst (run op i w)
        = Ok (map (fun k => (k, dict_get k LLM_error d)) (expected_keys op))
        /\ forall k, dict_find k d = None -> dict_get k LLM_error d = LLM_error
    end.
Proof.
  intros op i w d Hop Hparse Hd.
  assert (Htrue : truthy (PDict d) = true) by (destruct d; [congruence | reflexivity]).
  destruct (run_operation_parsed op i w (PDict d) Hop Hparse Htrue) as (w2 & Heq).
  assert (Hget : forall k default, dict_find k d = None -> dict_get k default d = default)
    by (intros k default Hk; unfold dict_get; rewrite Hk; reflexivity).
  destruct op; try congruence; rewrite Heq;
    try (split; [reflexivity | intros k Hk; apply Hget, Hk]).
  intros Hdicts. split.
  - destruct (Hdicts "present") as (ip & Hp); [simpl; auto|].
    destruct (Hdicts "missing") as (im & Hm); [simpl; auto|].
    destruct (Hdicts "suggestions") as (isg & Hs); [simpl; auto|].
    unfold completeness_reader, bind; simpl. rewrite Hp, Hm, Hs. reflexivity.
  - intros k Hk. rewrite (Hget k (PDict []) Hk). reflexivity.
Qed.

End OperationFacts.

(** The same rewriting, for use below. *)
Ltac shape_of_operation :=
  rewrite ?ask_llm_shape, ?ask_control_objective_shape,
    ?ask_execution_appropriateness_shape, ?ask_type_adequacy_shape,
    ?ask_frequency_appropriateness_shape, ?ask_system_dependency_shape,
    ?ask_adaptability_shape, ?ask_overall_rating_shape.

(* ================================================================== *)
(** ** Facts about the record processor *)
(* ================================================================== *)

(** *** Frames *)

Lemma set_column_ok col values df :
  length values = nrows df ->
  exists df',
    set_column col values df = Ok df'
    /\ nrows df' = nrows df
    /\ In (col, values) (columns df')
    /\ (well_formed df -> well_formed df')
    /\ (forall c v, c <> col -> In (c, v) (columns df) -> In (c, v) (columns df'))
    /\ (forall c, c <> col -> column c df' = column c df).
Proof.
  intros Hlen. unfold set_column. rewrite Hlen, Nat.eqb_refl.
  eexists. split; [reflexivity|]. simpl. split; [reflexivity|].
  unfold has_column, headers, well_formed, column; simpl.
  destruct (existsb (String.eqb col) (map fst (columns df))) eqn:Hhas.
  - split; [|split; [|split]].
    + apply existsb_exists in Hhas as (h & Hin & Heq).
      apply String.eqb_eq in Heq. subst h.
      apply in_map_iff in Hin as ([h cells] & Hh & Hin). simpl in Hh. subst h.
      apply in_map_iff. exists (col, cells). simpl. rewrite String.eqb_refl. auto.
    + intros Hwf. apply Forall_map. eapply Forall_impl; [|exact Hwf].
      intros [h cells] Hc; simpl in *. destruct (h =? col)%string; simpl; auto.
    + intros c v Hne Hin. apply in_map_iff. exists (c, v). simpl.
      destruct (String.eqb_spec c col); [congruence | auto].
    + intros c Hne. clear Hhas. induction (columns df) as [|[h cells] r IH]; simpl; auto.
      destruct (String.eqb_spec h col) as [->|Hh]; simpl.
      * destruct (String.eqb_spec col c); [congruence | apply IH].
      * destruct (h =? c)%string; auto.
  - split; [|split; [|split]].
    + apply in_or_app. right. simpl. auto.
    + intros Hwf. apply Forall_app. split; auto.
    + intros c v _ Hin. apply in_or_app. auto.
    + intros c Hne. clear Hhas. induction (columns df) as [|[h cells] r IH]; simpl.
      * destruct (String.eqb_spec col c); [congruence | reflexivity].
      * destruct (h =? c)%string; auto.
Qed.

Lemma del_if_present_spec col df :
  nrows (del_if_present col df) = nrows df
  /\ (well_formed df -> well_formed (del_if_present col df))
  /\ (forall c v, c <> col -> In (c, v) (columns df) ->
                  In (c, v) (columns (del_if_present col df)))
  /\ (forall c, c <> col -> column c (del_if_present col df) = column c df).
Proof.
  unfold del_if_present, well_formed, column; simpl.
  split; [reflexivity|]. split; [|split].
  - intros Hwf. apply Forall_forall. intros x Hx.
    apply filter_In in Hx as [Hx _]. rewrite Forall_forall in Hwf. auto.
  - intros c v Hne Hin. apply filter_In. split; auto. simpl.
    destruct (String.eqb_spec c col); [congruence | reflexivity].
  - intros c Hne. induction (columns df) as [|[h cells] r IH]; simpl; auto.
    destruct (String.eqb_spec h col) as [->|Hh]; simpl.
    + destruct (String.eqb_spec col c); [congruence | apply IH].
    + destruct (h =? c)%string; auto.
Qed.

Lemma rename_column_spec old new df :
  nrows (rename_column old new df) = nrows df
  /\ (well_formed df -> well_formed (rename_column old new df))
  /\ (forall v, In (old, v) (columns df) ->
                In (new, v) (columns (rename_column old new df)))
  /\ (forall c v, c <> old -> In (c, v) (columns df) ->
                  In (c, v) (columns (rename_column old new df)))
  /\ (forall c, c <> old -> c <> new ->
                column c (rename_column old new df) = column c df).
Proof.
  unfold rename_column, well_formed, column; simpl.
  split; [reflexivity|]. split; [|split; [|split]].
  - intros Hwf. apply Forall_map. eapply Forall_impl; [|exact Hwf].
    intros [h cells] Hc; simpl in *. destruct (h =? old)%string; simpl; auto.
  - intros v Hin. apply in_map_iff. exists (old, v). simpl.
    rewrite String.eqb_refl. auto.
  - intros c v Hne Hin. apply in_map_iff. exists (c, v). simpl.
    destruct (String.eqb_spec c old); [congruence | auto].
  - intros c Ho Hn. induction (columns df) as [|[h cells] r IH]; simpl; auto.
    destruct (String.eqb_spec h old) as [->|Hh]; simpl.
    + destruct (String.eqb_spec new c); [congruence|].
      destruct (String.eqb_spec old c); [congruence | apply IH].
    + destruct (h =? c)%string; auto.
Qed.

Section AssignedColumns.
Variable L : Lists.
Variable df0 : DataFrame.

#[local] Abbreviation assigned := (assigned L df0).

Lemma other_than_spec col done c l :
  other_than col done = true -> In (c, l) done -> c <> col.
Proof.
  unfold other_than. rewrite forallb_forall. intros H Hin.
  specialize (H _ Hin). simpl in H.
  destruct (String.eqb_spec c col); [discriminate | assumption].
Qed.

Lemma assigned_start : assigned df0 [] [].
Proof. repeat split; auto. Qed.

Lemma assigned_set df done gone col l :
  assigned df done gone ->
  length (L l) = nrows df0 ->
  other_than col done = true ->
  exists df',
    set_column col (L l) df = Ok df' /\ assigned df' ((col, l) :: done) gone.
Proof.
  intros (Hn & Hwf & Hdone & Hkeep) Hlen Hother.
  destruct (set_column_ok col (L l) df) as (df' & Heq & Hn' & Hin & Hwf' & Hmove & Hcol);
    [congruence|].
  exists df'. split; [exact Heq|]. split; [congruence|]. split; [auto|]. split.
  - constructor; [exact Hin|].
    rewrite Forall_forall in *. intros [c l'] Hc. simpl.
    apply Hmove; [eapply other_than_spec; eauto | apply (Hdone _ Hc)].
  - intros c Hc. rewrite Hcol, Hkeep; auto.
    + intros Hin'. apply Hc. apply in_app_or in Hin' as [?|?];
        apply in_or_app; simpl; auto.
    + intros ->. apply Hc. apply in_or_app. simpl. auto.
Qed.

Lemma assigned_del df done gone col :
  assigned df done gone ->
  other_than col done = true ->
  assigned (del_if_present col df) done (col :: gone).
Proof.
  intros (Hn & Hwf & Hdone & Hkeep) Hother.
  destruct (del_if_present_spec col df) as (Hn' & Hwf' & Hmove & Hcol).
  split; [congruence|]. split; [auto|]. split.
  - rewrite Forall_forall in *. intros [c l'] Hc. simpl.
    apply Hmove; [eapply other_than_spec; eauto | apply (Hdone _ Hc)].
  - intros c Hc. rewrite Hcol, Hkeep; auto.
    + intros Hin'. apply Hc. simpl. auto.
    + intros ->. apply Hc. simpl. auto.
Qed.

Lemma assigned_rename df done gone old new :
  assigned df done gone ->
  In old (map fst done) ->
  has_column old df = true
  /\ assigned (rename_column old new df) (renamed old new done) (old :: gone).
Proof.
  intros (Hn & Hwf & Hdone & Hkeep) Hold.
  destruct (rename_column_spec old new df) as (Hn' & Hwf' & Hren & Hmove & Hcol).
  split.
  - apply in_map_iff in Hold as ([c l] & Hc & Hin). simpl in Hc. subst c.
    rewrite Forall_forall in Hdone. specialize (Hdone _ Hin). simpl in Hdone.
    unfold has_column, headers. apply existsb_exists. exists old.
    split; [|apply String.eqb_refl].
    apply in_map_iff. exists (old, L l). auto.
  - split; [congruence|]. split; [auto|]. split.
    + unfold renamed. apply Forall_map. rewrite Forall_forall in *.
      intros [c l] Hc. specialize (Hdone _ Hc). simpl in *.
      destruct (String.eqb_spec c old) as [->|Hne]; simpl; auto.
    + intros c Hc. rewrite Hcol, Hkeep; auto.
      * intros Hin. apply Hc. simpl. right.
        apply in_app_or in Hin as [?|Hin]; apply in_or_app; auto. right.
        unfold renamed. rewrite map_map.
        apply in_map_iff in Hin as ([c' l] & Hc' & Hin). simpl in Hc'. subst c'.
        apply in_map_iff. exists (c, l). split; auto. simpl.
        destruct (String.eqb_spec c old) as [->|]; auto.
        exfalso. apply Hc. simpl. auto.
      * intros ->. apply Hc. simpl. auto.
      * intros ->. apply Hc. simpl. right. apply in_or_app. right.
        unfold renamed. rewrite map_map.
        apply in_map_iff in Hold as ([c' l] & Hc' & Hin). simpl in Hc'. subst c'.
        apply in_map_iff. exists (old, l). simpl. rewrite String.eqb_refl. auto.
Qed.

End AssignedColumns.

Lemma incl_by_eqb (a b : list string) :
  forallb (fun x => existsb (String.eqb x) b) a = true -> incl a b.
Proof.
  rewrite forallb_forall. intros H x Hx. specialize (H x Hx).
  apply existsb_exists in H as (y & Hy & Heq).
  apply String.eqb_eq in Heq. subst. exact Hy.
Qed.

(** One column assignment of [add_result_columns]. *)
Ltac set_step H Hlen :=
  let df' := fresh "df" in
  let Heq := fresh "Heq" in
  let H' := fresh "H" in
  match goal with
  | |- context [and_then (set_column ?col (?L ?l) ?d)] =>
      destruct (assigned_set L _ d _ _ col l H (Hlen l) eq_refl)
        as (df' & Heq & H');
      rewrite Heq; cbn [and_then fold_left]; clear Heq H
  end.

Lemma add_result_columns_spec (L : Lists) (df : DataFrame) :
  (forall l, length (L l) = nrows df) ->
  exists df',
    add_result_columns L df = Ok df'
    /\ nrows df' = nrows df
    /\ (well_formed df -> well_formed df')
    /\ (forall c l, In (c, l) output_columns -> In (c, L l) (columns df'))
    /\ (forall c, ~ In c rewritten_columns -> column c df' = column c df).
Proof.
  intros Hlen. unfold add_result_columns.
  pose proof (assigned_start L df) as H0.
  set_step H0 Hlen.
  apply assigned_del with (col := "Present") in H; [|reflexivity].
  apply assigned_del with (col := "Missing") in H; [|reflexivity].
  set_step H Hlen.
  apply assigned_del with (col := "Source") in H0; [|reflexivity].
  set_step H0 Hlen. set_step H Hlen. set_step H0 Hlen. set_step H Hlen.
  set_step H0 Hlen. set_step H Hlen. set_step H0 Hlen. set_step H Hlen.
  set_step H0 Hlen. set_step H Hlen. set_step H0 Hlen. set_step H Hlen.
  set_step H0 Hlen. set_step H Hlen.
  apply assigned_del with (col := "System/data dependencies: Explanation") in H0;
    [|reflexivity].
  eapply assigned_rename with (old := "Present & Missing") (new := present_missing_col)
    in H0 as [Hhas Hfin]; [|simpl; tauto].
  rewrite Hhas. eexists. split; [reflexivity|].
  destruct Hfin as (Hn & Hwf & Hdone & Hkeep).
  split; [exact Hn|]. split; [exact Hwf|]. split.
  - intros c l Hin. rewrite Forall_forall in Hdone.
    apply (Hdone (c, l)).
    revert Hin. unfold output_columns, renamed. cbn [map fst snd].
    simpl. intuition congruence.
  - intros c Hc. apply Hkeep. intros Hin. apply Hc. revert Hin.
    apply incl_by_eqb. vm_compute. reflexivity.
Qed.

(** *** Outcomes of computations *)

Lemma triple_ret {St A} (P : St -> Prop) (a : A) E :
  triple P (ret a) (fun _ => P) E.
Proof. intros st H. exact H. Qed.

Lemma triple_raise {St A} (P : St -> Prop) e (Q : A -> St -> Prop) :
  triple P (raise e) Q P.
Proof. intros st H. exact H. Qed.

Lemma triple_bind {St A B} (P : St -> Prop) (m : M St A) (k : A -> M St B)
  Q R E :
  triple P m Q E ->
  (forall a, triple (Q a) (k a) R E) ->
  triple P (bind m k) R E.
Proof.
  intros Hm Hk st HP. unfold bind. specialize (Hm st HP).
  destruct (m st) as [[a|e|c] st']; auto. apply Hk, Hm.
Qed.

Lemma triple_conseq {St A} (P P' : St -> Prop) (m : M St A)
  (Q Q' : A -> St -> Prop) (E E' : St -> Prop) :
  triple P' m Q' E' ->
  (forall st, P st -> P' st) ->
  (forall a st, Q' a st -> Q a st) ->
  (forall st, E' st -> E st) ->
  triple P m Q E.
Proof.
  intros Hm HP HQ HE st Hst. specialize (Hm st (HP st Hst)).
  destruct (m st) as [[a|e|c] st']; auto.
Qed.

Lemma triple_try {St A} (P : St -> Prop) (body : M St A) handler Q E1 E2 :
  triple P body Q E1 ->
  (forall e, triple E1 (handler e) Q E2) ->
  triple P (try_except body handler) Q E2.
Proof.
  intros Hb Hh st HP. unfold try_except. specialize (Hb st HP).
  destruct (body st) as [[a|e|c] st']; auto. apply Hh, Hb.
Qed.

Lemma no_exit_ret {St A} (a : A) : @no_exit St A (ret a).
Proof. intros st _. exact I. Qed.

Lemma no_exit_raise {St A} e : @no_exit St A (raise e).
Proof. intros st _. exact I. Qed.

Lemma no_exit_bind {St A B} (m : M St A) (k : A -> M St B) :
  no_exit m -> (forall a, no_exit (k a)) -> no_exit (bind m k).
Proof. intros Hm Hk. eapply triple_bind; [exact Hm | intros a; apply Hk]. Qed.

Section NoExit.

#[local] Abbreviation W := (World S).

Lemma no_exit_log l t a : no_exit (@log S l t a).
Proof. intros st _. exact I. Qed.

Lemma no_exit_call p sc : no_exit (make_llm_call_with_retry client Cfg p sc).
Proof.
  intros w _.
  destruct (make_llm_call_with_retry_spec p sc w)
    as (r & s' & t & -> & _ & _ & Hout).
  destruct r; [exact I | exact I | exact Hout].
Qed.

Lemma no_exit_extract raw : no_exit (@extract_json_from_response S loads raw).
Proof.
  intros w _.
  destruct (extract_json_from_response_spec raw w) as (d & t & -> & _).
  exact I.
Qed.

Lemma no_exit_py_get data k d : no_exit (@py_get W data k d).
Proof. intros w _. destruct data; exact I. Qed.

Lemma no_exit_py_items v : no_exit (@py_items W v).
Proof. intros w _. destruct v; exact I. Qed.

Lemma no_exit_json_operation {A} p (markers : A) read :
  (forall d, no_exit (read d)) ->
  no_exit (json_operation p markers read).
Proof.
  intros Hread. unfold json_operation.
  apply no_exit_bind; [apply no_exit_call|]. intros raw.
  destruct (no_text raw); [apply no_exit_ret|].
  apply no_exit_bind; [apply no_exit_extract|]. intros d.
  destruct (no_data d); [apply no_exit_ret | apply Hread].
Qed.

Lemma no_exit_pair_reader k1 k2 d : no_exit (pair_reader k1 k2 d).
Proof.
  unfold pair_reader.
  repeat (apply no_exit_bind; [apply no_exit_py_get | intros ?]).
  apply no_exit_ret.
Qed.

Lemma no_exit_systems_reader d : no_exit (systems_reader d).
Proof.
  unfold systems_reader.
  apply no_exit_bind; [apply no_exit_py_get | intros ?]. apply no_exit_ret.
Qed.

Lemma no_exit_completeness_reader d :
  no_exit (completeness_reader d).
Proof.
  unfold completeness_reader.
  repeat (apply no_exit_bind; [apply no_exit_py_get | intros ?]).
  repeat (apply no_exit_bind; [apply no_exit_py_items | intros ?]).
  apply no_exit_ret.
Qed.

Lemma no_exit_ask_expected_evidence c :
  no_exit (ask_expected_evidence client Cfg py_repr c).
Proof.
  unfold ask_expected_evidence.
  apply no_exit_bind; [apply no_exit_call | intros ?]. apply no_exit_ret.
Qed.

End NoExit.

(** Splits a bound tuple into its components. *)
Ltac open_tuple x :=
  match type of x with
  | (_ * _ * _)%type => destruct x as [[? ?] ?]
  | (_ * _)%type => destruct x as [? ?]
  | _ => idtac
  end.

Section RecordLoop.

#[local] Abbreviation W' := (World S).

Lemma stage_partly done idx st : stage done idx st -> partly idx st.
Proof. intros H l. specialize (H l). destruct (done l); auto. Qed.

Lemma stage_lift {A} done idx (m : M W' A) :
  no_exit m ->
  triple (stage done idx) (lift m) (fun _ => stage done idx) (partly idx).
Proof.
  intros Hm [L w] HP. unfold lift. simpl. specialize (Hm w I).
  destruct (m w) as [[a|e|c] w']; simpl; auto.
  apply (stage_partly done). exact HP.
Qed.

Lemma stage_row_item done idx df i col :
  triple (stage done idx) (@row_item (Lists * W') df i col)
         (fun _ => stage done idx) (partly idx).
Proof.
  intros st HP. unfold row_item.
  destruct (column col df) as [cells|]; [destruct (nth_error cells i)|];
    simpl; auto; apply (stage_partly done); exact HP.
Qed.

Lemma result_list_eqb_spec a b : reflect (a = b) (result_list_eqb a b).
Proof. destruct a, b; constructor; congruence. Qed.

Lemma stage_append done idx l v :
  done l = false ->
  triple (stage done idx) (@append S l v)
         (fun _ => stage (fun l' => result_list_eqb l l' || done l') idx)
         (partly idx).
Proof.
  intros Hl [L w] HP l'. simpl. specialize (HP l'). simpl in HP.
  destruct (result_list_eqb_spec l l') as [<-|Hne]; simpl; auto.
  rewrite length_app, HP, Hl. simpl. lia.
Qed.

Ltac stage_step :=
  first
    [ apply stage_row_item
    | apply stage_append; reflexivity
    | apply stage_lift;
      first
        [ apply no_exit_log
        | apply no_exit_ask_expected_evidence
        | shape_of_operation; apply no_exit_json_operation; intros ?;
          first [ apply no_exit_pair_reader | apply no_exit_systems_reader
                | apply no_exit_completeness_reader ] ] ].

Lemma analyse_record_stage df idx control_name :
  triple (stage (fun _ => false) idx)
         (analyse_record client Cfg loads py_repr df idx control_name)
         (fun _ => filled (Datatypes.S idx)) (partly idx).
Proof.
  unfold analyse_record.
  repeat (eapply triple_bind;
          [ stage_step
          | let x := fresh "x" in
            intros x;
            open_tuple x; cbv beta iota zeta ]).
  eapply triple_conseq.
  - stage_step.
  - intros st H. exact H.
  - intros ? st H l. specialize (H l). destruct l; exact H.
  - intros st H. exact H.
Qed.

(** The loop of the [except] clause over a list of distinct lists: each of
    them that is short of an entry receives the placeholder. *)
Lemma placeholders_loop idx (names : list result_list) :
  NoDup names ->
  forall (L : Lists) (w : W'),
  exists L',
    for_each names
      (fun lst =>
         n <- len lst ;;
         if n <=? idx then append lst Processing_error else ret tt) (L, w)
    = (Ok tt, (L', w))
    /\ forall l,
         length (L' l)
         = if existsb (result_list_eqb l) names && (length (L l) <=? idx)
           then Datatypes.S (length (L l)) else length (L l).
Proof.
  induction names as [|n names IH]; intros Hnd L w.
  - exists L. split; [reflexivity|]. intros l. reflexivity.
  - inversion Hnd as [|? ? Hn Hnd']; subst.
    cbn [for_each]. unfold bind at 1. unfold bind at 1. unfold len at 1.
    cbn [fst snd].
    set (L1 := fun l' : result_list =>
                 if result_list_eqb n l' then (L l' ++ [Processing_error])%list
                 else L l').
    assert (Hstep :
      (if length (L n) <=? idx then append n Processing_error else ret tt) (L, w)
      = (Ok tt, ((if length (L n) <=? idx then L1 else L), w))).
    { destruct (length (L n) <=? idx); reflexivity. }
    rewrite Hstep.
    destruct (IH Hnd' (if length (L n) <=? idx then L1 else L) w) as (L' & Heq & Hlen).
    exists L'. split; [exact Heq|]. intros l. rewrite Hlen. cbn [existsb].
    assert (Hnot : existsb (result_list_eqb n) names = false).
    { apply not_true_is_false. intros Hex.
      apply existsb_exists in Hex as (y & Hy & Heqb).
      destruct (result_list_eqb_spec n y); [subst; contradiction | discriminate]. }
    destruct (result_list_eqb_spec l n) as [->|Hne].
    + rewrite Hnot. cbn [orb andb].
      destruct (length (L n) <=? idx) eqn:Hle; [|reflexivity].
      unfold L1. destruct (result_list_eqb_spec n n); [|congruence].
      rewrite length_app. simpl. lia.
    + cbn [orb].
      destruct (length (L n) <=? idx); [|reflexivity]. unfold L1.
      destruct (result_list_eqb_spec n l); [congruence | reflexivity].
Qed.

Lemma all_result_lists_complete l :
  existsb (result_list_eqb l) all_result_lists = true.
Proof. destruct l; reflexivity. Qed.

Lemma all_result_lists_distinct : NoDup all_result_lists.
Proof.
  unfold all_result_lists.
  repeat (constructor; [simpl; intuition discriminate|]). constructor.
Qed.

Lemma fill_placeholders_fills idx control_name e :
  triple (partly idx) (@fill_placeholders S idx control_name e)
         (fun _ => filled (Datatypes.S idx)) (fun _ => False).
Proof.
  intros [L w] HP. unfold fill_placeholders, bind at 1, lift, log, emit.
  cbn [fst snd].
  match goal with
  | |- context [for_each _ _ (L, ?w1)] =>
      destruct (placeholders_loop idx all_result_lists all_result_lists_distinct L w1)
        as (L' & -> & Hlen)
  end.
  intros l. cbn [fst]. rewrite Hlen, all_result_lists_complete. cbn [andb].
  destruct (HP l) as [H|H]; cbn [fst] in H; rewrite H.
  - rewrite Nat.leb_refl. reflexivity.
  - destruct (Nat.leb_spec (Datatypes.S idx) idx); [lia | reflexivity].
Qed.

Lemma process_record_fills df total idx :
  triple (filled idx)
         (process_record client Cfg loads py_repr df total idx)
         (fun _ => filled (Datatypes.S idx)) (fun _ => False).
Proof.
  unfold process_record.
  eapply triple_bind with (Q := fun _ => stage (fun _ => false) idx).
  - intros [L w] HP l. apply HP.
  - intros ?. eapply triple_try.
    + apply analyse_record_stage.
    + apply fill_placeholders_fills.
Qed.

Lemma records_loop_fills df total n :
  forall start,
    triple (filled start)
           (for_each (seq start n)
              (process_record client Cfg loads py_repr df total))
           (fun _ => filled (start + n)) (fun _ => False).
Proof.
  induction n as [|n IH]; intros start; cbn [seq for_each].
  - intros st H. rewrite Nat.add_0_r. exact H.
  - eapply triple_bind; [apply process_record_fills|].
    intros ?. eapply triple_conseq; [apply IH | auto | | auto].
    intros ? st H l. rewrite (H l). lia.
Qed.

(** [process_controls] returns a frame: the one [add_result_columns] makes
    of lists that hold one entry per row. *)
Lemma process_controls_returns df (w : W') :
  exists L df' w',
    process_controls client Cfg loads py_repr df w = (Ok df', w')
    /\ (forall l, length (L l) = nrows df)
    /\ add_result_columns L df = Ok df'.
Proof.
  unfold process_controls, bind at 1, log, emit. cbn [fst snd].
  unfold bind at 1, with_lists.
  match goal with
  | |- context [for_each ?xs ?body (empty_lists, ?w1)] =>
      pose proof (records_loop_fills df (nrows df) (nrows df) 0 (empty_lists, w1)) as Hloop;
      destruct (for_each xs body (empty_lists, w1)) as [[[]|e|c] [L w2]]
  end;
    try (exfalso; apply Hloop; intros l; reflexivity).
  assert (HL : forall l, length (L l) = nrows df).
  { intros l. apply (Hloop (fun l => eq_refl)). }
  destruct (add_result_columns_spec L df HL) as (df' & Hadd & _).
  exists L, df'. unfold of_res, bind, ret. rewrite Hadd. simpl.
  eexists. split; [reflexivity|]. split; [exact HL | reflexivity].
Qed.

End RecordLoop.

Section ResultTable.






End ResultTable.

(* ================================================================== *)
(** ** Facts about the parser *)
(* ================================================================== *)

(** *** What the regular expression finds *)

Lemma star_then_char c s :
  Re.match_here [Re.AnyStar; Re.Lit c] s
  = option_map Datatypes.S (last_index c s).
Proof.
  induction s as [|d r IH].
  - reflexivity.
  - cbn [Re.match_here last_index] in *. rewrite IH.
    destruct (last_index c r); cbn [option_map]; [reflexivity|].
    destruct (Ascii.eqb c d); reflexivity.
Qed.

Lemma brace_here d r :
  Re.match_here BRACE_RE (String d r)
  = if Ascii.eqb "{" d
    then option_map (fun j => j + 2) (last_index "}" r)
    else None.
Proof.
  unfold BRACE_RE.
  change (Re.match_here (Re.Lit "{" :: [Re.AnyStar; Re.Lit "}"]) (String d r))
    with (if Ascii.eqb "{" d
          then option_map Datatypes.S (Re.match_here [Re.AnyStar; Re.Lit "}"] r)
          else None).
  rewrite star_then_char. destruct (Ascii.eqb "{" d); [|reflexivity].
  destruct (last_index "}" r); cbn [option_map]; [|reflexivity].
  f_equal. lia.
Qed.

Lemma search_without_closing s :
  last_index "}" s = None -> Re.search BRACE_RE s = None.
Proof.
  induction s as [|d r IH]; intros Hlast.
  - reflexivity.
  - cbn [last_index] in Hlast.
    destruct (last_index "}" r) eqn:Hr; [discriminate|].
    cbn [Re.search]. rewrite brace_here, Hr. cbn [option_map].
    rewrite (IH eq_refl). destruct (Ascii.eqb "{" d); reflexivity.
Qed.

Lemma search_brace s :
  Re.search BRACE_RE s
  = match first_index "{" s with
    | Some i =>
        match last_index "}" (Text.drop (Datatypes.S i) s) with
        | Some j => Some (i, j + 2)
        | None => None
        end
    | None => None
    end.
Proof.
  induction s as [|d r IH].
  - reflexivity.
  - cbn [Re.search first_index]. rewrite brace_here.
    destruct (Ascii.eqb "{" d).
    + cbn [Text.drop]. destruct (last_index "}" r) eqn:Hr; cbn [option_map].
      * reflexivity.
      * rewrite (search_without_closing r Hr). reflexivity.
    + rewrite IH. destruct (first_index "{" r) as [i|]; cbn [option_map];
        [|reflexivity].
      change (Text.drop (Datatypes.S (Datatypes.S i)) (String d r))
        with (Text.drop (Datatypes.S i) r).
      destruct (last_index "}" (Text.drop (Datatypes.S i) r)); reflexivity.
Qed.

Lemma last_index_drop c n :
  forall s,
    match last_index c (Text.drop n s) with
    | Some j => last_index c s = Some (n + j)
    | None => forall k, last_index c s = Some k -> k < n
    end.
Proof.
  induction n as [|n IH]; intros s.
  - cbn [Text.drop]. destruct s; cbn [Text.drop];
      destruct (last_index c _) eqn:H; auto; intros k Hk; congruence.
  - destruct s as [|d r].
    + cbn. intros k Hk. discriminate.
    + cbn [Text.drop]. specialize (IH r).
      destruct (last_index c (Text.drop n r)) as [j|].
      * cbn [last_index]. rewrite IH. reflexivity.
      * intros k Hk. cbn [last_index] in Hk.
        destruct (last_index c r) as [j|] eqn:Hr.
        -- injection Hk as <-. specialize (IH j eq_refl). lia.
        -- destruct (Ascii.eqb c d); [injection Hk as <-; lia | discriminate].
Qed.

Lemma brace_search_is_brace_to_brace s :
  match Re.search BRACE_RE s with
  | Some (start, len) => Text.slice start len s
  | None => s
  end = brace_to_brace s.
Proof.
  rewrite search_brace. unfold brace_to_brace.
  destruct (first_index "{" s) as [i|]; [|reflexivity].
  pose proof (last_index_drop "}" (Datatypes.S i) s) as H.
  destruct (last_index "}" (Text.drop (Datatypes.S i) s)) as [j|].
  - rewrite H. destruct (Nat.ltb_spec i (Datatypes.S i + j)); [|lia].
    f_equal. lia.
  - destruct (last_index "}" s) as [k|]; [|reflexivity].
    specialize (H k eq_refl).
    destruct (Nat.ltb_spec i k); [lia | reflexivity].
Qed.

Section Parser.

(** C7.  The parser takes the text without a leading [json] marker (any
    case; what follows the marker is trimmed), decodes the stretch from the
    first opening brace to the last closing brace or, when there is no such
    stretch, the whole of it, and returns what the decoder returns; it
    never raises, and returns [None] whenever the decoder rejects that
    text.  With the decoder of the standard library, the text [json], a
    line feed and an object with the key [a] and the value 1 gives that
    object. *)
Theorem parser_decodes_brace_to_brace :
  (forall raw (w : World S),
      fst (extract_json_from_response loads raw w)
      = Ok (loads (brace_to_brace (without_marker raw))))
  /\ (forall raw (w : World S),
        loads (brace_to_brace (without_marker raw)) = None ->
        fst (extract_json_from_response loads raw w) = Ok None)
  /\ (forall w : World S,
        fst (extract_json_from_response Json.loads
               ("json" ++ Text.nl ++ Text.json' "{'a':1}") w)
        = Ok (Some (PDict [("a", PInt 1)]))).
Proof.
  assert (Hgen : forall raw (w : World S),
             fst (extract_json_from_response loads raw w)
             = Ok (loads (brace_to_brace (without_marker raw)))).
  { intros raw w. unfold extract_json_from_response.
    fold (without_marker raw). rewrite brace_search_is_brace_to_brace.
    destruct (loads (brace_to_brace (without_marker raw))); reflexivity. }
  split; [exact Hgen|]. split.
  - intros raw w Hnone. rewrite Hgen, Hnone. reflexivity.
  - intros w. unfold extract_json_from_response.
    match goal with
    | |- context [Json.loads ?x] =>
        replace (Json.loads x) with (Some (PDict [("a", PInt 1)]))
          by (vm_compute; reflexivity)
    end.
    reflexivity.
Qed.

End Parser.

(* ================================================================== *)
(** ** Determinism *)
(* ================================================================== *)

(** *** Rules for [same_result] *)

Lemma same_ret {St A} (R : St -> St -> Prop) (a : A) : same_result R (ret a).
Proof. intros s1 s2 H. split; [reflexivity | exact H]. Qed.

Lemma same_raise {St A} (R : St -> St -> Prop) e : same_result R (@raise St A e).
Proof. intros s1 s2 H. split; [reflexivity | exact H]. Qed.

Lemma same_of_res {St A} (R : St -> St -> Prop) (r : Res A) :
  same_result R (@of_res St A r).
Proof. intros s1 s2 H. split; [reflexivity | exact H]. Qed.

Lemma same_bind {St A B} (R : St -> St -> Prop) (m : M St A) (k : A -> M St B) :
  same_result R m -> (forall a, same_result R (k a)) ->
  same_result R (bind m k).
Proof.
  intros Hm Hk s1 s2 H. unfold bind. destruct (Hm s1 s2 H) as [Hfst Hsnd].
  destruct (m s1) as [r1 t1], (m s2) as [r2 t2]. simpl in *. subst r2.
  destruct r1 as [a|e|c]; [apply Hk; exact Hsnd | |]; split; auto.
Qed.

Lemma same_try {St A} (R : St -> St -> Prop) (body : M St A) handler :
  same_result R body -> (forall e, same_result R (handler e)) ->
  same_result R (try_except body handler).
Proof.
  intros Hb Hh s1 s2 H. unfold try_except. destruct (Hb s1 s2 H) as [Hfst Hsnd].
  destruct (body s1) as [r1 t1], (body s2) as [r2 t2]. simpl in *. subst r2.
  destruct r1 as [a|e|c]; [|apply Hh; exact Hsnd|]; split; auto.
Qed.

Lemma same_for_each {St A} (R : St -> St -> Prop) (xs : list A) body :
  (forall x, same_result R (body x)) -> same_result R (for_each xs body).
Proof.
  intros Hb. induction xs as [|x xs IH]; cbn [for_each].
  - apply same_ret.
  - apply same_bind; [apply Hb | intros _; exact IH].
Qed.

Section Determinism.
Hypothesis client_stateless : stateless.

#[local] Abbreviation W := (World S).

Lemma same_log l t a : same_result any_world (@log S l t a).
Proof. intros s1 s2 _. split; [reflexivity | exact I]. Qed.

Lemma same_emit e : same_result any_world (@emit S e).
Proof. intros s1 s2 _. split; [reflexivity | exact I]. Qed.

Lemma same_sleep d : same_result any_world (@sleep S d).
Proof.
  unfold sleep.
  destruct (Qle_bool (- sleep_limit) d && Qle_bool d sleep_limit);
    [destruct (Qle_bool 0 d)|];
    intros s1 s2 _; split; first [reflexivity | exact I].
Qed.

Lemma same_backoff attempt : same_result any_world (@backoff S Cfg attempt).
Proof.
  unfold backoff. destruct (attempt <? float_exponents);
    intros s1 s2 _; split; first [reflexivity | exact I].
Qed.

Lemma same_chat_create r : same_result any_world (chat_create client r).
Proof.
  destruct client_stateless as (reply & Hreply).
  intros s1 s2 _. unfold chat_create.
  pose proof (Hreply r (service s1)) as H1.
  pose proof (Hreply r (service s2)) as H2.
  destruct (create client r (service s1)), (create client r (service s2)).
  simpl in *. subst. split; [reflexivity | exact I].
Qed.

Ltac same_step :=
  first
    [ apply same_ret | apply same_raise | apply same_of_res
    | apply same_log | apply same_emit | apply same_sleep
    | apply same_backoff | apply same_chat_create
    | apply same_bind; [|intros ?]
    | match goal with
      | |- same_result _ (match ?x with _ => _ end) => destruct x
      end ].

Lemma same_llm_attempts r remaining :
  forall attempt, same_result any_world (llm_attempts client Cfg r remaining attempt).
Proof.
  induction remaining as [|n IH]; intros attempt; cbn [llm_attempts].
  - apply same_ret.
  - repeat first [apply IH | same_step].
Qed.

Lemma same_call p sc :
  same_result any_world (make_llm_call_with_retry client Cfg p sc).
Proof. apply same_llm_attempts. Qed.

Lemma same_extract raw :
  same_result any_world (@extract_json_from_response S loads raw).
Proof. unfold extract_json_from_response. repeat same_step. Qed.

Lemma same_py_get data k d : same_result any_world (@py_get W data k d).
Proof. unfold py_get. repeat same_step. Qed.

Lemma same_py_items v : same_result any_world (@py_items W v).
Proof. unfold py_items. repeat same_step. Qed.

Lemma same_dict_item row k : same_result any_world (@dict_item W row k).
Proof. unfold dict_item. repeat same_step. Qed.

Ltac same_op :=
  repeat first
    [ apply same_call | apply same_extract | apply same_py_get
    | apply same_py_items | apply same_dict_item | same_step ].

Lemma same_ask_llm text :
  same_result any_world (ask_llm client Cfg loads py_repr text).
Proof. unfold ask_llm. same_op. Qed.

Lemma same_ask_control_objective r c :
  same_result any_world (ask_control_objective client Cfg loads py_repr r c).
Proof. unfold ask_control_objective. same_op. Qed.

Lemma same_ask_execution_appropriateness a r c :
  same_result any_world
    (ask_execution_appropriateness client Cfg loads py_repr a r c).
Proof. unfold ask_execution_appropriateness. same_op. Qed.

Lemma same_ask_type_adequacy t r c :
  same_result any_world (ask_type_adequacy client Cfg loads py_repr t r c).
Proof. unfold ask_type_adequacy. same_op. Qed.

Lemma same_ask_frequency_appropriateness f r c :
  same_result any_world
    (ask_frequency_appropriateness client Cfg loads py_repr f r c).
Proof. unfold ask_frequency_appropriateness. same_op. Qed.

Lemma same_ask_system_dependency c :
  same_result any_world (ask_system_dependency client Cfg loads py_repr c).
Proof. unfold ask_system_dependency. same_op. Qed.

Lemma same_ask_adaptability c :
  same_result any_world (ask_adaptability client Cfg loads py_repr c).
Proof. unfold ask_adaptability. same_op. Qed.

Lemma same_ask_overall_rating row p m a :
  same_result any_world (ask_overall_rating client Cfg loads py_repr row p m a).
Proof. unfold ask_overall_rating. same_op. Qed.

Lemma same_ask_expected_evidence c :
  same_result any_world (ask_expected_evidence client Cfg py_repr c).
Proof. unfold ask_expected_evidence. same_op. Qed.

Lemma same_lift {A} (m : M W A) :
  same_result any_world m -> same_result same_lists (lift m).
Proof.
  intros Hm [L1 w1] [L2 w2] HL. unfold same_lists in *. simpl in HL. subst L2.
  unfold lift. cbn [fst snd]. destruct (Hm w1 w2 I) as [Hfst _].
  destruct (m w1), (m w2). simpl in *. subst. split; reflexivity.
Qed.

Lemma same_append l v : same_result same_lists (@append S l v).
Proof.
  intros [L1 w1] [L2 w2] HL. unfold same_lists in *. simpl in *. subst L2.
  split; reflexivity.
Qed.

Lemma same_len l : same_result same_lists (@len S l).
Proof.
  intros [L1 w1] [L2 w2] HL. unfold same_lists in *. simpl in *. subst L2.
  split; reflexivity.
Qed.

Lemma same_row_item df idx col :
  same_result same_lists (@row_item (Lists * W) df idx col).
Proof.
  unfold row_item.
  destruct (column col df) as [cells|]; [destruct (nth_error cells idx)|];
    first [apply same_ret | apply same_raise].
Qed.

Ltac same_lifted :=
  lazymatch goal with
  | |- same_result _ (log _ _ _) => apply same_log
  | |- same_result _ (ask_llm _ _ _ _ _) => apply same_ask_llm
  | |- same_result _ (ask_control_objective _ _ _ _ _ _) =>
      apply same_ask_control_objective
  | |- same_result _ (ask_execution_appropriateness _ _ _ _ _ _ _) =>
      apply same_ask_execution_appropriateness
  | |- same_result _ (ask_type_adequacy _ _ _ _ _ _ _) =>
      apply same_ask_type_adequacy
  | |- same_result _ (ask_frequency_appropriateness _ _ _ _ _ _ _) =>
      apply same_ask_frequency_appropriateness
  | |- same_result _ (ask_system_dependency _ _ _ _ _) =>
      apply same_ask_system_dependency
  | |- same_result _ (ask_adaptability _ _ _ _ _) => apply same_ask_adaptability
  | |- same_result _ (ask_overall_rating _ _ _ _ _ _ _ _) =>
      apply same_ask_overall_rating
  | |- same_result _ (ask_expected_evidence _ _ _ _) =>
      apply same_ask_expected_evidence
  end.

Ltac same_record :=
  repeat
    lazymatch goal with
    | |- same_result _ (row_item _ _ _) => apply same_row_item
    | |- same_result _ (append _ _) => apply same_append
    | |- same_result _ (len _) => apply same_len
    | |- same_result _ (lift _) => apply same_lift; same_lifted
    | |- same_result _ (ret _) => apply same_ret
    | |- same_result _ (bind _ _) =>
        apply same_bind;
        [|let x := fresh "x" in intros x; open_tuple x; cbv beta iota zeta]
    | |- same_result _ (for_each _ _) => apply same_for_each; intros ?
    | |- same_result _ (if ?c then _ else _) => destruct c
    end.

Lemma same_process_record df total idx :
  same_result same_lists (process_record client Cfg loads py_repr df total idx).
Proof.
  unfold process_record. apply same_bind; [same_record | intros ?].
  apply same_try.
  - unfold analyse_record. same_record.
  - intros e. unfold fill_placeholders. same_record.
Qed.

Lemma same_with_lists {A} (m : M (Lists * W) A) :
  same_result same_lists m -> same_result any_world (with_lists m).
Proof.
  intros Hm w1 w2 _. unfold with_lists.
  destruct (Hm (empty_lists, w1) (empty_lists, w2) eq_refl) as [Hfst Hsnd].
  destruct (m (empty_lists, w1)) as [r1 [L1 v1]],
           (m (empty_lists, w2)) as [r2 [L2 v2]].
  unfold same_lists in Hsnd. simpl in *. subst.
  destruct r2; split; reflexivity || exact I.
Qed.

Lemma same_process_controls df :
  same_result any_world (process_controls client Cfg loads py_repr df).
Proof.
  unfold process_controls.
  apply same_bind; [apply same_log | intros ?].
  apply same_bind.
  - apply same_with_lists, same_for_each. intros idx. apply same_process_record.
  - intros [u L]. repeat same_step.
Qed.

(** C9.  With a service whose answer depends on the request alone, the
    result of [process_controls] on a frame is the same from any state of
    the world; so a second run on the same frame, in the state the first
    run left, returns the table the first run returned. *)
Theorem process_controls_twice_same_table :
  forall df (w : W),
    (forall w', fst (process_controls client Cfg loads py_repr df w')
                = fst (process_controls client Cfg loads py_repr df w))
    /\ let first_run := process_controls client Cfg loads py_repr df w in
       let second_run :=
         process_controls client Cfg loads py_repr df (snd first_run) in
       fst second_run = fst first_run.
Proof.
  intros df w.
  assert (H : forall w', fst (process_controls client Cfg loads py_repr df w')
                         = fst (process_controls client Cfg loads py_repr df w)).
  { intros w'. apply (same_process_controls df w' w I). }
  split; [exact H | apply H].
Qed.

End Determinism.

(* ================================================================== *)
(** ** Order of the operations *)
(* ================================================================== *)

(** *** Rules for [sends_only] *)

Lemma sends_only_weaken {A} (P Q : string -> Prop) (m : M (World S) A) :
  (forall u, P u -> Q u) -> sends_only P m -> sends_only Q m.
Proof.
  intros HPQ Hm w. destruct (Hm w) as (t & Ht & Hall). exists t.
  split; [exact Ht|]. eapply Forall_impl; [|exact Hall]. intros c; apply HPQ.
Qed.

Lemma sends_only_ret {A} P (a : A) : @sends_only A P (ret a).
Proof.
  intros w. exists (@nil event). cbn [snd ret raise calls_of flat_map].
  rewrite app_nil_r. split; [reflexivity | constructor].
Qed.

Lemma sends_only_raise {A} P (e : exn) :
  sends_only P (@raise (World S) A e).
Proof.
  intros w. exists (@nil event). cbn [snd ret raise calls_of flat_map].
  rewrite app_nil_r. split; [reflexivity | constructor].
Qed.

Lemma sends_only_bind {A B} P (m : M (World S) A) (k : A -> M (World S) B) :
  sends_only P m -> (forall a, sends_only P (k a)) -> sends_only P (bind m k).
Proof.
  intros Hm Hk w. unfold bind. destruct (Hm w) as (t & Ht & Hall).
  destruct (m w) as [[a|e|c] w1]; cbn [snd] in *.
  - destruct (Hk a w1) as (t' & Ht' & Hall'). exists (t ++ t')%list.
    rewrite Ht', Ht, app_assoc. split; [reflexivity|].
    rewrite calls_of_app. apply Forall_app. auto.
  - exists t. auto.
  - exists t. auto.
Qed.

Section Order.

#[local] Abbreviation W := (World S).

Lemma sends_only_call p sc :
  sends_only (eq p) (make_llm_call_with_retry client Cfg p sc).
Proof.
  intros w.
  destruct (make_llm_call_with_retry_spec p sc w)
    as (r & s' & t & -> & _ & Hreq & _).
  exists t. split; [reflexivity|]. eapply Forall_impl; [|exact Hreq].
  intros c ->. reflexivity.
Qed.

Lemma sends_only_extract P raw :
  sends_only P (@extract_json_from_response S loads raw).
Proof.
  intros w.
  destruct (extract_json_from_response_spec raw w) as (d & t & -> & Hno).
  exists t. split; [reflexivity|]. rewrite Hno. constructor.
Qed.

Lemma sends_only_py_get P data k d : sends_only P (@py_get W data k d).
Proof. destruct data; first [apply sends_only_ret | apply sends_only_raise]. Qed.

Lemma sends_only_py_items P v : sends_only P (@py_items W v).
Proof. destruct v; first [apply sends_only_ret | apply sends_only_raise]. Qed.

Lemma sends_only_json_operation {A} p (markers : A) read :
  (forall d, sends_only (eq p) (read d)) ->
  sends_only (eq p) (json_operation p markers read).
Proof.
  intros Hread. unfold json_operation.
  apply sends_only_bind; [apply sends_only_call | intros raw].
  destruct (no_text raw); [apply sends_only_ret|].
  apply sends_only_bind; [apply sends_only_extract | intros d].
  destruct (no_data d); [apply sends_only_ret | apply Hread].
Qed.

Lemma sends_only_pair_reader P k1 k2 d : sends_only P (pair_reader k1 k2 d).
Proof.
  unfold pair_reader.
  repeat (apply sends_only_bind; [apply sends_only_py_get | intros ?]).
  apply sends_only_ret.
Qed.

Lemma sends_only_systems_reader P d : sends_only P (systems_reader d).
Proof.
  unfold systems_reader.
  apply sends_only_bind; [apply sends_only_py_get | intros ?].
  apply sends_only_ret.
Qed.

Lemma sends_only_completeness_reader P d :
  sends_only P (completeness_reader d).
Proof.
  unfold completeness_reader.
  repeat (apply sends_only_bind; [apply sends_only_py_get | intros ?]).
  repeat (apply sends_only_bind; [apply sends_only_py_items | intros ?]).
  apply sends_only_ret.
Qed.

Lemma row_item_cell {St} df idx col v :
  cell df idx col = Some v -> @row_item St df idx col = ret v.
Proof.
  unfold cell, row_item. intros H.
  destruct (column col df) as [cells|]; [|discriminate].
  rewrite H. reflexivity.
Qed.

Ltac sends_json :=
  shape_of_operation; eapply sends_only_weaken;
  [ | apply sends_only_json_operation; intros ?;
      first [ apply sends_only_pair_reader | apply sends_only_systems_reader
            | apply sends_only_completeness_reader ] ];
  intros ? <-; simpl; tauto.

Lemma sends_only_prerequisites text risk automation control_type frequency :
  sends_only
    (fun u => In u (prerequisite_prompts text risk automation control_type frequency))
    (prerequisites text risk automation control_type frequency).
Proof.
  unfold prerequisites.
  repeat (apply sends_only_bind;
          [ sends_json
          | let x := fresh "x" in intros x; open_tuple x; cbv beta iota zeta ]).
  apply sends_only_ret.
Qed.

Lemma no_exit_ask_llm text :
  no_exit (ask_llm client Cfg loads py_repr text).
Proof.
  shape_of_operation. apply no_exit_json_operation. intros ?.
  apply no_exit_completeness_reader.
Qed.

Lemma no_exit_ask_control_objective r c :
  no_exit (ask_control_objective client Cfg loads py_repr r c).
Proof.
  shape_of_operation. apply no_exit_json_operation. intros ?.
  apply no_exit_pair_reader.
Qed.

Lemma no_exit_ask_execution_appropriateness a r c :
  no_exit (ask_execution_appropriateness client Cfg loads py_repr a r c).
Proof.
  shape_of_operation. apply no_exit_json_operation. intros ?.
  apply no_exit_pair_reader.
Qed.

Lemma no_exit_ask_type_adequacy t r c :
  no_exit (ask_type_adequacy client Cfg loads py_repr t r c).
Proof.
  shape_of_operation. apply no_exit_json_operation. intros ?.
  apply no_exit_pair_reader.
Qed.

Lemma no_exit_ask_frequency_appropriateness f r c :
  no_exit (ask_frequency_appropriateness client Cfg loads py_repr f r c).
Proof.
  shape_of_operation. apply no_exit_json_operation. intros ?.
  apply no_exit_pair_reader.
Qed.

Lemma no_exit_ask_system_dependency c :
  no_exit (ask_system_dependency client Cfg loads py_repr c).
Proof.
  shape_of_operation. apply no_exit_json_operation. intros ?.
  apply no_exit_systems_reader.
Qed.

Lemma no_exit_ask_adaptability c :
  no_exit (ask_adaptability client Cfg loads py_repr c).
Proof.
  shape_of_operation. apply no_exit_json_operation. intros ?.
  apply no_exit_pair_reader.
Qed.

Lemma bind_step {St A B} (m : M St A) (k : A -> M St B) st :
  bind m k st
  = match m st with
    | (Ok a, st') => k a st'
    | (Raise e, st') => (Raise e, st')
    | (Exit c, st') => (Exit c, st')
    end.
Proof. reflexivity. Qed.

Lemma ret_bind_step {St A B} (a : A) (k : A -> M St B) st :
  bind (ret a) k st = k a st.
Proof. reflexivity. Qed.

Lemma append_bind_step {B} l v (k : unit -> M (Lists * W) B) L w :
  exists L', bind (append l v) k (L, w) = k tt (L', w).
Proof. eexists. reflexivity. Qed.

Ltac append_step :=
  match goal with
  | |- context [bind (append ?l ?v) ?k (?L, ?w)] =>
      let L' := fresh "L" in
      destruct (append_bind_step l v k L w) as (L' & ->)
  end.

Lemma lift_bind_step {A B} (m : M W A) (k : A -> M (Lists * W) B) L w :
  bind (lift m) k (L, w)
  = match m w with
    | (Ok a, w') => k a (L, w')
    | (Raise e, w') => (Raise e, (L, w'))
    | (Exit c, w') => (Exit c, (L, w'))
    end.
Proof. unfold bind, lift. cbn [fst snd]. destruct (m w) as [[a|e|c] w']; reflexivity. Qed.

(** Runs the next operation of a record in the hypothesis [Hpre] (the
    prerequisites) and in the goal (the analysis of the record) at once. *)
Ltac next_operation Hpre lemma :=
  rewrite bind_step in Hpre;
  repeat (first [rewrite ret_bind_step | append_step];
          cbv beta iota zeta);
  rewrite lift_bind_step;
  match type of Hpre with
  | context [match ?m ?w with _ => _ end] =>
      let H := fresh "Hne" in
      pose proof (lemma w I) as H;
      let r := fresh "r" in
      let w' := fresh "w" in
      destruct (m w) as [r w']; destruct r as [r| |]; [| |destruct H];
      [ open_tuple r | ];
      cbv beta iota zeta in Hpre; cbv beta iota zeta;
      clear H
  end.

Lemma text_append_assoc (a b c : string) : (a ++ b) ++ c = a ++ (b ++ c).
Proof. induction a as [|x a IH]; cbn; [reflexivity | rewrite IH; reflexivity]. Qed.

(** The prompt of the overall rating is the text of its lines. *)
Lemma ask_overall_rating_prompt_lines ans ans2 ans3 ans4 ans5 pres miss :
  ask_overall_rating_prompt (py_str py_repr ans) (py_str py_repr ans2)
    (py_str py_repr ans3) (py_str py_repr ans4) (py_str py_repr ans5)
    pres miss
  = Text.join Text.nl (overall_rating_lines ans ans2 ans3 ans4 ans5 pres miss).
Proof.
  unfold ask_overall_rating_prompt, overall_rating_lines.
  cbn [Text.join]. rewrite !text_append_assoc. reflexivity.
Qed.

(** C8.  For a record whose input cells are there, each under a header
    that is not repeated, [analyse_record] runs the overall rating in the
    very state of the world that Completeness and the six operations after
    it leave when all of them have returned (values or error markers), on
    the answers they returned.  Every request the overall rating then sends
    comes after all the requests of the seven and carries the prompt built
    from their results: its lines are the heading, the five answers of the
    prerequisite judgments, each after its label, the present and the
    missing text of Completeness, and the format of the answer -- nothing
    else of the record.  When one of the seven raises, the analysis of the
    record ends there and then. *)
Theorem overall_rating_runs_after_its_prerequisites :
  forall df idx control_name text risk automation control_type frequency
         (L : Lists) (w : W),
    read_once df = true ->
    cell df idx "Control Description" = Some text ->
    cell df idx "Risk Description" = Some risk ->
    cell df idx "Automation" = Some automation ->
    cell df idx "Detective/ Preventive" = Some control_type ->
    cell df idx "Operation Frequency" = Some frequency ->
    match prerequisites text risk automation control_type frequency w with
    | (Ok (pres, miss, (ans, ans2, ans3, ans4, ans5), ans6), w7) =>
        let overall :=
          ask_overall_rating client Cfg loads py_repr
            (overall_row ans ans2 ans3 ans4 ans5) pres miss ans6 in
        let prompt :=
          Text.join Text.nl
            (overall_rating_lines ans ans2 ans3 ans4 ans5 pres miss) in
        (exists L7,
            analyse_record client Cfg loads py_repr df idx control_name (L, w)
            = bind (lift overall) (after_overall_rating df idx control_name)
                   (L7, w7))
        /\ (exists t,
               trace w7 = (trace w ++ t)%list
               /\ Forall
                    (fun c =>
                       In (req_user (fst c))
                          (prerequisite_prompts text risk automation
                             control_type frequency))
                    (calls_of t))
        /\ (exists t8,
               trace (snd (overall w7)) = (trace w7 ++ t8)%list
               /\ Forall (fun c => req_user (fst c) = prompt) (calls_of t8))
    | (Raise e, w') =>
        exists L',
          analyse_record client Cfg loads py_repr df idx control_name (L, w)
          = (Raise e, (L', w'))
    | (Exit _, _) => False
    end.
Proof.
  intros df idx control_name text risk automation control_type frequency L w
         Honce Htext Hrisk Hauto Htype Hfreq.
  destruct (sends_only_prerequisites text risk automation control_type frequency w)
    as (t & Ht & Hall).
  unfold analyse_record.
  rewrite !(row_item_cell df idx _ _ Htext), !(row_item_cell df idx _ _ Hrisk),
    !(row_item_cell df idx _ _ Hauto), !(row_item_cell df idx _ _ Htype),
    !(row_item_cell df idx _ _ Hfreq).
  destruct (prerequisites text risk automation control_type frequency w)
    as [res w7] eqn:Hpre.
  cbn [snd] in Ht.
  unfold prerequisites in Hpre.
  next_operation Hpre (no_exit_ask_llm text).
  2:{ injection Hpre as <- <-. eexists. reflexivity. }
  next_operation Hpre (no_exit_ask_control_objective risk text).
  2:{ injection Hpre as <- <-. eexists. reflexivity. }
  next_operation Hpre (no_exit_ask_execution_appropriateness automation risk text).
  2:{ injection Hpre as <- <-. eexists. reflexivity. }
  next_operation Hpre (no_exit_ask_type_adequacy control_type risk text).
  2:{ injection Hpre as <- <-. eexists. reflexivity. }
  next_operation Hpre (no_exit_ask_frequency_appropriateness frequency risk text).
  2:{ injection Hpre as <- <-. eexists. reflexivity. }
  next_operation Hpre (no_exit_ask_system_dependency text).
  2:{ injection Hpre as <- <-. eexists. reflexivity. }
  next_operation Hpre (no_exit_ask_adaptability text).
  2:{ injection Hpre as <- <-. eexists. reflexivity. }
  injection Hpre as <- <-. cbv beta iota zeta.
  split; [|split].
  - repeat (first [rewrite ret_bind_step | append_step];
            cbv beta iota zeta).
    eexists. unfold after_overall_rating.
    rewrite !(row_item_cell df idx _ _ Htext). reflexivity.
  - exists t. split; assumption.
  - shape_of_operation.
    match goal with
    | |- context [json_operation ?p ?m ?r ?w0] =>
        destruct (sends_only_json_operation p m r
                    (fun d => sends_only_pair_reader _ _ _ d) w0)
          as (t8 & Ht8 & Hall8)
    end.
    exists t8. split; [exact Ht8|].
    eapply Forall_impl; [|exact Hall8]. intros c <-.
    apply ask_overall_rating_prompt_lines.
Qed.

End Order.

(* ================================================================== *)
(** ** The executor *)
(* ================================================================== *)

Section Executor.


End Executor.

(** *** Backoff *)

Section Backoff.

(** After a rate-limited failure the executor pauses for the capped
    exponential delay, on every attempt. *)
Lemma rate_limited_attempt_waits r n attempt (w : World S) res s1 e :
  create client r (service w) = (res, s1) ->
  first_content res = inr e ->
  classify e = RateLimited ->
  let wait := Qmin (RETRY_DELAY Cfg * pow2 attempt) (MAX_RETRY_DELAY Cfg) in
  attempt < float_exponents ->
  accepted wait = true ->
  llm_attempts client Cfg r (Datatypes.S n) attempt w
  = llm_attempts client Cfg r n (Datatypes.S attempt)
      {| service := s1;
         trace := trace w ++
           [ECall r res;
            ELog WARNING "LLM call attempt {} failed: {}" [ANat (attempt + 1); AStr e];
            ELog INFO "Rate limit hit, waiting {}s before retry..." [ASeconds wait];
            ESleep wait] |}.
Proof.
  intros Hc Hres Hclass wait Hexp Hok.
  rewrite (llm_attempts_failed r n attempt w res s1 e Hc Hres), Hclass.
  unfold bind at 1. rewrite (backoff_in_range attempt _ Hexp).
  cbv zeta. unfold bind at 1, log at 1, emit at 1.
  cbn [fst snd service trace]. unfold bind at 1.
  rewrite (sleep_accepted _ _ Hok). unfold emit.
  cbn [fst snd service trace]. rewrite <- !app_assoc. reflexivity.
Qed.

(** After any other failure that is not the last attempt it pauses for the
    exponential delay as it is, without the cap. *)
Lemma other_error_attempt_waits r n attempt (w : World S) res s1 e :
  create client r (service w) = (res, s1) ->
  first_content res = inr e ->
  classify e = OtherError ->
  attempt < MAX_RETRIES Cfg - 1 ->
  let wait := (RETRY_DELAY Cfg * pow2 attempt)%Q in
  attempt < float_exponents ->
  accepted wait = true ->
  llm_attempts client Cfg r (Datatypes.S n) attempt w
  = llm_attempts client Cfg r n (Datatypes.S attempt)
      {| service := s1;
         trace := trace w ++
           [ECall r res;
            ELog WARNING "LLM call attempt {} failed: {}" [ANat (attempt + 1); AStr e];
            ELog INFO "Retrying LLM call in {}s..." [ASeconds wait];
            ESleep wait] |}.
Proof.
  intros Hc Hres Hclass Hlt wait Hexp Hok.
  rewrite (llm_attempts_failed r n attempt w res s1 e Hc Hres), Hclass.
  destruct (Nat.ltb_spec attempt (MAX_RETRIES Cfg - 1)); [|lia].
  unfold bind at 1. rewrite (backoff_in_range attempt _ Hexp).
  unfold bind at 1, log at 1, emit at 1.
  cbn [fst snd service trace]. unfold bind at 1.
  rewrite (sleep_accepted _ _ Hok). unfold emit.
  cbn [fst snd service trace]. rewrite <- !app_assoc. reflexivity.
Qed.

End Backoff.

(** Under the settings as shipped the cap is out of reach of the uncapped
    branch: five attempts pause at most eight seconds. *)
Lemma default_settings_hide_the_missing_cap key attempt :
  attempt < MAX_RETRIES (default_config key) - 1 ->
  (RETRY_DELAY (default_config key) * pow2 attempt)%Q
  = Qmin (RETRY_DELAY (default_config key) * pow2 attempt)
         (MAX_RETRY_DELAY (default_config key)).
Proof.
  cbn [MAX_RETRIES RETRY_DELAY MAX_RETRY_DELAY default_config]. intros H.
  do 4 (destruct attempt as [|attempt]; [vm_compute; reflexivity|]). lia.
Qed.

(** C2.  With eight attempts allowed and the other settings as shipped, a
    service that keeps timing out makes the executor pause 1, 2, 4, 8, 16,
    32 and 64 seconds: the pause after the seventh attempt (attempt 6) is
    64 seconds where the capped formula gives 60, whereas under rate
    limiting the same attempts pause 60 seconds. *)
Theorem other_transient_backoff_exceeds_the_cap :
  let pauses msg :=
    sleeps_of
      (trace
         (snd (make_llm_call_with_retry (Sample.always (ApiError msg))
                 Sample.cfg8 "prompt" default_system_content
                 (Sample.start tt)))) in
  classify "Request timed out." = OtherError
  /\ pauses "Request timed out." = [1; 2; 4; 8; 16; 32; 64]%Q
  /\ Qmin (RETRY_DELAY Sample.cfg8 * pow2 6) (MAX_RETRY_DELAY Sample.cfg8) = 60%Q
  /\ ~ (64 == 60)%Q
  /\ classify "Error code: 429 - Too Many Requests" = RateLimited
  /\ pauses "Error code: 429 - Too Many Requests"
     = [1; 2; 4; 8; 16; 32; 60; 60]%Q.
Proof.
  cbv zeta. repeat split; try (vm_compute; reflexivity).
  intros H. vm_compute in H. discriminate.
Qed.

(* ================================================================== *)
(** ** A service that keeps failing *)
(* ================================================================== *)

Section PersistentFailure.

Lemma saved_of_app (a b : list event) :
  saved_of (a ++ b) = (saved_of a ++ saved_of b)%list.
Proof. apply flat_map_app. Qed.

Lemma keeps_answering_create res r (w : World S) :
  keeps_answering res ->
  exists s1, create client r (service w) = (res, s1).
Proof.
  intros H. specialize (H r (service w)).
  destruct (create client r (service w)) as [res' s1]. simpl in H. subst.
  exists s1. reflexivity.
Qed.

Lemma llm_attempts_rate_limited r res e :
  settings_in_range Cfg = true ->
  keeps_answering res ->
  first_content res = inr e ->
  classify e = RateLimited ->
  forall n attempt (w : World S),
  attempt + n <= MAX_RETRIES Cfg ->
  exists w' t,
    llm_attempts client Cfg r n attempt w = (Ok None, w')
    /\ trace w' = (trace w ++ t)%list
    /\ calls_of t = repeat (r, res) n
    /\ sleeps_of t = map capped_delay (seq attempt n).
Proof.
  intros Hrange Hres Hfail Hcls. induction n as [|n IH]; intros attempt w Hsum.
  - exists w, []. cbn. rewrite app_nil_r. auto.
  - destruct (keeps_answering_create res r w Hres) as (s1 & Hc).
    destruct (settings_in_range_attempt attempt Hrange) as (Hexp & Hcap & _);
      [lia|].
    pose proof (rate_limited_attempt_waits r n attempt w res s1 e Hc Hfail Hcls
                  Hexp Hcap) as Hstep.
    rewrite Hstep.
    match goal with
    | |- context [llm_attempts _ _ _ _ _ ?w1] =>
        destruct (IH (Datatypes.S attempt) w1) as (w' & t & -> & Htr & Hcalls & Hsl);
          [lia|]
    end.
    exists w'. eexists. split; [reflexivity|]. cbn [trace] in Htr.
    rewrite Htr, <- app_assoc. split; [reflexivity|].
    rewrite calls_of_app, sleeps_of_app, Hcalls, Hsl. split; reflexivity.
Qed.

Lemma llm_attempts_other_error r res e :
  settings_in_range Cfg = true ->
  keeps_answering res ->
  first_content res = inr e ->
  classify e = OtherError ->
  forall n attempt (w : World S),
  attempt + n = MAX_RETRIES Cfg ->
  exists w' t,
    llm_attempts client Cfg r n attempt w = (Ok None, w')
    /\ trace w' = (trace w ++ t)%list
    /\ calls_of t = repeat (r, res) n
    /\ sleeps_of t = map plain_delay (seq attempt (n - 1)).
Proof.
  intros Hrange Hres Hfail Hcls. induction n as [|n IH]; intros attempt w Hsum.
  - exists w, []. cbn. rewrite app_nil_r. auto.
  - destruct (keeps_answering_create res r w Hres) as (s1 & Hc).
    destruct n as [|n].
    + rewrite (llm_attempts_failed r 0 attempt w res s1 e Hc Hfail), Hcls.
      destruct (Nat.ltb_spec attempt (MAX_RETRIES Cfg - 1)); [lia|].
      unfold bind, log, emit, ret. cbn [llm_attempts fst snd service trace].
      eexists. eexists.
      split; [reflexivity|]. cbn [trace]. rewrite <- !app_assoc.
      split; [reflexivity|]. split; reflexivity.
    + destruct (settings_in_range_attempt attempt Hrange) as (Hexp & _ & Hplain);
        [lia|].
      pose proof (other_error_attempt_waits r (Datatypes.S n) attempt w res s1 e
                    Hc Hfail Hcls) as Hstep.
      rewrite Hstep; [|lia | exact Hexp | apply Hplain; lia].
      match goal with
      | |- context [llm_attempts _ _ _ _ _ ?w1] =>
          destruct (IH (Datatypes.S attempt) w1) as (w' & t & -> & Htr & Hcalls & Hsl);
            [lia|]
      end.
      exists w'. eexists. split; [reflexivity|]. cbn [trace] in Htr.
      rewrite Htr, <- app_assoc. split; [reflexivity|].
      rewrite calls_of_app, sleeps_of_app, Hcalls, Hsl.
      split; [reflexivity|]. cbn [Nat.sub]. rewrite Nat.sub_0_r. reflexivity.
Qed.

(** X1.  Against a service that keeps failing in a way the executor
    retries, and with the retry settings in range, the executor sends the
    request [MAX_RETRIES] times and returns [None].  Under rate limiting it
    pauses after every attempt, the last one included, for the capped
    exponential delay; under any other failure it pauses after every
    attempt but the last, for the exponential delay without the cap. *)
Theorem executor_under_persistent_failure :
  forall res e p sc (w : World S),
    settings_in_range Cfg = true ->
    keeps_answering res ->
    first_content res = inr e ->
    classify e = RateLimited \/ classify e = OtherError ->
    exists w' t,
      make_llm_call_with_retry client Cfg p sc w = (Ok None, w')
      /\ trace w' = (trace w ++ t)%list
      /\ calls_of t = repeat (request_of p sc, res) (MAX_RETRIES Cfg)
      /\ (classify e = RateLimited ->
          sleeps_of t = map capped_delay (seq 0 (MAX_RETRIES Cfg)))
      /\ (classify e = OtherError ->
          sleeps_of t = map plain_delay (seq 0 (MAX_RETRIES Cfg - 1))).
Proof.
  intros res e p sc w Hrange Hres Hfail [Hcls | Hcls];
    unfold make_llm_call_with_retry.
  - destruct (llm_attempts_rate_limited (request_of p sc) res e Hrange Hres
                Hfail Hcls (MAX_RETRIES Cfg) 0 w (le_n _))
      as (w' & t & Hrun & Htr & Hcalls & Hsl).
    exists w', t. repeat (split; [assumption|]). split; [auto|].
    intros H. congruence.
  - destruct (llm_attempts_other_error (request_of p sc) res e Hrange Hres
                Hfail Hcls (MAX_RETRIES Cfg) 0 w eq_refl)
      as (w' & t & Hrun & Htr & Hcalls & Hsl).
    exists w', t. repeat (split; [assumption|]). split; [|auto].
    intros H. congruence.
Qed.

End PersistentFailure.

(* ================================================================== *)
(** ** The start-up validation *)
(* ================================================================== *)

Section StartUp.

(** A failed ping: the two log lines around the request, and what the
    [except] clause does for the failure. *)
Lemma connection_attempts_failed n attempt (w : World S) res s1 e :
  create client (ping_request Cfg) (service w) = (res, s1) ->
  ping_outcome res = inr e ->
  connection_attempts client Cfg (Datatypes.S n) attempt w
  = match classify e with
    | RateLimited =>
        delay <- backoff Cfg attempt ;;
        let wait_time := Qmin delay (MAX_RETRY_DELAY Cfg) in
        log INFO "Rate limit hit, waiting {}s before retry..." [ASeconds wait_time] ;;
        sleep wait_time ;;
        connection_attempts client Cfg n (Datatypes.S attempt)
    | Unauthorized =>
        log ERROR "🚫 Authentication failed - check your API key" [] ;;
        sys_exit 1
    | NotFound =>
        log ERROR "🚫 API endpoint not found - check base URL and model name" [] ;;
        sys_exit 1
    | OtherError =>
        if attempt <? MAX_RETRIES Cfg - 1 then
          wait_time <- backoff Cfg attempt ;;
          log INFO "Retrying in {}s..." [ASeconds wait_time] ;;
          sleep wait_time ;;
          connection_attempts client Cfg n (Datatypes.S attempt)
        else
          log ERROR "🚫 All connection attempts failed. Last error: {}" [AStr e] ;;
          log ERROR "Please check:" [] ;;
          log ERROR "1. API key is valid and not expired" [] ;;
          log ERROR "2. Model name is supported" [] ;;
          log ERROR "3. Network connectivity" [] ;;
          log ERROR "4. OpenAI API service status" [] ;;
          sys_exit 1
    end
      {| service := s1;
         trace := trace w ++
           [ELog INFO "Testing connection (attempt {}/{})..."
              [ANat (attempt + 1); ANat (MAX_RETRIES Cfg)];
            ECall (ping_request Cfg) res;
            ELog WARNING "Connection test attempt {} failed: {}"
              [ANat (attempt + 1); AStr e]] |}.
Proof.
  intros Hc Hres. cbn [connection_attempts].
  unfold bind at 1, log at 1, emit at 1. cbn [fst snd service trace].
  unfold bind at 1, chat_create. cbn [fst snd service trace]. rewrite Hc, Hres.
  unfold bind at 1, log at 1, emit at 1. cbn [fst snd service trace].
  rewrite <- !app_assoc. reflexivity.
Qed.

(** A ping that succeeds ends the connection test. *)
Lemma connection_attempts_succeeded n attempt (w : World S) res s1 :
  create client (ping_request Cfg) (service w) = (res, s1) ->
  ping_outcome res = inl tt ->
  exists pre,
    connection_attempts client Cfg (Datatypes.S n) attempt w
    = (Ok tt, {| service := s1; trace := trace w ++ pre |})
    /\ calls_of pre = [(ping_request Cfg, res)]
    /\ sleeps_of pre = []
    /\ saved_of pre = [].
Proof.
  intros Hc Hres. cbn [connection_attempts].
  unfold bind at 1, log at 1, emit at 1. cbn [fst snd service trace].
  unfold bind at 1, chat_create. cbn [fst snd service trace]. rewrite Hc, Hres.
  unfold bind, log, emit, ret. cbn [fst snd service trace].
  rewrite <- !app_assoc. cbn [app]. eexists. split; [reflexivity|].
  repeat split.
Qed.

(** A failed ping that is retried: the pause is taken and the test goes
    on, or the product or the pause raises. *)
Lemma connection_attempts_retry n attempt (w : World S) res s1 e :
  create client (ping_request Cfg) (service w) = (res, s1) ->
  ping_outcome res = inr e ->
  classify e = RateLimited
  \/ (classify e = OtherError /\ attempt < MAX_RETRIES Cfg - 1) ->
  exists pre,
    calls_of pre = [(ping_request Cfg, res)]
    /\ saved_of pre = []
    /\ (connection_attempts client Cfg (Datatypes.S n) attempt w
        = connection_attempts client Cfg n (Datatypes.S attempt)
            {| service := s1; trace := trace w ++ pre |}
        \/ exists err,
             connection_attempts client Cfg (Datatypes.S n) attempt w
             = (Raise err, {| service := s1; trace := trace w ++ pre |})).
Proof.
  intros Hc Hres Hcls. rewrite (connection_attempts_failed n attempt w res s1 e Hc Hres).
  assert (Hlt : classify e = OtherError -> (attempt <? MAX_RETRIES Cfg - 1) = true).
  { intros Ho. destruct Hcls as [Hr | [_ Hlt]]; [congruence|].
    apply Nat.ltb_lt, Hlt. }
  assert (Hkind : classify e = RateLimited \/ classify e = OtherError)
    by tauto.
  clear Hcls.
  destruct Hkind as [Hk | Hk]; rewrite Hk; [|rewrite (Hlt Hk)]; clear Hlt;
    match goal with
    | |- exists pre, _ /\ _ /\ (?A = _ \/ _) => remember A as run eqn:Hrun
    end;
    unfold bind, log in Hrun;
    match type of Hrun with
    | context [backoff Cfg attempt ?w1] =>
        destruct (backoff_outcome attempt w1) as [Hb | (err & Hb)];
        rewrite Hb in Hrun
    end;
    cbv beta iota zeta in Hrun;
    try (subst run; eexists; split; [|split; [|right; exists err; reflexivity]];
         reflexivity);
    unfold emit at 1 in Hrun; cbn [fst snd service trace] in Hrun;
    match type of Hrun with
    | context [sleep ?d ?w1] =>
        destruct (sleep_outcome d w1) as [Hs | (err & Hs)]; rewrite Hs in Hrun
    end;
    unfold emit in Hrun; cbv beta iota zeta in Hrun;
    cbn [fst snd service trace] in Hrun;
    rewrite <- !app_assoc in Hrun; cbn [app] in Hrun; subst run;
    first [ eexists; split; [|split; [|right; exists err; reflexivity]];
            reflexivity
          | eexists; split; [|split; [|left; reflexivity]]; reflexivity ].
Qed.

(** A failed ping that is not retried: the program exits. *)
Lemma connection_attempts_gives_up n attempt (w : World S) res s1 e :
  create client (ping_request Cfg) (service w) = (res, s1) ->
  ping_outcome res = inr e ->
  classify e = Unauthorized \/ classify e = NotFound
  \/ (classify e = OtherError /\ MAX_RETRIES Cfg - 1 <= attempt) ->
  exists pre,
    connection_attempts client Cfg (Datatypes.S n) attempt w
    = (Exit 1, {| service := s1; trace := trace w ++ pre |})
    /\ calls_of pre = [(ping_request Cfg, res)]
    /\ sleeps_of pre = []
    /\ saved_of pre = [].
Proof.
  intros Hc Hres Hcls. rewrite (connection_attempts_failed n attempt w res s1 e Hc Hres).
  destruct Hcls as [-> | [-> | [-> Hge]]];
    [| |destruct (Nat.ltb_spec attempt (MAX_RETRIES Cfg - 1)); [lia|]];
    unfold bind, log, emit, sys_exit; cbn [fst snd service trace];
    rewrite <- !app_assoc; cbn [app];
    (eexists; split; [reflexivity|]; repeat split).
Qed.

(** How a failure of the ping is sorted. *)
Lemma failure_is_retried_or_not e attempt :
  (classify e = RateLimited
   \/ (classify e = OtherError /\ attempt < MAX_RETRIES Cfg - 1))
  \/ (classify e = Unauthorized \/ classify e = NotFound
      \/ (classify e = OtherError /\ MAX_RETRIES Cfg - 1 <= attempt)).
Proof.
  destruct (classify e); auto.
  destruct (Nat.lt_ge_cases attempt (MAX_RETRIES Cfg - 1)); auto.
Qed.

(** The connection test ends with a ping that succeeded, or exits, or
    raises what the product or the pause raised. *)
Lemma connection_attempts_spec n :
  forall attempt (w : World S),
  let run := connection_attempts client Cfg n attempt w in
  exists t,
    trace (snd run) = (trace w ++ t)%list
    /\ Forall (fun c => fst c = ping_request Cfg) (calls_of t)
    /\ length (calls_of t) <= n
    /\ saved_of t = []
    /\ ((fst run = Ok tt
         /\ exists t0 res,
              calls_of t = (t0 ++ [(ping_request Cfg, res)])%list
              /\ ping_outcome res = inl tt)
        \/ fst run = Exit 1
        \/ exists err, fst run = Raise err).
Proof.
  induction n as [|n IH]; intros attempt w; cbv zeta.
  - cbn [connection_attempts]. unfold bind, log, emit, sys_exit.
    cbn [fst snd service trace]. eexists.
    split; [reflexivity|]. split; [constructor|]. split; [simpl; lia|].
    split; [reflexivity|]. right. left. reflexivity.
  - destruct (create client (ping_request Cfg) (service w)) as [res s1] eqn:Hc.
    set (ping := ping_request Cfg) in *.
    assert (Hstop : forall pre (out : Res unit),
               calls_of pre = [(ping, res)] ->
               saved_of pre = [] ->
               (out = Ok tt /\ ping_outcome res = inl tt)
               \/ out = Exit 1 \/ (exists err, out = Raise err) ->
               let run := (out, {| service := s1; trace := trace w ++ pre |}) in
               exists t,
                 trace (snd run) = (trace w ++ t)%list
                 /\ Forall (fun c => fst c = ping) (calls_of t)
                 /\ length (calls_of t) <= Datatypes.S n
                 /\ saved_of t = []
                 /\ ((fst run = Ok tt
                      /\ exists t0 res',
                           calls_of t = (t0 ++ [(ping, res')])%list
                           /\ ping_outcome res' = inl tt)
                     \/ fst run = Exit 1
                     \/ exists err, fst run = Raise err)).
    { intros pre out Hpre Hsv Hout. exists pre.
      split; [reflexivity|]. rewrite Hpre, Hsv.
      split; [repeat constructor|]. split; [simpl; lia|].
      split; [reflexivity|]. cbn [fst].
      destruct Hout as [[-> Hok] | [-> | (err & ->)]].
      - left. split; [reflexivity|]. exists [], res. split; [reflexivity | exact Hok].
      - right. left. reflexivity.
      - right. right. exists err. reflexivity. }
    destruct (ping_outcome res) as [[]|e] eqn:Hres.
    + destruct (connection_attempts_succeeded n attempt w res s1 Hc Hres)
        as (pre & -> & Hpre & _ & Hsv).
      apply Hstop; auto.
    + destruct (failure_is_retried_or_not e attempt) as [Hretry | Hstops].
      * destruct (connection_attempts_retry n attempt w res s1 e Hc Hres Hretry)
          as (pre & Hpre & Hsv & [-> | (err & ->)]).
        -- destruct (IH (Datatypes.S attempt)
                       {| service := s1; trace := trace w ++ pre |})
             as (t & Htr' & Hall & Hlen & Hsaved & Hend).
           exists (pre ++ t)%list. rewrite Htr'. cbn [trace]. rewrite app_assoc.
           split; [reflexivity|].
           rewrite calls_of_app, saved_of_app, Hpre, Hsv, Hsaved.
           split; [constructor; auto|]. split; [simpl; lia|]. split; [reflexivity|].
           destruct Hend as [(Hrun & t0 & res' & Ht0 & Hok) | Hrun];
             [left | right; exact Hrun].
           split; [exact Hrun|]. exists ((ping, res) :: t0), res'.
           rewrite Ht0. split; [reflexivity | exact Hok].
        -- apply Hstop; eauto.
      * destruct (connection_attempts_gives_up n attempt w res s1 e Hc Hres Hstops)
          as (pre & -> & Hpre & _ & Hsv).
        apply Hstop; auto.
Qed.

(** With the settings in range the connection test raises nothing. *)
Lemma connection_attempts_in_range :
  settings_in_range Cfg = true ->
  forall n attempt (w : World S),
    attempt + n <= MAX_RETRIES Cfg ->
    forall err, fst (connection_attempts client Cfg n attempt w) <> Raise err.
Proof.
  intros Hrange. induction n as [|n IH]; intros attempt w Hle err.
  - cbn [connection_attempts]. unfold bind, log, emit, sys_exit.
    cbn [fst snd service trace]. discriminate.
  - destruct (create client (ping_request Cfg) (service w)) as [res s1] eqn:Hc.
    destruct (ping_outcome res) as [[]|e] eqn:Hres.
    + destruct (connection_attempts_succeeded n attempt w res s1 Hc Hres)
        as (pre & -> & _). discriminate.
    + destruct (failure_is_retried_or_not e attempt) as [Hretry | Hstops].
      * destruct (settings_in_range_attempt attempt Hrange)
          as (Hexp & Hcap & Hplain); [lia|].
        rewrite (connection_attempts_failed n attempt w res s1 e Hc Hres).
        destruct Hretry as [-> | [-> Hlt]].
        -- unfold bind at 1. rewrite (backoff_in_range attempt _ Hexp).
           cbv zeta. unfold bind at 1, log at 1, emit at 1.
           cbn [fst snd service trace]. unfold bind at 1.
           rewrite (sleep_accepted _ _ Hcap). unfold emit.
           cbn [fst snd service trace]. apply IH. lia.
        -- destruct (Nat.ltb_spec attempt (MAX_RETRIES Cfg - 1)); [|lia].
           unfold bind at 1. rewrite (backoff_in_range attempt _ Hexp).
           unfold bind at 1, log at 1, emit at 1.
           cbn [fst snd service trace]. unfold bind at 1.
           rewrite (sleep_accepted _ _ (Hplain Hlt)). unfold emit.
           cbn [fst snd service trace]. apply IH. lia.
      * destruct (connection_attempts_gives_up n attempt w res s1 e Hc Hres Hstops)
          as (pre & -> & _). discriminate.
Qed.

(** What comes before the connection test: log lines only. *)
Lemma initialize_client_runs (w : World S) :
  API_KEY Cfg <> placeholder_key ->
  exists pre,
    initialize_client client Cfg w
    = connection_attempts client Cfg (MAX_RETRIES Cfg) 0
        {| service := service w; trace := trace w ++ pre |}
    /\ calls_of pre = [] /\ sleeps_of pre = [] /\ saved_of pre = [].
Proof.
  intros Hkey. unfold initialize_client, placeholder_key in *.
  destruct (String.eqb_spec (API_KEY Cfg) "YOUR_OPENAI_API_KEY_HERE") as [Heq|_];
    [contradiction|].
  destruct (existsb (String.eqb (MODEL Cfg)) (SUPPORTED_MODELS Cfg));
    unfold bind, log, emit, ret; cbn [fst snd service trace];
    rewrite <- ?app_assoc; cbn [app];
    (eexists; split; [reflexivity|]; repeat split).
Qed.

Lemma initialize_client_spec (w : World S) :
  let run := initialize_client client Cfg w in
  exists t,
    trace (snd run) = (trace w ++ t)%list
    /\ Forall (fun c => fst c = ping_request Cfg) (calls_of t)
    /\ length (calls_of t) <= MAX_RETRIES Cfg
    /\ saved_of t = []
    /\ ((fst run = Ok tt
         /\ API_KEY Cfg <> placeholder_key
         /\ exists t0 res,
              calls_of t = (t0 ++ [(ping_request Cfg, res)])%list
              /\ ping_outcome res = inl tt)
        \/ (fst run = Exit 1
            /\ (API_KEY Cfg = placeholder_key -> calls_of t = []))
        \/ ((exists err, fst run = Raise err)
            /\ API_KEY Cfg <> placeholder_key
            /\ settings_in_range Cfg = false)).
Proof.
  cbv zeta.
  destruct (String.eqb_spec (API_KEY Cfg) placeholder_key) as [Hkey|Hkey].
  - unfold initialize_client. unfold placeholder_key in Hkey. rewrite Hkey.
    cbn [String.eqb Ascii.eqb Bool.eqb].
    unfold bind, log, emit, sys_exit. cbn [fst snd service trace].
    eexists. split; [reflexivity|]. split; [constructor|].
    split; [simpl; lia|]. split; [reflexivity|]. right. left. split; reflexivity.
  - destruct (initialize_client_runs w Hkey) as (pre & -> & Hpre & _ & Hsv).
    destruct (connection_attempts_spec (MAX_RETRIES Cfg) 0
                {| service := service w; trace := trace w ++ pre |})
      as (t & Htr' & Hall & Hlen & Hsaved & Hend).
    exists (pre ++ t)%list. rewrite Htr'. cbn [trace]. rewrite app_assoc.
    split; [reflexivity|].
    rewrite calls_of_app, saved_of_app, Hpre, Hsv. cbn [app].
    split; [exact Hall|]. split; [exact Hlen|]. split; [exact Hsaved|].
    destruct Hend as [(Hrun & Hlast) | [Hrun | (err & Hrun)]].
    + left. split; [exact Hrun|]. split; [exact Hkey | exact Hlast].
    + right. left. split; [exact Hrun|]. intros Heq. contradiction.
    + right. right. split; [exists err; exact Hrun|]. split; [exact Hkey|].
      destruct (settings_in_range Cfg) eqn:Hrange; [|reflexivity].
      exfalso.
      exact (connection_attempts_in_range Hrange (MAX_RETRIES Cfg) 0 _
               (le_n _) err Hrun).
Qed.

(** X2.  The start-up validation returns only when the key is not the
    placeholder and its last request, a ping, came back with a non-empty
    content; otherwise it exits with status 1 -- or, with retry settings
    out of range only, raises what the product or the pause of a retry
    raised.  It sends nothing but pings, at most [MAX_RETRIES] of them, and
    none when the key is the placeholder. *)
Theorem initialize_client_returns_or_exits :
  forall w : World S,
  exists t,
    trace (snd (initialize_client client Cfg w)) = (trace w ++ t)%list
    /\ Forall (fun c => fst c = ping_request Cfg) (calls_of t)
    /\ length (calls_of t) <= MAX_RETRIES Cfg
    /\ ((fst (initialize_client client Cfg w) = Ok tt
         /\ API_KEY Cfg <> placeholder_key
         /\ exists t0 res,
              calls_of t = (t0 ++ [(ping_request Cfg, res)])%list
              /\ ping_outcome res = inl tt)
        \/ (fst (initialize_client client Cfg w) = Exit 1
            /\ (API_KEY Cfg = placeholder_key -> calls_of t = []))
        \/ ((exists err, fst (initialize_client client Cfg w) = Raise err)
            /\ API_KEY Cfg <> placeholder_key
            /\ settings_in_range Cfg = false)).
Proof.
  intros w. destruct (initialize_client_spec w) as (t & Htr & Hall & Hlen & _ & Hend).
  exists t. auto.
Qed.

End StartUp.

Section StartUpFailure.

Hypothesis in_range : settings_in_range Cfg = true.

(** After a rate-limited ping the test pauses for the capped delay. *)
Lemma rate_limited_ping_waits n attempt (w : World S) res s1 e :
  create client (ping_request Cfg) (service w) = (res, s1) ->
  ping_outcome res = inr e ->
  classify e = RateLimited ->
  attempt < MAX_RETRIES Cfg ->
  connection_attempts client Cfg (Datatypes.S n) attempt w
  = connection_attempts client Cfg n (Datatypes.S attempt)
      {| service := s1;
         trace := trace w ++
           [ELog INFO "Testing connection (attempt {}/{})..."
              [ANat (attempt + 1); ANat (MAX_RETRIES Cfg)];
            ECall (ping_request Cfg) res;
            ELog WARNING "Connection test attempt {} failed: {}"
              [ANat (attempt + 1); AStr e];
            ELog INFO "Rate limit hit, waiting {}s before retry..."
              [ASeconds (capped_delay attempt)];
            ESleep (capped_delay attempt)] |}.
Proof.
  intros Hc Hres Hcls Hlt.
  destruct (settings_in_range_attempt attempt in_range Hlt) as (Hexp & Hcap & _).
  rewrite (connection_attempts_failed n attempt w res s1 e Hc Hres), Hcls.
  unfold bind at 1. rewrite (backoff_in_range attempt _ Hexp).
  cbv zeta. unfold bind at 1, log at 1, emit at 1.
  cbn [fst snd service trace]. unfold bind at 1.
  rewrite (sleep_accepted _ _ Hcap). unfold emit.
  cbn [fst snd service trace]. rewrite <- !app_assoc. reflexivity.
Qed.

(** After any other failure of a ping that is not the last, the test
    pauses for the delay without the cap. *)
Lemma other_error_ping_waits n attempt (w : World S) res s1 e :
  create client (ping_request Cfg) (service w) = (res, s1) ->
  ping_outcome res = inr e ->
  classify e = OtherError ->
  attempt < MAX_RETRIES Cfg - 1 ->
  connection_attempts client Cfg (Datatypes.S n) attempt w
  = connection_attempts client Cfg n (Datatypes.S attempt)
      {| service := s1;
         trace := trace w ++
           [ELog INFO "Testing connection (attempt {}/{})..."
              [ANat (attempt + 1); ANat (MAX_RETRIES Cfg)];
            ECall (ping_request Cfg) res;
            ELog WARNING "Connection test attempt {} failed: {}"
              [ANat (attempt + 1); AStr e];
            ELog INFO "Retrying in {}s..." [ASeconds (plain_delay attempt)];
            ESleep (plain_delay attempt)] |}.
Proof.
  intros Hc Hres Hcls Hlt.
  destruct (settings_in_range_attempt attempt in_range) as (Hexp & _ & Hplain);
    [lia|].
  rewrite (connection_attempts_failed n attempt w res s1 e Hc Hres), Hcls.
  destruct (Nat.ltb_spec attempt (MAX_RETRIES Cfg - 1)); [|lia].
  unfold bind at 1. rewrite (backoff_in_range attempt _ Hexp).
  unfold bind at 1, log at 1, emit at 1.
  cbn [fst snd service trace]. unfold bind at 1.
  rewrite (sleep_accepted _ _ (Hplain Hlt)). unfold emit.
  cbn [fst snd service trace]. rewrite <- !app_assoc. reflexivity.
Qed.

Lemma connection_attempts_rate_limited res e :
  keeps_answering res ->
  ping_outcome res = inr e ->
  classify e = RateLimited ->
  forall n attempt (w : World S),
  attempt + n <= MAX_RETRIES Cfg ->
  exists t,
    trace (snd (connection_attempts client Cfg n attempt w)) = (trace w ++ t)%list
    /\ fst (connection_attempts client Cfg n attempt w) = Exit 1
    /\ calls_of t = repeat (ping_request Cfg, res) n
    /\ sleeps_of t = map capped_delay (seq attempt n).
Proof.
  intros Hres Hfail Hcls. induction n as [|n IH]; intros attempt w Hsum.
  - cbn [connection_attempts]. unfold bind, log, emit, sys_exit.
    cbn [fst snd service trace]. eexists. repeat split.
  - destruct (keeps_answering_create res (ping_request Cfg) w Hres) as (s1 & Hc).
    rewrite (rate_limited_ping_waits n attempt w res s1 e Hc Hfail Hcls) by lia.
    match goal with
    | |- context [connection_attempts _ _ _ _ ?w1] =>
        destruct (IH (Datatypes.S attempt) w1) as (t & Htr & Hrun & Hcalls & Hsl);
          [lia|]
    end.
    cbn [trace] in Htr. rewrite Htr, Hrun, <- app_assoc. cbn [app].
    eexists. split; [reflexivity|]. split; [reflexivity|].
    cbn [calls_of sleeps_of flat_map app]. fold (calls_of t). fold (sleeps_of t).
    rewrite Hcalls, Hsl. split; reflexivity.
Qed.

Lemma connection_attempts_other_error res e :
  keeps_answering res ->
  ping_outcome res = inr e ->
  classify e = OtherError ->
  forall n attempt (w : World S),
  attempt + n = MAX_RETRIES Cfg ->
  exists t,
    trace (snd (connection_attempts client Cfg n attempt w)) = (trace w ++ t)%list
    /\ fst (connection_attempts client Cfg n attempt w) = Exit 1
    /\ calls_of t = repeat (ping_request Cfg, res) n
    /\ sleeps_of t = map plain_delay (seq attempt (n - 1)).
Proof.
  intros Hres Hfail Hcls. induction n as [|n IH]; intros attempt w Hsum.
  - cbn [connection_attempts]. unfold bind, log, emit, sys_exit.
    cbn [fst snd service trace]. eexists. repeat split.
  - destruct (keeps_answering_create res (ping_request Cfg) w Hres) as (s1 & Hc).
    destruct (Nat.lt_ge_cases attempt (MAX_RETRIES Cfg - 1)) as [Hlt|Hge].
    + rewrite (other_error_ping_waits n attempt w res s1 e Hc Hfail Hcls Hlt).
      match goal with
      | |- context [connection_attempts _ _ _ _ ?w1] =>
          destruct (IH (Datatypes.S attempt) w1) as (t & Htr & Hrun & Hcalls & Hsl);
            [lia|]
      end.
      cbn [trace] in Htr. rewrite Htr, Hrun, <- app_assoc. cbn [app].
      eexists. split; [reflexivity|]. split; [reflexivity|].
      cbn [calls_of sleeps_of flat_map app]. fold (calls_of t). fold (sleeps_of t).
      rewrite Hcalls, Hsl. split; [reflexivity|].
      destruct n as [|n]; [lia|]. cbn [Nat.sub]. rewrite Nat.sub_0_r. reflexivity.
    + assert (n = 0) by lia. subst n.
      destruct (connection_attempts_gives_up 0 attempt w res s1 e Hc Hfail)
        as (pre & -> & Hpre & Hsl & _); [auto|].
      exists pre. cbn [fst snd trace]. repeat split; assumption.
Qed.

(** X3.  Against a service that keeps failing in a way the start-up
    validation retries, and with the retry settings in range, the program
    exits with status 1 after [MAX_RETRIES] pings.  Under rate limiting it
    pauses after every ping, the last one included, for the capped
    exponential delay, and only then gives up; under any other failure it
    pauses after every ping but the last, for the exponential delay
    without the cap. *)
Theorem start_up_under_persistent_failure :
  forall res e (w : World S),
    keeps_answering res ->
    ping_outcome res = inr e ->
    classify e = RateLimited \/ classify e = OtherError ->
    API_KEY Cfg <> placeholder_key ->
    exists t,
      trace (snd (initialize_client client Cfg w)) = (trace w ++ t)%list
      /\ fst (initialize_client client Cfg w) = Exit 1
      /\ calls_of t = repeat (ping_request Cfg, res) (MAX_RETRIES Cfg)
      /\ (classify e = RateLimited ->
          sleeps_of t = map capped_delay (seq 0 (MAX_RETRIES Cfg)))
      /\ (classify e = OtherError ->
          sleeps_of t = map plain_delay (seq 0 (MAX_RETRIES Cfg - 1))).
Proof.
  intros res e w Hres Hfail Hcls Hkey.
  destruct (initialize_client_runs w Hkey) as (pre & -> & Hpre & Hsl & _).
  destruct Hcls as [Hcls | Hcls].
  - destruct (connection_attempts_rate_limited res e Hres Hfail Hcls
                (MAX_RETRIES Cfg) 0
                {| service := service w; trace := trace w ++ pre |} (le_n _))
      as (t & Htr' & Hrun & Hcalls & Hsleeps).
    exists (pre ++ t)%list. rewrite Htr'. cbn [trace]. rewrite app_assoc.
    split; [reflexivity|]. split; [exact Hrun|].
    rewrite calls_of_app, sleeps_of_app, Hpre, Hsl. cbn [app].
    split; [exact Hcalls|]. split; [auto | intros H; congruence].
  - destruct (connection_attempts_other_error res e Hres Hfail Hcls
                (MAX_RETRIES Cfg) 0
                {| service := service w; trace := trace w ++ pre |} eq_refl)
      as (t & Htr' & Hrun & Hcalls & Hsleeps).
    exists (pre ++ t)%list. rewrite Htr'. cbn [trace]. rewrite app_assoc.
    split; [reflexivity|]. split; [exact Hrun|].
    rewrite calls_of_app, sleeps_of_app, Hpre, Hsl. cbn [app].
    split; [exact Hcalls|]. split; [intros H; congruence | auto].
Qed.

End StartUpFailure.

(* ================================================================== *)
(** ** Answers the operations cannot use *)
(* ================================================================== *)

Section UnusableAnswers.

Lemma run_operation_no_text op i (w w1 : World S) raw :
  make_llm_call_with_retry client Cfg (prompt_of Cfg py_repr op i)
    (system_content_of op) w = (Ok raw, w1) ->
  no_text raw = true ->
  run_operation client Cfg loads py_repr op i w = (Ok (failure_markers op), w1).
Proof.
  intros Hcall Hraw.
  destruct op; simpl in *;
    try (destruct (in_answers i) as [[[[ans ans2] ans3] ans4] ans5]);
    shape_of_operation; unfold bind at 1;
    try (erewrite json_operation_no_text; [reflexivity | exact Hcall | exact Hraw]).
  unfold ask_expected_evidence, bind. rewrite Hcall. simpl. rewrite Hraw.
  reflexivity.
Qed.

(** X4.  An answer whose content is empty or white space ends the call at
    once: the executor takes it for a success, so nothing is retried and
    nothing is paused for, and the operation answers with its failure
    markers after that single request. *)
Theorem blank_answer_is_not_retried :
  forall op i (w : World S) c rest,
    0 < MAX_RETRIES Cfg ->
    fst (create client
           (request_of (prompt_of Cfg py_repr op i) (system_content_of op))
           (service w))
    = Response (Some c :: rest) ->
    Text.strip c = "" ->
    exists t,
      trace (snd (run_operation client Cfg loads py_repr op i w))
      = (trace w ++ t)%list
      /\ fst (run_operation client Cfg loads py_repr op i w)
         = Ok (failure_markers op)
      /\ calls_of t
         = [(request_of (prompt_of Cfg py_repr op i) (system_content_of op),
             Response (Some c :: rest))]
      /\ sleeps_of t = [].
Proof.
  intros op i w c rest Hmax Hres Hblank.
  set (r := request_of (prompt_of Cfg py_repr op i) (system_content_of op)) in *.
  destruct (create client r (service w)) as [res s1] eqn:Hc.
  simpl in Hres. subst res.
  assert (Hcall :
    make_llm_call_with_retry client Cfg (prompt_of Cfg py_repr op i)
      (system_content_of op) w
    = (Ok (Some ""),
       {| service := s1;
          trace := trace w ++ [ECall r (Response (Some c :: rest))] |})).
  { unfold make_llm_call_with_retry. fold (request_of (prompt_of Cfg py_repr op i)
                                             (system_content_of op)).
    fold r. destruct (MAX_RETRIES Cfg) as [|n]; [lia|]. cbn [llm_attempts].
    unfold bind, chat_create, ret. rewrite Hc. cbn [first_content].
    rewrite Hblank. reflexivity. }
  rewrite (run_operation_no_text op i w _ _ Hcall eq_refl).
  eexists. split; [reflexivity|]. repeat split.
Qed.

End UnusableAnswers.

Section AnswersOfTheWrongShape.

#[local] Abbreviation run := (run_operation client Cfg loads py_repr).

(** X5.  When the answer decodes to a value that counts as true but is not
    an object (a non-empty array or string, a number other than zero, the
    constant [true]), each of the eight operations that parse their answer
    raises [AttributeError] on reading the first key: the failure markers
    are for absent text and empty values only. *)
Theorem non_object_answer_raises :
  forall op i (w : World S) data,
    op <> ExpectedEvidence ->
    parser_gives op i w (Some data) ->
    truthy data = true ->
    (forall d, data <> PDict d) ->
    fst (run op i w) = Raise (no_attribute data "get").
Proof.
  intros op i w data Hop Hparse Htrue Hshape.
  destruct (run_operation_parsed op i w data Hop Hparse Htrue) as (w2 & Heq).
  rewrite Heq.
  destruct data; try (exfalso; eapply Hshape; reflexivity);
    destruct op; try congruence; reflexivity.
Qed.

(** X6.  Completeness reads its three sections as objects: when the answer
    is an object in which the value under one of [present], [missing] and
    [suggestions] is anything else (an empty array for "nothing missing",
    a plain string), the operation raises [AttributeError] on [items]
    instead of returning a result. *)
Theorem completeness_sections_must_be_objects :
  forall i (w : World S) d k v,
    parser_gives Completeness i w (Some (PDict d)) ->
    In k (expected_keys Completeness) ->
    dict_find k d = Some v ->
    (forall items, v <> PDict items) ->
    exists k' v',
      In k' (expected_keys Completeness)
      /\ dict_find k' d = Some v'
      /\ (forall items, v' <> PDict items)
      /\ fst (run Completeness i w) = Raise (no_attribute v' "items").
Proof.
  intros i w d k v Hparse Hk Hfind Hshape.
  assert (Htrue : truthy (PDict d) = true).
  { destruct d; [discriminate | reflexivity]. }
  destruct (run_operation_parsed Completeness i w (PDict d)
              ltac:(discriminate) Hparse Htrue) as (w2 & Heq).
  rewrite Heq. clear Heq Hparse.
  assert (Hcase : forall key,
             (exists items, dict_get key (PDict []) d = PDict items)
             \/ (exists v', dict_find key d = Some v'
                            /\ dict_get key (PDict []) d = v'
                            /\ forall items, v' <> PDict items)).
  { intros key. unfold dict_get. destruct (dict_find key d) as [x|]; [|left; eauto].
    destruct x; try (right; eexists; split; [reflexivity|];
                     split; [reflexivity | intros; discriminate]).
    left; eauto. }
  unfold completeness_reader, bind, py_get, py_items, ret. cbn [fst snd].
  destruct (Hcase "present") as [(ip & Hp) | (vp & Hfp & Hgp & Hsp)].
  - destruct (Hcase "missing") as [(im & Hm) | (vm & Hfm & Hgm & Hsm)].
    + destruct (Hcase "suggestions") as [(isg & Hs) | (vs & Hfs & Hgs & Hss)].
      * exfalso. simpl in Hk.
        assert (Hget : dict_get k (PDict []) d = v)
          by (unfold dict_get; rewrite Hfind; reflexivity).
        destruct Hk as [<- | [<- | [<- | []]]];
          [rewrite Hp in Hget | rewrite Hm in Hget | rewrite Hs in Hget];
          eapply Hshape; symmetry; exact Hget.
      * exists "suggestions", vs. split; [simpl; auto|]. split; [exact Hfs|].
        split; [exact Hss|]. rewrite Hp, Hm, Hgs.
        destruct vs; try reflexivity. exfalso. eapply Hss. reflexivity.
    + exists "missing", vm. split; [simpl; auto|]. split; [exact Hfm|].
      split; [exact Hsm|]. rewrite Hp, Hgm.
      destruct vm; try reflexivity. exfalso. eapply Hsm. reflexivity.
  - exists "present", vp. split; [simpl; auto|]. split; [exact Hfp|].
    split; [exact Hsp|]. rewrite Hgp.
    destruct vp; try reflexivity. exfalso. eapply Hsp. reflexivity.
Qed.

End AnswersOfTheWrongShape.

(* ================================================================== *)
(** ** The cost of a run *)
(* ================================================================== *)

Lemma spends_ret {St A} (tr : St -> list event) n (a : A) :
  spends tr n (ret a).
Proof.
  intros st. exists []. simpl. rewrite app_nil_r. repeat split. lia.
Qed.

Lemma spends_raise {St A} (tr : St -> list event) n e :
  spends tr n (@raise St A e).
Proof.
  intros st. exists []. simpl. rewrite app_nil_r. repeat split. lia.
Qed.

Lemma spends_bind {St A B} (tr : St -> list event) n1 n2 n
  (m : M St A) (k : A -> M St B) :
  spends tr n1 m ->
  (forall a, spends tr n2 (k a)) ->
  n1 + n2 <= n ->
  spends tr n (bind m k).
Proof.
  intros Hm Hk Hn st. unfold bind.
  destruct (Hm st) as (t1 & Htr1 & Hlen1 & Hsv1).
  destruct (m st) as [[a|e|c] st1]; simpl in *;
    try (exists t1; repeat split; [assumption | lia | assumption]).
  destruct (Hk a st1) as (t2 & Htr2 & Hlen2 & Hsv2).
  exists (t1 ++ t2)%list. rewrite Htr2, Htr1, app_assoc.
  split; [reflexivity|]. rewrite calls_of_app, saved_of_app, length_app, Hsv1, Hsv2.
  split; [lia | reflexivity].
Qed.

Lemma spends_bind_sum {St A B} (tr : St -> list event) n1 n2
  (m : M St A) (k : A -> M St B) :
  spends tr n1 m ->
  (forall a, spends tr n2 (k a)) ->
  spends tr (n1 + n2) (bind m k).
Proof. intros Hm Hk. eapply spends_bind; eauto. Qed.

Lemma spends_weaken {St A} (tr : St -> list event) n n' (m : M St A) :
  spends tr n m -> n <= n' -> spends tr n' m.
Proof.
  intros Hm Hn st. destruct (Hm st) as (t & Htr & Hlen & Hsv).
  exists t. repeat split; [assumption | lia | assumption].
Qed.

Lemma spends_try {St A} (tr : St -> list event) n1 n2 n
  (body : M St A) handler :
  spends tr n1 body ->
  (forall e, spends tr n2 (handler e)) ->
  n1 + n2 <= n ->
  spends tr n (try_except body handler).
Proof.
  intros Hb Hh Hn st. unfold try_except.
  destruct (Hb st) as (t1 & Htr1 & Hlen1 & Hsv1).
  destruct (body st) as [[a|e|c] st1]; simpl in *;
    try (exists t1; repeat split; [assumption | lia | assumption]).
  destruct (Hh e st1) as (t2 & Htr2 & Hlen2 & Hsv2).
  exists (t1 ++ t2)%list. rewrite Htr2, Htr1, app_assoc.
  split; [reflexivity|]. rewrite calls_of_app, saved_of_app, length_app, Hsv1, Hsv2.
  split; [lia | reflexivity].
Qed.

Lemma spends_for_each {St A} (tr : St -> list event) n
  (xs : list A) (body : A -> M St unit) :
  (forall x, spends tr n (body x)) ->
  spends tr (length xs * n) (for_each xs body).
Proof.
  intros Hbody. induction xs as [|x xs IH]; cbn [for_each length].
  - apply spends_ret.
  - eapply spends_bind; [apply Hbody | intros ?; apply IH | simpl; lia].
Qed.

Section Cost.

#[local] Abbreviation W := (World S).
#[local] Abbreviation lists_trace :=
  (fun st : Lists * World S => trace (snd st)).

Lemma spends_log n l tpl a : spends (@trace S) n (log l tpl a).
Proof.
  intros w. eexists. split; [reflexivity|]. split; [simpl; lia | reflexivity].
Qed.

Lemma spends_sleep n d : spends (@trace S) n (sleep d).
Proof.
  intros w. destruct (sleep_outcome d w) as [-> | (e & ->)].
  - eexists. split; [reflexivity|]. split; [simpl; lia | reflexivity].
  - exists []. cbn [snd]. rewrite app_nil_r.
    split; [reflexivity|]. split; [simpl; lia | reflexivity].
Qed.

Lemma spends_backoff n attempt : spends (@trace S) n (backoff Cfg attempt).
Proof.
  unfold backoff. destruct (attempt <? float_exponents);
    first [apply spends_ret | apply spends_raise].
Qed.

Lemma spends_chat_create n r :
  1 <= n -> spends (@trace S) n (chat_create client r).
Proof.
  intros Hn w. unfold chat_create.
  destruct (create client r (service w)) as [res s1]. simpl.
  eexists. split; [reflexivity|]. split; [simpl; lia | reflexivity].
Qed.

Lemma spends_llm_attempts r n :
  forall attempt, spends (@trace S) n (llm_attempts client Cfg r n attempt).
Proof.
  induction n as [|n IH]; intros attempt; cbn [llm_attempts].
  - apply spends_ret.
  - eapply spends_bind with (n1 := 1) (n2 := n);
      [apply spends_chat_create; lia | | lia].
    intros response. destruct (first_content response) as [text|e];
      [apply spends_ret|].
    eapply spends_bind with (n1 := 0); [apply spends_log | | cbn [Nat.add]; apply Nat.le_refl].
    intros _. destruct (classify e).
    + eapply spends_bind with (n1 := 0); [apply spends_backoff | | cbn [Nat.add]; apply Nat.le_refl].
      intros delay. cbv zeta.
      eapply spends_bind with (n1 := 0); [apply spends_log | | cbn [Nat.add]; apply Nat.le_refl].
      intros _.
      eapply spends_bind with (n1 := 0); [apply spends_sleep | | cbn [Nat.add]; apply Nat.le_refl].
      intros _. apply IH.
    + eapply spends_bind with (n1 := 0) (n2 := 0);
        [apply spends_log | intros _; apply spends_ret | lia].
    + eapply spends_bind with (n1 := 0) (n2 := 0);
        [apply spends_log | intros _; apply spends_ret | lia].
    + destruct (attempt <? MAX_RETRIES Cfg - 1).
      * eapply spends_bind with (n1 := 0); [apply spends_backoff | | cbn [Nat.add]; apply Nat.le_refl].
        intros delay.
        eapply spends_bind with (n1 := 0); [apply spends_log | | cbn [Nat.add]; apply Nat.le_refl].
        intros _.
        eapply spends_bind with (n1 := 0); [apply spends_sleep | | cbn [Nat.add]; apply Nat.le_refl].
        intros _. apply IH.
      * eapply spends_bind with (n1 := 0); [apply spends_log | | cbn [Nat.add]; apply Nat.le_refl].
        intros _. apply IH.
Qed.

Lemma spends_call p sc :
  spends (@trace S) (MAX_RETRIES Cfg) (make_llm_call_with_retry client Cfg p sc).
Proof. apply spends_llm_attempts. Qed.

Lemma spends_extract n raw :
  spends (@trace S) n (@extract_json_from_response S loads raw).
Proof.
  unfold extract_json_from_response.
  match goal with |- context [loads ?x] => destruct (loads x) end.
  - apply spends_ret.
  - eapply spends_bind with (n1 := 0) (n2 := 0);
      [apply spends_log | intros _; apply spends_ret | lia].
Qed.

Lemma spends_py_get n data k d : spends (@trace S) n (py_get data k d).
Proof. destruct data; first [apply spends_ret | apply spends_raise]. Qed.

Lemma spends_py_items n v : spends (@trace S) n (py_items v).
Proof. destruct v; first [apply spends_ret | apply spends_raise]. Qed.

Lemma spends_json_operation {A} p (markers : A) read :
  (forall d, spends (@trace S) 0 (read d)) ->
  spends (@trace S) (MAX_RETRIES Cfg) (json_operation p markers read).
Proof.
  intros Hread. unfold json_operation.
  eapply spends_bind with (n2 := 0); [apply spends_call | | lia].
  intros raw. destruct (no_text raw); [apply spends_ret|].
  eapply spends_bind with (n1 := 0) (n2 := 0); [apply spends_extract | | lia].
  intros d. destruct (no_data d); [apply spends_ret | apply Hread].
Qed.

Lemma spends_pair_reader k1 k2 d : spends (@trace S) 0 (pair_reader k1 k2 d).
Proof.
  unfold pair_reader.
  repeat (eapply spends_bind with (n1 := 0) (n2 := 0);
          [apply spends_py_get | intros ? | lia]).
  apply spends_ret.
Qed.

Lemma spends_systems_reader d : spends (@trace S) 0 (systems_reader d).
Proof.
  unfold systems_reader.
  eapply spends_bind with (n1 := 0) (n2 := 0);
    [apply spends_py_get | intros ? | lia].
  apply spends_ret.
Qed.

Lemma spends_completeness_reader d :
  spends (@trace S) 0 (completeness_reader d).
Proof.
  unfold completeness_reader.
  repeat (eapply spends_bind with (n1 := 0) (n2 := 0);
          [first [apply spends_py_get | apply spends_py_items] | intros ? | lia]).
  apply spends_ret.
Qed.

Lemma spends_ask_expected_evidence c :
  spends (@trace S) (MAX_RETRIES Cfg) (ask_expected_evidence client Cfg py_repr c).
Proof.
  unfold ask_expected_evidence.
  eapply spends_bind with (n2 := 0);
    [apply spends_call | intros ?; apply spends_ret | lia].
Qed.

Lemma spends_lift {A} n (m : M W A) :
  spends (@trace S) n m -> spends lists_trace n (lift m).
Proof.
  intros Hm [L w]. unfold lift. cbn [fst snd]. specialize (Hm w).
  destruct (m w) as [r w']. exact Hm.
Qed.

Lemma spends_append n l v : spends lists_trace n (@append S l v).
Proof.
  intros [L w]. exists []. simpl. rewrite app_nil_r. repeat split. lia.
Qed.

Lemma spends_len n l : spends lists_trace n (@len S l).
Proof.
  intros [L w]. exists []. simpl. rewrite app_nil_r. repeat split. lia.
Qed.

Lemma spends_row_item n df idx col :
  spends lists_trace n (@row_item (Lists * W) df idx col).
Proof.
  unfold row_item.
  destruct (column col df) as [cells|]; [destruct (nth_error cells idx)|];
    first [apply spends_ret | apply spends_raise].
Qed.

(** One step of [analyse_record], with what it may send. *)
Ltac spends_step :=
  first
    [ apply spends_row_item with (n := 0)
    | apply spends_append with (n := 0)
    | apply spends_lift;
      first
        [ apply spends_log with (n := 0)
        | apply spends_ask_expected_evidence
        | shape_of_operation; apply spends_json_operation; intros ?;
          first [ apply spends_pair_reader | apply spends_systems_reader
                | apply spends_completeness_reader ] ] ].

Lemma spends_analyse_record df idx control_name :
  spends lists_trace (9 * MAX_RETRIES Cfg)
    (analyse_record client Cfg loads py_repr df idx control_name).
Proof.
  unfold analyse_record.
  eapply spends_weaken.
  - repeat (eapply spends_bind_sum;
            [ spends_step
            | let x := fresh "x" in
              intros x; open_tuple x; cbv beta iota zeta ]).
    spends_step.
  - lia.
Qed.

Lemma spends_fill_placeholders idx control_name e :
  spends lists_trace 0 (@fill_placeholders S idx control_name e).
Proof.
  unfold fill_placeholders.
  eapply spends_bind with (n1 := 0) (n2 := 0);
    [apply spends_lift, spends_log | intros _ | lia].
  eapply spends_weaken; [apply spends_for_each with (n := 0) | lia].
  intros lst.
  eapply spends_bind with (n1 := 0) (n2 := 0); [apply spends_len | | lia].
  intros n. destruct (n <=? idx); [apply spends_append | apply spends_ret].
Qed.

Lemma spends_process_record df total idx :
  spends lists_trace (9 * MAX_RETRIES Cfg)
    (process_record client Cfg loads py_repr df total idx).
Proof.
  unfold process_record.
  eapply spends_bind with (n1 := 0);
    [apply spends_lift, spends_log | intros _ | cbn [Nat.add]; apply Nat.le_refl].
  eapply spends_try with (n2 := 0);
    [apply spends_analyse_record | apply spends_fill_placeholders | lia].
Qed.

Lemma spends_with_lists {A} n (m : M (Lists * W) A) :
  spends lists_trace n m -> spends (@trace S) n (with_lists m).
Proof.
  intros Hm w. unfold with_lists. specialize (Hm (empty_lists, w)).
  destruct (m (empty_lists, w)) as [[a|e|c] [L w']]; exact Hm.
Qed.

Lemma spends_process_controls df :
  spends (@trace S) (9 * MAX_RETRIES Cfg * nrows df)
    (process_controls client Cfg loads py_repr df).
Proof.
  unfold process_controls.
  eapply spends_bind with (n1 := 0);
    [apply spends_log | intros _ | cbn [Nat.add]; apply Nat.le_refl].
  eapply spends_bind with (n2 := 0);
    [apply spends_with_lists, spends_for_each, spends_process_record | | ].
  - intros [[] L].
    eapply spends_bind with (n1 := 0) (n2 := 0); [ | intros df' | lia].
    + unfold of_res. intros w. exists []. simpl. rewrite app_nil_r.
      repeat split. lia.
    + eapply spends_bind with (n1 := 0) (n2 := 0);
        [apply spends_log | intros _; apply spends_ret | lia].
  - rewrite length_seq. lia.
Qed.

(** X7.  Whatever the service answers, [process_controls] sends at most
    nine times [MAX_RETRIES] requests per record (forty-five under the
    settings as shipped), and hands no frame over to be saved. *)
Theorem process_controls_request_budget :
  forall df (w : World S),
  exists t,
    trace (snd (process_controls client Cfg loads py_repr df w))
    = (trace w ++ t)%list
    /\ length (calls_of t) <= 9 * MAX_RETRIES Cfg * nrows df
    /\ saved_of t = []
    /\ (forall key, 9 * MAX_RETRIES (default_config key) = 45).
Proof.
  intros df w. destruct (spends_process_controls df w) as (t & Htr & Hlen & Hsv).
  exists t. auto.
Qed.

End Cost.

(* ================================================================== *)
(** ** Records that cannot be analysed *)
(* ================================================================== *)

Section AbandonedRecords.

#[local] Abbreviation W := (World S).

(** The loop of the [except] clause, with what the lists hold after it. *)
Lemma placeholders_loop_contents idx (names : list result_list) :
  NoDup names ->
  forall (L : Lists) (w : W),
  exists L',
    for_each names
      (fun lst =>
         n <- len lst ;;
         if n <=? idx then append lst Processing_error else ret tt) (L, w)
    = (Ok tt, (L', w))
    /\ forall l,
         L' l
         = if existsb (result_list_eqb l) names && (length (L l) <=? idx)
           then (L l ++ [Processing_error])%list else L l.
Proof.
  induction names as [|n names IH]; intros Hnd L w.
  - exists L. split; [reflexivity|]. intros l. reflexivity.
  - inversion Hnd as [|? ? Hn Hnd']; subst.
    cbn [for_each]. unfold bind at 1. unfold bind at 1. unfold len at 1.
    cbn [fst snd].
    set (L1 := fun l' : result_list =>
                 if result_list_eqb n l' then (L l' ++ [Processing_error])%list
                 else L l').
    assert (Hstep :
      (if length (L n) <=? idx then append n Processing_error else ret tt) (L, w)
      = (Ok tt, ((if length (L n) <=? idx then L1 else L), w))).
    { destruct (length (L n) <=? idx); reflexivity. }
    rewrite Hstep.
    destruct (IH Hnd' (if length (L n) <=? idx then L1 else L) w)
      as (L' & Heq & Hcont).
    exists L'. split; [exact Heq|]. intros l. rewrite Hcont. cbn [existsb].
    assert (Hnot : existsb (result_list_eqb n) names = false).
    { apply not_true_is_false. intros Hex.
      apply existsb_exists in Hex as (y & Hy & Heqb).
      destruct (result_list_eqb_spec n y); [subst; contradiction | discriminate]. }
    destruct (result_list_eqb_spec l n) as [->|Hne].
    + rewrite Hnot. cbn [orb andb].
      destruct (length (L n) <=? idx) eqn:Hle; [|reflexivity].
      unfold L1. destruct (result_list_eqb_spec n n); [reflexivity | congruence].
    + cbn [orb].
      destruct (length (L n) <=? idx); [|reflexivity]. unfold L1.
      destruct (result_list_eqb_spec n l); [congruence | reflexivity].
Qed.

(** A record on which [analyse_record] raises before any list has received
    an entry gets the placeholder in every list. *)
Lemma process_record_abandoned df total idx k :
  (forall name (L : Lists) (w : W),
      exists e w' t,
        analyse_record client Cfg loads py_repr df idx name (L, w)
        = (Raise e, (L, w'))
        /\ trace w' = (trace w ++ t)%list
        /\ length (calls_of t) = k) ->
  forall (L : Lists) (w : W),
    (forall l, L l = repeat Processing_error idx) ->
    exists L' w' t,
      process_record client Cfg loads py_repr df total idx (L, w)
      = (Ok tt, (L', w'))
      /\ (forall l, L' l = repeat Processing_error (Datatypes.S idx))
      /\ trace w' = (trace w ++ t)%list
      /\ length (calls_of t) = k.
Proof.
  intros Hraise L w HL. unfold process_record.
  unfold bind at 1, lift at 1, log at 1, emit at 1. cbn [fst snd].
  unfold try_except.
  match goal with
  | |- context [analyse_record _ _ _ _ _ _ ?name (L, ?w1)] =>
      destruct (Hraise name L w1) as (e & w' & t & -> & Htr & Hk)
  end.
  unfold fill_placeholders, bind at 1, lift, log, emit. cbn [fst snd].
  match goal with
  | |- context [for_each _ _ (L, ?w2)] =>
      destruct (placeholders_loop_contents idx all_result_lists
                  all_result_lists_distinct L w2) as (L' & -> & Hcont)
  end.
  eexists. eexists. eexists. split; [reflexivity|]. split.
  - intros l. rewrite Hcont, all_result_lists_complete, (HL l), repeat_length,
      Nat.leb_refl. cbn [andb]. rewrite <- repeat_cons. reflexivity.
  - cbn [trace] in *. rewrite Htr, <- !app_assoc. split; [reflexivity|].
    rewrite !calls_of_app, !length_app. cbn. lia.
Qed.

Lemma records_loop_abandoned df total k n :
  forall start,
    (forall idx name (L : Lists) (w : W),
        start <= idx < start + n ->
        exists e w' t,
          analyse_record client Cfg loads py_repr df idx name (L, w)
          = (Raise e, (L, w'))
          /\ trace w' = (trace w ++ t)%list
          /\ length (calls_of t) = k) ->
    forall (L : Lists) (w : W),
      (forall l, L l = repeat Processing_error start) ->
      exists L' w' t,
        for_each (seq start n)
          (process_record client Cfg loads py_repr df total) (L, w)
        = (Ok tt, (L', w'))
        /\ (forall l, L' l = repeat Processing_error (start + n))
        /\ trace w' = (trace w ++ t)%list
        /\ length (calls_of t) = n * k.
Proof.
  induction n as [|n IH]; intros start Hraise L w HL; cbn [seq for_each].
  - exists L, w, []. rewrite app_nil_r, Nat.add_0_r. auto.
  - unfold bind at 1.
    destruct (process_record_abandoned df total start k
                (fun name L w => Hraise start name L w ltac:(lia)) L w HL)
      as (L1 & w1 & t1 & -> & HL1 & Htr1 & Hk1).
    destruct (IH (Datatypes.S start)
                (fun idx name L w Hi => Hraise idx name L w ltac:(lia)) L1 w1 HL1)
      as (L2 & w2 & t2 & -> & HL2 & Htr2 & Hk2).
    exists L2, w2, (t1 ++ t2)%list. split; [reflexivity|]. split.
    + intros l. rewrite HL2. f_equal. lia.
    + rewrite Htr2, Htr1, app_assoc. split; [reflexivity|].
      rewrite calls_of_app, length_app. simpl. lia.
Qed.

Lemma process_controls_abandoned df k (w : W) :
  (forall idx name (L : Lists) (w : W),
      idx < nrows df ->
      exists e w' t,
        analyse_record client Cfg loads py_repr df idx name (L, w)
        = (Raise e, (L, w'))
        /\ trace w' = (trace w ++ t)%list
        /\ length (calls_of t) = k) ->
  exists df' w' t,
    process_controls client Cfg loads py_repr df w = (Ok df', w')
    /\ trace w' = (trace w ++ t)%list
    /\ length (calls_of t) = nrows df * k
    /\ nrows df' = nrows df
    /\ forall c l, In (c, l) output_columns ->
                   In (c, repeat Processing_error (nrows df)) (columns df').
Proof.
  intros Hraise. unfold process_controls, bind at 1, log, emit. cbn [fst snd].
  unfold bind at 1, with_lists.
  match goal with
  | |- context [for_each ?xs ?body (empty_lists, ?w1)] =>
      destruct (records_loop_abandoned df (nrows df) k (nrows df) 0
                  (fun idx name L w Hi => Hraise idx name L w ltac:(lia))
                  empty_lists w1 (fun _ => eq_refl))
        as (L & w2 & t & -> & HL & Htr & Hk)
  end.
  assert (Hlen : forall l, length (L l) = nrows df).
  { intros l. rewrite HL, repeat_length. reflexivity. }
  destruct (add_result_columns_spec L df Hlen) as (df' & Hadd & Hn & _ & Hout & _).
  unfold of_res, bind, ret. rewrite Hadd. cbn [fst snd service trace].
  exists df'. eexists. eexists. split; [reflexivity|]. cbn [trace] in *.
  rewrite Htr, <- !app_assoc. split; [reflexivity|].
  rewrite !calls_of_app, !length_app. cbn [calls_of flat_map length app].
  split; [lia|]. split; [exact Hn|].
  intros c l Hin. specialize (HL l). cbn [Nat.add] in HL. rewrite <- HL.
  apply Hout, Hin.
Qed.

Lemma column_absent col df :
  has_column col df = false -> column col df = None.
Proof.
  unfold has_column, headers, column.
  induction (columns df) as [|[h cells] r IH]; cbn; [reflexivity|].
  rewrite String.eqb_sym.
  destruct (h =? col)%string; cbn; [discriminate | exact IH].
Qed.

(** X8.  [process_controls] does not check the columns of its input: on a
    frame without the column [Control Description] it sends no request and
    returns the frame with "Processing error" in every row of every output
    column. *)
Theorem missing_description_column_fills_processing_errors :
  forall df (w : W),
    has_column "Control Description" df = false ->
    exists df' w' t,
      process_controls client Cfg loads py_repr df w = (Ok df', w')
      /\ trace w' = (trace w ++ t)%list
      /\ calls_of t = []
      /\ nrows df' = nrows df
      /\ forall c l, In (c, l) output_columns ->
                     In (c, repeat Processing_error (nrows df)) (columns df').
Proof.
  intros df w Hno.
  destruct (process_controls_abandoned df 0 w)
    as (df' & w' & t & Hrun & Htr & Hk & Hrest).
  - intros idx name L w0 _. unfold analyse_record, bind at 1, row_item.
    rewrite (column_absent _ _ Hno). unfold raise.
    exists (KeyError "Control Description"), w0, []. rewrite app_nil_r. auto.
  - exists df', w', t. split; [exact Hrun|]. split; [exact Htr|].
    split; [|exact Hrest]. rewrite Nat.mul_0_r in Hk.
    destruct (calls_of t); [reflexivity | discriminate].
Qed.

End AbandonedRecords.

(* ================================================================== *)
(** ** The rows of the result, record by record *)
(* ================================================================== *)

Section RowsInOrder.

#[local] Abbreviation W := (World S).














End RowsInOrder.

Section NonObjectAnswers.

#[local] Abbreviation W := (World S).

Lemma first_answer_is_returned p sc (w : W) c rest s1 :
  0 < MAX_RETRIES Cfg ->
  create client (request_of p sc) (service w) = (Response (Some c :: rest), s1) ->
  make_llm_call_with_retry client Cfg p sc w
  = (Ok (Some (Text.strip c)),
     {| service := s1;
        trace := trace w ++ [ECall (request_of p sc) (Response (Some c :: rest))] |}).
Proof.
  intros Hmax Hc. unfold make_llm_call_with_retry. fold (request_of p sc).
  destruct (MAX_RETRIES Cfg) as [|n]; [lia|]. cbn [llm_attempts].
  unfold bind, chat_create, ret. rewrite Hc. reflexivity.
Qed.

Lemma extract_decodes raw (w : W) v :
  loads (brace_to_brace (without_marker raw)) = Some v ->
  extract_json_from_response loads raw w = (Ok (Some v), w).
Proof.
  intros Hv. unfold extract_json_from_response. fold (without_marker raw).
  rewrite brace_search_is_brace_to_brace, Hv. reflexivity.
Qed.

Lemma column_present col df idx :
  well_formed df ->
  has_column col df = true ->
  idx < nrows df ->
  exists cells v, column col df = Some cells /\ nth_error cells idx = Some v.
Proof.
  unfold well_formed, has_column, headers, column. intros Hwf Hhas Hidx.
  induction (columns df) as [|[h cells] r IH]; cbn in *; [discriminate|].
  inversion Hwf as [|? ? Hlen Hwf']; subst. cbn in Hlen.
  rewrite String.eqb_sym in Hhas.
  destruct (h =? col)%string; cbn in Hhas.
  - exists cells. destruct (nth_error cells idx) as [v|] eqn:Hnth; [eauto|].
    apply nth_error_None in Hnth. lia.
  - apply IH; assumption.
Qed.

(** X9.  When every answer of the service decodes to a value that counts as
    true but is not an object, [process_controls] abandons each record at
    its first operation: one request per record, and "Processing error" in
    every row of every output column. *)
Theorem non_object_answers_abandon_every_record :
  forall df (w : W) c rest v,
    0 < MAX_RETRIES Cfg ->
    keeps_answering (Response (Some c :: rest)) ->
    Text.strip c <> "" ->
    loads (brace_to_brace (without_marker (Text.strip c))) = Some v ->
    truthy v = true ->
    (forall d, v <> PDict d) ->
    well_formed df ->
    has_column "Control Description" df = true ->
    exists df' w' t,
      process_controls client Cfg loads py_repr df w = (Ok df', w')
      /\ trace w' = (trace w ++ t)%list
      /\ length (calls_of t) = nrows df
      /\ nrows df' = nrows df
      /\ forall c l, In (c, l) output_columns ->
                     In (c, repeat Processing_error (nrows df)) (columns df').
Proof.
  intros df w c rest v Hmax Hres Htext Hv Htrue Hshape Hwf Hhas.
  destruct (process_controls_abandoned df 1 w)
    as (df' & w' & t & Hrun & Htr & Hk & Hrest).
  - intros idx name L w0 Hidx.
    destruct (column_present _ df idx Hwf Hhas Hidx) as (cells & text & Hcol & Hnth).
    unfold analyse_record, bind at 1, row_item. rewrite Hcol, Hnth.
    unfold ret at 1. cbv beta iota. unfold bind at 1, lift at 1. cbn [fst snd].
    rewrite ask_llm_shape. unfold json_operation, bind.
    set (p := ask_llm_prompt (ELEMENTS Cfg) (py_str py_repr text)).
    destruct (keeps_answering_create _ (request_of p default_system_content) w0 Hres)
      as (s1 & Hc).
    rewrite (first_answer_is_returned p default_system_content w0 c rest s1 Hmax Hc).
    cbn [no_text text_of].
    destruct (String.eqb_spec (Text.strip c) "") as [Hblank|_]; [contradiction|].
    rewrite (extract_decodes _ _ v Hv). cbn [no_data value_of]. rewrite Htrue.
    cbn [negb].
    assert (Hget : forall w1 : W,
               completeness_reader v w1 = (Raise (no_attribute v "get"), w1)).
    { intros w1. destruct v; try reflexivity. exfalso. eapply Hshape. reflexivity. }
    rewrite Hget. eexists. eexists. eexists.
    split; [reflexivity|]. split; reflexivity.
  - exists df', w', t. rewrite Nat.mul_1_r in Hk. auto.
Qed.

End NonObjectAnswers.

(* ================================================================== *)
(** ** The columns of the result *)
(* ================================================================== *)

Section ResultColumns.

#[local] Abbreviation W := (World S).

Lemma set_column_assign col values df :
  length values = nrows df ->
  set_column col values df = Ok (assign col values df).
Proof.
  intros Hlen. unfold set_column. rewrite Hlen, Nat.eqb_refl. reflexivity.
Qed.

Lemma nrows_run_step (L : Lists) d s : nrows (run_step L d s) = nrows d.
Proof.
  destruct s as [col l | col | old new]; cbn; [reflexivity | reflexivity |].
  destruct (has_column old d); reflexivity.
Qed.

Lemma add_result_columns_checked (L : Lists) df :
  add_result_columns L df = checked_steps L column_steps df.
Proof. reflexivity. Qed.

Lemma checked_steps_run (L : Lists) steps :
  forall df,
    (forall l, length (L l) = nrows df) ->
    checked_steps L steps df = Ok (fold_left (run_step L) steps df).
Proof.
  induction steps as [|s steps IH]; intros df Hlen; cbn [checked_steps fold_left];
    [reflexivity|].
  assert (Hstep : checked_step L s df = Ok (run_step L df s)).
  { destruct s as [col l | col | old new]; cbn [checked_step run_step];
      [apply set_column_assign, Hlen | reflexivity | reflexivity]. }
  rewrite Hstep. cbn [and_then]. apply IH.
  intros l. rewrite nrows_run_step. apply Hlen.
Qed.

Lemma add_result_columns_steps (L : Lists) df :
  (forall l, length (L l) = nrows df) ->
  add_result_columns L df = Ok (fold_left (run_step L) column_steps df).
Proof.
  intros Hlen. rewrite add_result_columns_checked. apply checked_steps_run, Hlen.
Qed.

Lemma has_column_spec col df :
  has_column col df = true <-> In col (headers df).
Proof.
  unfold has_column. rewrite existsb_exists. split.
  - intros (h & Hin & Heq). apply String.eqb_eq in Heq. subst. exact Hin.
  - intros Hin. exists col. split; [exact Hin | apply String.eqb_refl].
Qed.

Lemma has_column_false col df :
  has_column col df = false <-> ~ In col (headers df).
Proof.
  rewrite <- has_column_spec. destruct (has_column col df); split; intros H;
    try reflexivity; try discriminate; try (intros ?; discriminate).
  exfalso. apply H. reflexivity.
Qed.

Lemma headers_assign col values df :
  headers (assign col values df)
  = if has_column col df then headers df else (headers df ++ [col])%list.
Proof.
  unfold headers, assign. cbn [columns].
  destruct (has_column col df).
  - rewrite map_map. apply map_ext. intros [h cells]. cbn.
    destruct (h =? col)%string; reflexivity.
  - rewrite map_app. reflexivity.
Qed.

Lemma headers_del col df :
  headers (del_if_present col df)
  = filter (fun h => negb (h =? col)%string) (headers df).
Proof.
  unfold headers, del_if_present. cbn [columns].
  induction (columns df) as [|[h cells] r IH]; cbn; [reflexivity|].
  destruct (h =? col)%string; cbn; rewrite IH; reflexivity.
Qed.

Lemma headers_rename old new df :
  headers (rename_column old new df)
  = map (fun h => if (h =? old)%string then new else h) (headers df).
Proof.
  unfold headers, rename_column. cbn [columns]. rewrite !map_map.
  apply map_ext. intros [h cells]. cbn. destruct (h =? old)%string; reflexivity.
Qed.

Lemma absent_step_sound c a s (L : Lists) d :
  (a = true -> ~ In c (headers d)) ->
  absent_step c a s = true ->
  ~ In c (headers (run_step L d s)).
Proof.
  intros Ha Hs Hin.
  destruct s as [col l | col | old new]; cbn [absent_step run_step] in *.
  - apply andb_true_iff in Hs as [-> Hne]. apply negb_true_iff in Hne.
    rewrite headers_assign in Hin.
    destruct (has_column col d); [exact (Ha eq_refl Hin)|].
    apply in_app_or in Hin as [Hin | [<- | []]]; [exact (Ha eq_refl Hin)|].
    rewrite String.eqb_refl in Hne. discriminate.
  - rewrite headers_del in Hin. apply filter_In in Hin as [Hin Hne].
    apply negb_true_iff in Hne.
    apply orb_true_iff in Hs as [-> | Heq]; [exact (Ha eq_refl Hin)|].
    congruence.
  - apply andb_true_iff in Hs as [Hs Hnew]. apply negb_true_iff in Hnew.
    destruct (has_column old d) eqn:Hold.
    + rewrite headers_rename in Hin. apply in_map_iff in Hin as (h & Hh & Hin).
      destruct (String.eqb_spec h old) as [Heq|Hne].
      * subst c. rewrite String.eqb_refl in Hnew. discriminate.
      * subst h. apply orb_true_iff in Hs as [-> | Heq];
          [exact (Ha eq_refl Hin)|].
        apply String.eqb_eq in Heq. contradiction.
    + apply orb_true_iff in Hs as [-> | Heq]; [exact (Ha eq_refl Hin)|].
      apply String.eqb_eq in Heq. subst c.
      apply has_column_false in Hold. contradiction.
Qed.

Lemma absent_after_steps c (L : Lists) steps :
  forall a d,
    (a = true -> ~ In c (headers d)) ->
    fold_left (absent_step c) steps a = true ->
    ~ In c (headers (fold_left (run_step L) steps d)).
Proof.
  induction steps as [|s steps IH]; intros a d Ha Hfold; cbn [fold_left] in *.
  - apply Ha, Hfold.
  - eapply IH; [|exact Hfold]. intros Hs. eapply absent_step_sound; eauto.
Qed.

Lemma find_column_first_of c cs :
  find_column c cs = first_of (fun h => (h =? c)%string) cs.
Proof.
  induction cs as [|[h cells] r IH]; cbn; [reflexivity|].
  destruct (h =? c)%string; [reflexivity | exact IH].
Qed.

Lemma first_of_app p a b :
  first_of p (a ++ b)
  = match first_of p a with Some cells => Some cells | None => first_of p b end.
Proof.
  induction a as [|[h cells] r IH]; cbn; [reflexivity|].
  destruct (p h); [reflexivity | exact IH].
Qed.

Lemma first_of_untouched p s (L : Lists) d :
  (forall h, In h (touches s) -> p h = false) ->
  first_of p (columns (run_step L d s)) = first_of p (columns d).
Proof.
  intros Hp. destruct s as [col l | col | old new]; cbn [run_step touches] in *.
  - assert (Hcol : p col = false) by (apply Hp; simpl; auto).
    unfold assign. cbn [columns]. destruct (has_column col d).
    + induction (columns d) as [|[h cells] r IH]; cbn; [reflexivity|].
      destruct (String.eqb_spec h col) as [->|Hne]; cbn.
      * rewrite Hcol. exact IH.
      * destruct (p h); [reflexivity | exact IH].
    + rewrite first_of_app. cbn. rewrite Hcol.
      destruct (first_of p (columns d)); reflexivity.
  - assert (Hcol : p col = false) by (apply Hp; simpl; auto).
    unfold del_if_present. cbn [columns].
    induction (columns d) as [|[h cells] r IH]; cbn; [reflexivity|].
    destruct (String.eqb_spec h col) as [->|Hne]; cbn.
    + rewrite Hcol. exact IH.
    + destruct (p h); [reflexivity | exact IH].
  - assert (Hold : p old = false) by (apply Hp; simpl; auto).
    assert (Hnew : p new = false) by (apply Hp; simpl; auto).
    destruct (has_column old d); [|reflexivity].
    unfold rename_column. cbn [columns].
    induction (columns d) as [|[h cells] r IH]; cbn; [reflexivity|].
    destruct (String.eqb_spec h old) as [->|Hne]; cbn.
    + rewrite Hold, Hnew. exact IH.
    + destruct (p h); [reflexivity | exact IH].
Qed.

Lemma first_of_untouched_steps p (L : Lists) steps :
  forall d,
    (forall s h, In s steps -> In h (touches s) -> p h = false) ->
    first_of p (columns (fold_left (run_step L) steps d)) = first_of p (columns d).
Proof.
  induction steps as [|s steps IH]; intros d Hp; cbn [fold_left]; [reflexivity|].
  rewrite IH by (intros s' h Hs; apply Hp; right; exact Hs).
  apply first_of_untouched. intros h Hh. apply (Hp s h); [left; reflexivity | exact Hh].
Qed.

Lemma count_untouched c s (L : Lists) d :
  ~ In c (touches s) ->
  count_occ string_dec (headers (run_step L d s)) c
  = count_occ string_dec (headers d) c.
Proof.
  intros Hc. destruct s as [col l | col | old new]; cbn [run_step touches] in *.
  - rewrite headers_assign. destruct (has_column col d); [reflexivity|].
    rewrite count_occ_app. cbn [count_occ].
    destruct (string_dec col c) as [->|_]; [exfalso; apply Hc; simpl; auto | lia].
  - rewrite headers_del.
    induction (headers d) as [|h r IH]; cbn [filter count_occ]; [reflexivity|].
    destruct (String.eqb_spec h col) as [->|Hne]; cbn [negb count_occ].
    + destruct (string_dec col c) as [->|_];
        [exfalso; apply Hc; simpl; auto | exact IH].
    + destruct (string_dec h c); rewrite IH; reflexivity.
  - destruct (has_column old d); [|reflexivity]. rewrite headers_rename.
    induction (headers d) as [|h r IH]; cbn [map count_occ]; [reflexivity|].
    destruct (String.eqb_spec h old) as [->|Hne].
    + destruct (string_dec new c) as [->|_]; [exfalso; apply Hc; simpl; auto|].
      destruct (string_dec old c) as [->|_];
        [exfalso; apply Hc; simpl; auto | exact IH].
    + destruct (string_dec h c); rewrite IH; reflexivity.
Qed.

Lemma count_untouched_steps c (L : Lists) steps :
  forall d,
    (forall s, In s steps -> ~ In c (touches s)) ->
    count_occ string_dec (headers (fold_left (run_step L) steps d)) c
    = count_occ string_dec (headers d) c.
Proof.
  induction steps as [|s steps IH]; intros d Hc; cbn [fold_left]; [reflexivity|].
  rewrite IH by (intros s' Hs; apply Hc; right; exact Hs).
  apply count_untouched. apply Hc. left. reflexivity.
Qed.

Lemma map_fresh {A} (f : string * A -> string * A) col (cs : list (string * A)) :
  ~ In col (map fst cs) ->
  (forall c, fst c <> col -> f c = c) ->
  map f cs = cs.
Proof.
  intros Hno Hf. induction cs as [|c r IH]; cbn; [reflexivity|].
  rewrite Hf, IH; [reflexivity | |]; intros H; apply Hno; cbn; auto.
Qed.

Lemma existsb_fresh col (hs : list string) :
  ~ In col hs -> existsb (String.eqb col) hs = false.
Proof.
  intros Hno. apply not_true_is_false. intros H.
  apply existsb_exists in H as (h & Hin & Heq).
  apply String.eqb_eq in Heq. subst. contradiction.
Qed.

(** On a frame whose first columns have none of the headers a step names,
    the step works on the columns after them. *)
Lemma run_step_fresh (L : Lists) n cols K s :
  (forall h, In h (touches s) -> ~ In h (map fst cols)) ->
  run_step L {| nrows := n; columns := cols ++ K |} s
  = {| nrows := n;
       columns := cols ++ columns (run_step L {| nrows := n; columns := K |} s) |}.
Proof.
  intros Hfresh. destruct s as [col l | col | old new]; cbn [run_step touches] in *.
  - assert (Hcol : ~ In col (map fst cols)) by (apply Hfresh; simpl; auto).
    unfold assign, has_column, headers. cbn [nrows columns].
    rewrite map_app, existsb_app, (existsb_fresh _ _ Hcol). cbn [orb].
    destruct (existsb (String.eqb col) (map fst K)).
    + rewrite map_app. f_equal. f_equal.
      apply map_fresh with (col := col); [exact Hcol|].
      intros c Hc. destruct (String.eqb_spec (fst c) col); [contradiction | reflexivity].
    + rewrite <- app_assoc. reflexivity.
  - assert (Hcol : ~ In col (map fst cols)) by (apply Hfresh; simpl; auto).
    unfold del_if_present. cbn [nrows columns]. rewrite filter_app. f_equal. f_equal.
    clear Hfresh. induction cols as [|c r IH]; cbn; [reflexivity|].
    destruct (String.eqb_spec (fst c) col) as [Heq|Hne]; cbn.
    + exfalso. apply Hcol. cbn. auto.
    + rewrite IH; [reflexivity|]. intros H. apply Hcol. cbn. auto.
  - assert (Hold : ~ In old (map fst cols)) by (apply Hfresh; simpl; auto).
    unfold has_column, headers. cbn [nrows columns].
    rewrite map_app, existsb_app, (existsb_fresh _ _ Hold). cbn [orb].
    destruct (existsb (String.eqb old) (map fst K)); [|reflexivity].
    unfold rename_column. cbn [nrows columns]. rewrite map_app. f_equal. f_equal.
    apply map_fresh with (col := old); [exact Hold|].
    intros c Hc. destruct (String.eqb_spec (fst c) old); [contradiction | reflexivity].
Qed.

Lemma run_steps_fresh (L : Lists) n cols steps :
  forall K,
    (forall s h, In s steps -> In h (touches s) -> ~ In h (map fst cols)) ->
    fold_left (run_step L) steps {| nrows := n; columns := cols ++ K |}
    = {| nrows := n;
         columns :=
           cols ++ columns (fold_left (run_step L) steps
                              {| nrows := n; columns := K |}) |}.
Proof.
  induction steps as [|s steps IH]; intros K Hfresh; cbn [fold_left];
    [reflexivity|].
  rewrite run_step_fresh
    by (intros h Hh; apply (Hfresh s h); [left; reflexivity | exact Hh]).
  rewrite IH by (intros s' h Hs; apply Hfresh; right; exact Hs).
  do 3 f_equal.
  pose proof (nrows_run_step L {| nrows := n; columns := K |} s) as Hn.
  destruct (run_step L {| nrows := n; columns := K |} s) as [n' K'].
  cbn in *. subst. reflexivity.
Qed.

Lemma Ok_inj {A} (a b : A) : Ok a = Ok b -> a = b.
Proof. intros H. injection H as ->. reflexivity. Qed.

(** [process_controls] returns the frame the column steps make of the
    input, from lists that hold one entry per row. *)
Lemma process_controls_runs_the_steps df (w : W) :
  exists (L : Lists) w',
    process_controls client Cfg loads py_repr df w
    = (Ok (fold_left (run_step L) column_steps df), w')
    /\ forall l, length (L l) = nrows df.
Proof.
  destruct (process_controls_returns df w) as (L & df' & w' & Hrun & HL & Hadd).
  rewrite (add_result_columns_steps L df HL) in Hadd.
  apply Ok_inj in Hadd. subst df'. exists L, w'. split; assumption.
Qed.

Lemma steps_touch_rewritten_columns s h :
  In s column_steps -> In h (touches s) -> In h rewritten_columns.
Proof.
  intros Hs Hh.
  assert (Hin : In h (flat_map touches column_steps))
    by (apply in_flat_map; exists s; auto).
  revert Hin. apply incl_by_eqb. vm_compute. reflexivity.
Qed.

Lemma count_renamed old new (hs : list string) :
  old <> new ->
  count_occ string_dec
    (map (fun h => if (h =? old)%string then new else h) hs) new
  = count_occ string_dec hs new + count_occ string_dec hs old.
Proof.
  intros Hne. induction hs as [|h r IH]; cbn [map count_occ]; [reflexivity|].
  destruct (String.eqb_spec h old) as [Hold|Hold].
  - subst h. destruct (string_dec new new); [|congruence].
    destruct (string_dec old new); [congruence|].
    destruct (string_dec old old); [|congruence]. rewrite IH. lia.
  - destruct (string_dec h new) as [Hnew|Hnew].
    + destruct (string_dec h old); [congruence|]. rewrite IH. lia.
    + destruct (string_dec h old); [congruence | exact IH].
Qed.

Lemma find_column_renamed old new (cs : list (string * list pyval)) :
  find_column new
    (map (fun c => if (fst c =? old)%string then (new, snd c) else c) cs)
  = first_of (fun h => (h =? new)%string || (h =? old)%string) cs.
Proof.
  induction cs as [|[h cells] r IH]; cbn; [reflexivity|].
  destruct (String.eqb_spec h old) as [->|Hold]; cbn.
  - rewrite String.eqb_refl, orb_true_r. reflexivity.
  - rewrite orb_false_r. destruct (h =? new)%string; [reflexivity | exact IH].
Qed.

Lemma first_of_either c other (cs : list (string * list pyval)) :
  ~ In other (map fst cs) ->
  first_of (fun h => (h =? c)%string || (h =? other)%string) cs
  = find_column c cs.
Proof.
  intros Hno. induction cs as [|[h cells] r IH]; cbn; [reflexivity|].
  destruct (String.eqb_spec h other) as [->|Hne].
  - exfalso. apply Hno. cbn. auto.
  - rewrite orb_false_r. destruct (h =? c)%string; [reflexivity|].
    apply IH. intros H. apply Hno. cbn. auto.
Qed.

Lemma count_occ_absent (hs : list string) c :
  ~ In c hs -> count_occ string_dec hs c = 0.
Proof. apply count_occ_not_In. Qed.

(** X10.  The result of [process_controls] never has a column headed
    [Present], [Missing], [Source], [System/data dependencies: Explanation]
    or [Present & Missing]: columns of the input under these headers are
    removed, whatever they held. *)
Theorem process_controls_drops_stale_columns :
  forall df (w : W),
  exists df' w',
    process_controls client Cfg loads py_repr df w = (Ok df', w')
    /\ forall c, In c dropped_columns -> has_column c df' = false.
Proof.
  intros df w.
  destruct (process_controls_runs_the_steps df w) as (L & w' & Hrun & HL).
  eexists. exists w'. split; [exact Hrun|]. intros c Hc.
  apply has_column_false.
  apply absent_after_steps with (a := false); [discriminate|].
  cbn in Hc. destruct Hc as [<- | [<- | [<- | [<- | [<- | []]]]]];
    vm_compute; reflexivity.
Qed.

(** X11.  On an input that has none of the headers [process_controls]
    writes or removes, the result is the columns of the input, unchanged
    and in their order, followed by the sixteen output columns in the order
    of [output_columns], each holding one list of results. *)
Theorem fresh_input_gets_the_output_columns_appended :
  forall df (w : W),
    (forall c, In c rewritten_columns -> has_column c df = false) ->
    exists df' w' (L : Lists),
      process_controls client Cfg loads py_repr df w = (Ok df', w')
      /\ (forall l, length (L l) = nrows df)
      /\ columns df'
         = (columns df
            ++ map (fun cl => (fst cl, L (snd cl))) output_columns)%list.
Proof.
  intros df w Hfresh.
  destruct (process_controls_runs_the_steps df w) as (L & w' & Hrun & HL).
  eexists. exists w', L. split; [exact Hrun|]. split; [exact HL|].
  destruct df as [n cols]. cbn [nrows columns] in *.
  rewrite <- (app_nil_r cols) at 1.
  rewrite run_steps_fresh.
  - cbn [columns]. f_equal.
  - intros s h Hs Hh. apply has_column_false with (df := {| nrows := n; columns := cols |}).
    apply Hfresh. eapply steps_touch_rewritten_columns; eauto.
Qed.

(** A column assigned under a header the frame does not have, and renamed
    in the end to a header it has: the column that was there stays the
    first under that header, and there is one more. *)
Lemma renamed_beside_the_earlier_column (L : Lists) old new l middle df :
  old <> new ->
  has_column new df = true ->
  has_column old df = false ->
  (forall s h, In s middle -> In h (touches s) -> h <> old /\ h <> new) ->
  forall df',
    df' = fold_left (run_step L) (SetCol old l :: middle ++ [RenameCol old new]) df ->
    column new df' = column new df
    /\ count_occ string_dec (headers df') new
       = Datatypes.S (count_occ string_dec (headers df) new).
Proof.
  intros Hne Hhas Hno Hmid df' ->.
  cbn [fold_left]. rewrite fold_left_app. cbn [fold_left].
  remember (run_step L df (SetCol old l)) as df1 eqn:Hdf1.
  remember (fold_left (run_step L) middle df1) as df2 eqn:Hdf2.
  assert (Hcols1 : columns df1 = (columns df ++ [(old, L l)])%list).
  { subst df1. cbn [run_step]. unfold assign. cbn [columns].
    rewrite Hno. reflexivity. }
  assert (Hcount_old : count_occ string_dec (headers df2) old = 1).
  { subst df2. rewrite count_untouched_steps
      by (intros s Hs Hin; destruct (Hmid s _ Hs Hin); congruence).
    unfold headers. rewrite Hcols1, map_app, count_occ_app. cbn [map fst count_occ].
    rewrite count_occ_absent by (apply has_column_false; exact Hno).
    destruct (string_dec old old); [reflexivity | congruence]. }
  assert (Hcount_new : count_occ string_dec (headers df2) new
                       = count_occ string_dec (headers df) new).
  { subst df2. rewrite count_untouched_steps
      by (intros s Hs Hin; destruct (Hmid s _ Hs Hin); congruence).
    unfold headers. rewrite Hcols1, map_app, count_occ_app. cbn [map fst count_occ].
    destruct (string_dec old new); [congruence | lia]. }
  assert (Hold2 : has_column old df2 = true).
  { apply has_column_spec. apply (count_occ_In string_dec). rewrite Hcount_old. lia. }
  cbn [run_step]. rewrite Hold2. split.
  - unfold column, rename_column. cbn [columns].
    rewrite find_column_renamed. subst df2.
    rewrite first_of_untouched_steps.
    + rewrite Hcols1, first_of_app.
      rewrite first_of_either by (apply has_column_false; exact Hno).
      destruct (find_column new (columns df)) as [cells|] eqn:Hfind;
        [reflexivity|].
      exfalso. apply has_column_spec in Hhas. unfold headers in Hhas.
      clear - Hhas Hfind. induction (columns df) as [|[h cells] r IH];
        cbn [map fst In find_column] in *; [contradiction|].
      destruct (String.eqb_spec h new); [discriminate|].
      destruct Hhas as [Heq | Hin]; [contradiction | auto].
    + intros s h Hs Hh. destruct (Hmid s h Hs Hh) as [H1 H2].
      destruct (String.eqb_spec h new); [contradiction|].
      destruct (String.eqb_spec h old); [contradiction | reflexivity].
  - rewrite headers_rename, count_renamed by exact Hne.
    rewrite Hcount_old, Hcount_new. lia.
Qed.

Lemma column_steps_split :
  column_steps
  = (SetCol "Present & Missing" present_missing_list
     :: firstn 19 (tl column_steps)
     ++ [RenameCol "Present & Missing" present_missing_col])%list.
Proof. reflexivity. Qed.

Lemma middle_steps_leave_the_documented_column s h :
  In s (firstn 19 (tl column_steps)) ->
  In h (touches s) ->
  h <> "Present & Missing" /\ h <> present_missing_col.
Proof.
  intros Hs Hh.
  assert (Hin : In h (flat_map touches (firstn 19 (tl column_steps))))
    by (apply in_flat_map; exists s; auto).
  assert (Hall : forallb (fun h => negb (h =? "Present & Missing")%string
                                   && negb (h =? present_missing_col)%string)
                         (flat_map touches (firstn 19 (tl column_steps))) = true)
    by (vm_compute; reflexivity).
  rewrite forallb_forall in Hall. specialize (Hall h Hin).
  apply andb_true_iff in Hall as [H1 H2].
  apply negb_true_iff in H1, H2.
  split; intros Heq; subst h;
    [rewrite String.eqb_refl in H1 | rewrite String.eqb_refl in H2];
    discriminate.
Qed.

(** X12.  On an input that already has a column under the header of the
    documented-control column (as the result of an earlier run has),
    [process_controls] does not replace that column: its cells stay the
    first under the header, and the new results come as one more column
    with the same header. *)
Theorem rerun_keeps_the_earlier_column :
  forall df (w : W),
    has_column present_missing_col df = true ->
    has_column "Present & Missing" df = false ->
    exists df' w',
      process_controls client Cfg loads py_repr df w = (Ok df', w')
      /\ column present_missing_col df' = column present_missing_col df
      /\ count_occ string_dec (headers df') present_missing_col
         = Datatypes.S (count_occ string_dec (headers df) present_missing_col).
Proof.
  intros df w Hhas Hno.
  destruct (process_controls_runs_the_steps df w) as (L & w' & Hrun & HL).
  eexists. exists w'. split; [exact Hrun|].
  exact (renamed_beside_the_earlier_column L "Present & Missing"
           present_missing_col present_missing_list
           (firstn 19 (tl column_steps)) df ltac:(discriminate) Hhas Hno
           middle_steps_leave_the_documented_column _
           (f_equal (fun steps => fold_left (run_step L) steps df)
              column_steps_split)).
Qed.

End ResultColumns.

(* ================================================================== *)
(** ** Text around the object *)
(* ================================================================== *)

Lemma length_append (a b : string) :
  String.length (a ++ b) = String.length a + String.length b.
Proof. induction a as [|c a IH]; cbn; [reflexivity | rewrite IH; reflexivity]. Qed.

Lemma first_index_append c (a b : string) :
  first_index c a = None ->
  first_index c (a ++ b)
  = option_map (Nat.add (String.length a)) (first_index c b).
Proof.
  induction a as [|d a IH]; cbn [first_index String.append String.length].
  - intros _. destruct (first_index c b); reflexivity.
  - destruct (Ascii.eqb c d); [discriminate|].
    destruct (first_index c a) as [i|]; [discriminate|]. intros _.
    rewrite IH by reflexivity. destruct (first_index c b); reflexivity.
Qed.

Lemma last_index_append c (a b : string) :
  last_index c (a ++ b)
  = match last_index c b with
    | Some j => Some (String.length a + j)
    | None => last_index c a
    end.
Proof.
  induction a as [|d a IH]; cbn [last_index String.append String.length].
  - destruct (last_index c b); reflexivity.
  - rewrite IH. destruct (last_index c b); reflexivity.
Qed.

Lemma substring_after (a b : string) n :
  String.substring (String.length a) n (a ++ b) = String.substring 0 n b.
Proof. induction a as [|c a IH]; cbn; [reflexivity | exact IH]. Qed.

Lemma substring_head (m p : string) :
  String.substring 0 (String.length m) (m ++ p) = m.
Proof.
  induction m as [|c m IH]; cbn.
  - destruct p; reflexivity.
  - rewrite IH. reflexivity.
Qed.

Section TextAroundTheObject.

Lemma extract_json_from_response_result raw (w : World S) :
  fst (extract_json_from_response loads raw w)
  = Ok (loads (brace_to_brace (without_marker raw))).
Proof.
  unfold extract_json_from_response. fold (without_marker raw).
  rewrite brace_search_is_brace_to_brace.
  destruct (loads (brace_to_brace (without_marker raw))); reflexivity.
Qed.

Lemma brace_to_brace_of_object pre body post :
  first_index "{" pre = None ->
  last_index "}" post = None ->
  brace_to_brace (pre ++ String "{" (body ++ "}") ++ post)
  = String "{" (body ++ "}").
Proof.
  intros Hpre Hpost. unfold brace_to_brace.
  rewrite first_index_append by exact Hpre.
  rewrite last_index_append.
  cbn [String.append first_index last_index Ascii.eqb Bool.eqb option_map].
  rewrite last_index_append, Hpost, last_index_append.
  cbn [last_index Ascii.eqb Bool.eqb].
  destruct (Nat.ltb_spec (String.length pre + 0)
              (String.length pre + Datatypes.S (String.length body + 0)));
    [|lia].
  unfold Text.slice.
  replace (String.length pre + Datatypes.S (String.length body + 0)
           - (String.length pre + 0) + 1)
    with (String.length (String "{" (body ++ "}")))
    by (cbn [String.length]; rewrite length_append; cbn [String.length]; lia).
  rewrite Nat.add_0_r.
  change (String "{" ((body ++ "}") ++ post))
    with (String "{" (body ++ "}") ++ post).
  rewrite substring_after. apply substring_head.
Qed.

(** X13.  Whatever stands around the object is ignored by the parser:
    when the text (after the marker, if any) is an object between braces
    with, before it, a text without an opening brace and, after it, a text
    without a closing brace, the parser returns what the decoder makes of
    the object alone. *)
Theorem text_around_the_object_is_ignored :
  forall raw pre body post (w : World S),
    without_marker raw = pre ++ String "{" (body ++ "}") ++ post ->
    first_index "{" pre = None ->
    last_index "}" post = None ->
    fst (extract_json_from_response loads raw w)
    = Ok (loads (String "{" (body ++ "}"))).
Proof.
  intros raw pre body post w Hraw Hpre Hpost.
  rewrite extract_json_from_response_result, Hraw.
  rewrite (brace_to_brace_of_object pre body post Hpre Hpost). reflexivity.
Qed.

End TextAroundTheObject.

(* ================================================================== *)
(** ** The whole run *)
(* ================================================================== *)

Section WholeRun.

#[local] Abbreviation W := (World S).

Lemma required_columns_present df :
  filter (fun col => negb (has_column col df)) (REQUIRED_COLS Cfg) = []
  <-> forallb (fun c => has_column c df) (REQUIRED_COLS Cfg) = true.
Proof.
  induction (REQUIRED_COLS Cfg) as [|c r IH]; cbn; [tauto|].
  destruct (has_column c df); cbn; [exact IH|]. split; discriminate.
Qed.

Lemma load_and_validate_data_spec :
  forall sheet (w : W),
  exists w' t,
    load_and_validate_data Cfg sheet w
    = (match sheet with
       | Some df =>
           if forallb (fun c => has_column c df) (REQUIRED_COLS Cfg)
           then Ok df else Exit 1
       | None => Exit 1
       end, w')
    /\ trace w' = (trace w ++ t)%list
    /\ service w' = service w
    /\ calls_of t = []
    /\ saved_of t = [].
Proof.
  intros sheet w. unfold load_and_validate_data, try_except.
  unfold bind at 1, log at 1, emit at 1. cbn [fst snd].
  destruct sheet as [df|].
  - unfold bind at 1, ret at 1. cbv beta iota.
    pose proof (required_columns_present df) as Hreq.
    destruct (filter (fun col => negb (has_column col df)) (REQUIRED_COLS Cfg))
      as [|c r].
    + rewrite (proj1 Hreq eq_refl).
      unfold bind, log, emit, ret. cbn [fst snd service trace].
      eexists. eexists. split; [reflexivity|]. cbn [trace service].
      rewrite <- !app_assoc. split; [reflexivity|]. repeat split.
    + destruct (forallb (fun c => has_column c df) (REQUIRED_COLS Cfg));
        [destruct Hreq as [_ Hreq]; discriminate (Hreq eq_refl)|].
      unfold raise, bind, log, emit, sys_exit. cbn [fst snd service trace].
      eexists. eexists. split; [reflexivity|]. cbn [trace service].
      rewrite <- !app_assoc. split; [reflexivity|]. repeat split.
  - unfold bind, raise, log, emit, sys_exit. cbn [fst snd service trace].
    eexists. eexists. split; [reflexivity|]. cbn [trace service].
    rewrite <- !app_assoc. split; [reflexivity|]. repeat split.
Qed.

(** X14.  [load_and_validate_data] returns the frame it read, as it is,
    exactly when the file could be read and has every required column;
    when the file cannot be read or a required column is missing it exits
    with status 1 instead of raising.  It sends no request. *)
Theorem load_and_validate_data_accepts_or_exits :
  forall sheet (w : W),
  exists w' t,
    load_and_validate_data Cfg sheet w
    = (match sheet with
       | Some df =>
           if forallb (fun c => has_column c df) (REQUIRED_COLS Cfg)
           then Ok df else Exit 1
       | None => Exit 1
       end, w')
    /\ trace w' = (trace w ++ t)%list
    /\ service w' = service w
    /\ calls_of t = []
    /\ saved_of t = [].
Proof. exact load_and_validate_data_spec. Qed.

Lemma initialize_client_first_ping (w : W) res s1 :
  API_KEY Cfg <> placeholder_key ->
  0 < MAX_RETRIES Cfg ->
  create client (ping_request Cfg) (service w) = (res, s1) ->
  ping_outcome res = inl tt ->
  exists t,
    initialize_client client Cfg w
    = (Ok tt, {| service := s1; trace := trace w ++ t |})
    /\ calls_of t = [(ping_request Cfg, res)]
    /\ sleeps_of t = []
    /\ saved_of t = [].
Proof.
  intros Hkey Hmax Hc Hok. unfold initialize_client.
  destruct (String.eqb_spec (API_KEY Cfg) "YOUR_OPENAI_API_KEY_HERE") as [Heq|_];
    [contradiction|].
  destruct (MAX_RETRIES Cfg) as [|n] eqn:Hn; [lia|]. cbn [connection_attempts].
  destruct (existsb (String.eqb (MODEL Cfg)) (SUPPORTED_MODELS Cfg));
    unfold bind, log, emit, ret, chat_create; cbn [fst snd service trace];
    rewrite Hc, Hok; cbn [fst snd service trace]; rewrite <- !app_assoc;
    eexists; (split; [reflexivity|]); repeat split.
Qed.

(** What [process_controls] returns, with what it adds to the trace. *)
Lemma process_controls_run df (w : W) :
  exists df' w' t,
    process_controls client Cfg loads py_repr df w = (Ok df', w')
    /\ trace w' = (trace w ++ t)%list
    /\ length (calls_of t) <= 9 * MAX_RETRIES Cfg * nrows df
    /\ saved_of t = []
    /\ nrows df' = nrows df
    /\ forall c l, In (c, l) output_columns -> has_column c df' = true.
Proof.
  destruct (process_controls_returns df w) as (L & df' & w' & Hrun & HL & Hadd).
  destruct (spends_process_controls df w) as (t & Htr & Hlen & Hsv).
  rewrite Hrun in Htr. cbn [snd] in Htr.
  destruct (add_result_columns_spec L df HL) as (df'' & Hadd' & Hn & _ & Hout & _).
  rewrite Hadd in Hadd'. apply Ok_inj in Hadd'. subst df''.
  exists df', w', t. repeat (split; [assumption|]).
  intros c l Hin. apply has_column_spec. unfold headers.
  apply in_map_iff. exists (c, L l). split; [reflexivity | apply Hout, Hin].
Qed.

(** The three lines that open the log of [main]. *)
Ltac open_main :=
  unfold main, try_except;
  do 3 (unfold bind at 1; unfold log at 1, emit at 1; cbn [fst snd]).

Lemma main_spec sheet (w : W) :
  exists r w' t,
    main client Cfg loads py_repr sheet w = (r, w')
    /\ trace w' = (trace w ++ t)%list
    /\ ((r = Ok tt /\ exists df', saved_of t = [df'])
        \/ (r = Exit 1 /\ saved_of t = []))
    /\ (API_KEY Cfg = placeholder_key -> r = Exit 1 /\ calls_of t = []).
Proof.
  open_main.
  match goal with
  | |- context [bind (initialize_client client Cfg) ?k ?w1] =>
      destruct (initialize_client_spec w1) as (t1 & Htr1 & _ & _ & Hsv1 & Hend1);
      unfold bind at 1;
      destruct (initialize_client client Cfg w1) as [[[]|e|c] w2] eqn:Hinit
  end;
    cbn [fst snd trace] in *.
  - destruct Hend1 as [(_ & Hkey & _) | [(Hbad & _) | ((err & Hbad) & _)]];
      [|discriminate..].
    destruct (load_and_validate_data_spec sheet w2)
      as (w3 & t2 & Hload & Htr2 & _ & _ & Hsv2).
    unfold bind at 1. rewrite Hload.
    destruct sheet as [df|];
      [destruct (forallb (fun c => has_column c df) (REQUIRED_COLS Cfg))|].
    + destruct (process_controls_run df w3)
        as (df' & w4 & t3 & Hrun & Htr3 & _ & Hsv3 & _).
      unfold bind at 1. rewrite Hrun.
      unfold save_results_to_excel, bind, log, emit, ret.
      cbn [fst snd service trace].
      eexists. eexists. eexists. split; [reflexivity|].
      split; [|split; [left; split; [reflexivity|]|]].
      * cbn [trace]. rewrite Htr3, Htr2, Htr1, <- !app_assoc. reflexivity.
      * exists df'. rewrite !saved_of_app, Hsv1, Hsv2, Hsv3. reflexivity.
      * intros Heq. contradiction.
    + eexists. eexists. eexists. split; [reflexivity|].
      split; [|split; [right; split; [reflexivity|]|]].
      * rewrite Htr2, Htr1, <- !app_assoc. reflexivity.
      * rewrite !saved_of_app, Hsv1, Hsv2. reflexivity.
      * intros Heq. contradiction.
    + eexists. eexists. eexists. split; [reflexivity|].
      split; [|split; [right; split; [reflexivity|]|]].
      * rewrite Htr2, Htr1, <- !app_assoc. reflexivity.
      * rewrite !saved_of_app, Hsv1, Hsv2. reflexivity.
      * intros Heq. contradiction.
  - destruct Hend1 as [(Hbad & _) | [(Hbad & _) | (_ & Hkey & _)]];
      [discriminate..|].
    unfold bind, log, emit, sys_exit. cbn [fst snd service trace].
    eexists. eexists. eexists. split; [reflexivity|].
    split; [|split; [right; split; [reflexivity|]|]].
    + cbn [trace]. rewrite Htr1, <- !app_assoc. reflexivity.
    + rewrite !saved_of_app, Hsv1. reflexivity.
    + intros Heq. contradiction.
  - destruct Hend1 as [(Hbad & _) | [(Hexit & Hnone) | ((err & Hbad) & _)]];
      [discriminate| |discriminate].
    injection Hexit as ->.
    eexists. eexists. eexists. split; [reflexivity|].
    split; [|split; [right; split; [reflexivity|]|]].
    + rewrite Htr1, <- !app_assoc. reflexivity.
    + rewrite !saved_of_app, Hsv1. reflexivity.
    + intros Heq. split; [reflexivity|].
      rewrite !calls_of_app, (Hnone Heq). reflexivity.
Qed.

(** X15.  [main] never raises: it ends normally, and then it has handed
    exactly one frame over to be saved, or it exits with status 1.  It
    never hands over more than one frame.  With the placeholder key it
    exits before any request, and hands over none. *)
Theorem main_ends_or_exits :
  forall sheet (w : W),
  exists w' t,
    trace w' = (trace w ++ t)%list
    /\ ((main client Cfg loads py_repr sheet w = (Ok tt, w')
         /\ exists df', saved_of t = [df'])
        \/ main client Cfg loads py_repr sheet w = (Exit 1, w'))
    /\ length (saved_of t) <= 1
    /\ (API_KEY Cfg = placeholder_key ->
        main client Cfg loads py_repr sheet w = (Exit 1, w')
        /\ calls_of t = [] /\ saved_of t = []).
Proof.
  intros sheet w.
  destruct (main_spec sheet w) as (r & w' & t & Hrun & Htr & Hend & Hkey).
  exists w', t. split; [exact Htr|]. rewrite Hrun. split; [|split].
  - destruct Hend as [(-> & Hsv) | (-> & Hsv)]; [left | right]; auto.
  - destruct Hend as [(_ & df' & ->) | (_ & ->)]; simpl; lia.
  - intros Heq. destruct (Hkey Heq) as [-> Hcalls].
    split; [reflexivity|]. split; [exact Hcalls|].
    destruct Hend as [(Hbad & _) | (_ & Hsv)]; [discriminate | exact Hsv].
Qed.

(** X16.  When the key is set, the first ping succeeds and the input has
    every required column, [main] hands over exactly one frame to be saved,
    with as many rows as the input and the sixteen output columns.  The ping is its first request, and at most
    nine times [MAX_RETRIES] requests per record follow. *)
Theorem main_saves_the_analysed_table :
  forall df (w : W) res s1,
    API_KEY Cfg <> placeholder_key ->
    0 < MAX_RETRIES Cfg ->
    create client (ping_request Cfg) (service w) = (res, s1) ->
    ping_outcome res = inl tt ->
    forallb (fun c => has_column c df) (REQUIRED_COLS Cfg) = true ->
    exists r w' t df' rest,
      main client Cfg loads py_repr (Some df) w = (r, w')
      /\ trace w' = (trace w ++ t)%list
      /\ saved_of t = [df']
      /\ nrows df' = nrows df
      /\ (forall c l, In (c, l) output_columns -> has_column c df' = true)
      /\ calls_of t = (ping_request Cfg, res) :: rest
      /\ length rest <= 9 * MAX_RETRIES Cfg * nrows df.
Proof.
  intros df w res s1 Hkey Hmax Hc Hok Hreq. open_main.
  match goal with
  | |- context [bind (initialize_client client Cfg) ?k ?w1] =>
      destruct (initialize_client_first_ping w1 res s1 Hkey Hmax Hc Hok)
        as (t1 & Hinit & Hcalls1 & _ & Hsv1);
      unfold bind at 1; rewrite Hinit
  end.
  match goal with
  | |- context [bind (load_and_validate_data Cfg (Some df)) ?k ?w2] =>
      destruct (load_and_validate_data_spec (Some df) w2)
        as (w3 & t2 & Hload & Htr2 & _ & Hcalls2 & Hsv2);
      unfold bind at 1; rewrite Hload, Hreq
  end.
  destruct (process_controls_run df w3)
    as (df' & w4 & t3 & Hrun & Htr3 & Hlen3 & Hsv3 & Hn & Hcols).
  unfold bind at 1. rewrite Hrun.
  unfold save_results_to_excel, bind, log, emit, ret.
  cbn [fst snd service trace] in *.
  eexists. eexists. eexists. exists df', (calls_of t3).
  split; [reflexivity|]. cbn [trace]. rewrite Htr3, Htr2, <- !app_assoc.
  split; [reflexivity|].
  rewrite !saved_of_app, !calls_of_app, Hsv1, Hsv2, Hsv3, Hcalls1, Hcalls2.
  cbn [app saved_of calls_of flat_map]. rewrite app_nil_r.
  repeat split; assumption.
Qed.

(** X17.  The connection is validated before the input is read: when the
    first ping succeeds but the input cannot be read or lacks a required
    column, [main] exits with status 1 after that one request, and nothing
    is saved. *)
Theorem unusable_input_exits_after_the_ping :
  forall sheet (w : W) res s1,
    API_KEY Cfg <> placeholder_key ->
    0 < MAX_RETRIES Cfg ->
    create client (ping_request Cfg) (service w) = (res, s1) ->
    ping_outcome res = inl tt ->
    (sheet = None
     \/ exists df,
          sheet = Some df
          /\ forallb (fun c => has_column c df) (REQUIRED_COLS Cfg) = false) ->
    exists w' t,
      main client Cfg loads py_repr sheet w = (Exit 1, w')
      /\ trace w' = (trace w ++ t)%list
      /\ calls_of t = [(ping_request Cfg, res)]
      /\ saved_of t = [].
Proof.
  intros sheet w res s1 Hkey Hmax Hc Hok Hbad. open_main.
  match goal with
  | |- context [bind (initialize_client client Cfg) ?k ?w1] =>
      destruct (initialize_client_first_ping w1 res s1 Hkey Hmax Hc Hok)
        as (t1 & Hinit & Hcalls1 & _ & Hsv1);
      unfold bind at 1; rewrite Hinit
  end.
  match goal with
  | |- context [bind (load_and_validate_data Cfg sheet) ?k ?w2] =>
      destruct (load_and_validate_data_spec sheet w2)
        as (w3 & t2 & Hload & Htr2 & _ & Hcalls2 & Hsv2);
      unfold bind at 1; rewrite Hload
  end.
  assert (Hexit : match sheet with
                  | Some df =>
                      if forallb (fun c => has_column c df) (REQUIRED_COLS Cfg)
                      then Ok df else Exit 1
                  | None => Exit 1
                  end = Exit 1).
  { destruct Hbad as [-> | (df & -> & ->)]; reflexivity. }
  rewrite Hexit. cbn [fst snd service trace] in *.
  eexists. eexists. split; [reflexivity|]. rewrite Htr2, <- !app_assoc.
  split; [reflexivity|].
  rewrite !saved_of_app, !calls_of_app, Hsv1, Hsv2, Hcalls1, Hcalls2.
  split; reflexivity.
Qed.

End WholeRun.

(* ================================================================== *)
(** ** Records are analysed one by one *)
(* ================================================================== *)

Lemma alike_ret {St A} (R : St -> St -> Prop) (a : A) :
  alike R (ret a) (ret a).
Proof. intros s1 s2 H. split; [reflexivity | exact H]. Qed.

Lemma alike_bind {St A B} (R : St -> St -> Prop)
  (m1 m2 : M St A) (k1 k2 : A -> M St B) :
  alike R m1 m2 ->
  (forall a, alike R (k1 a) (k2 a)) ->
  alike R (bind m1 k1) (bind m2 k2).
Proof.
  intros Hm Hk s1 s2 H. unfold bind. destruct (Hm s1 s2 H) as [Hfst Hsnd].
  destruct (m1 s1) as [r1 t1], (m2 s2) as [r2 t2]. cbn [fst snd] in *.
  subst r2. destruct r1 as [a|e|c]; [apply Hk, Hsnd | |]; split; auto.
Qed.



Section OneByOne.

Hypothesis client_stateless : stateless.

#[local] Abbreviation W := (World S).


















End OneByOne.

(* ================================================================== *)
(** ** The list of supported models *)
(* ================================================================== *)

Section SupportedModels.

Lemma alike_traffic_log l1 t1 a1 l2 t2 a2 :
  alike same_traffic (@log S l1 t1 a1) (@log S l2 t2 a2).
Proof.
  intros w1 w2 (Hs & Hc & Hp). split; [reflexivity|].
  unfold log, emit, same_traffic. cbn [fst snd service trace].
  rewrite !calls_of_app, !sleeps_of_app, Hc, Hp. auto.
Qed.

Lemma alike_raise {St A} (R : St -> St -> Prop) e :
  alike R (@raise St A e) (@raise St A e).
Proof. intros s1 s2 H. split; [reflexivity | exact H]. Qed.

Lemma alike_traffic_sleep d : alike same_traffic (@sleep S d) (@sleep S d).
Proof.
  unfold sleep.
  destruct (Qle_bool (- sleep_limit) d && Qle_bool d sleep_limit);
    [destruct (Qle_bool 0 d)|]; try apply alike_raise.
  intros w1 w2 (Hs & Hc & Hp). split; [reflexivity|].
  unfold emit, same_traffic. cbn [fst snd service trace].
  rewrite !calls_of_app, !sleeps_of_app, Hc, Hp. auto.
Qed.

Lemma alike_traffic_backoff models attempt :
  alike same_traffic
    (@backoff S Cfg attempt)
    (@backoff S (with_supported_models models Cfg) attempt).
Proof.
  unfold backoff. cbn [RETRY_DELAY with_supported_models].
  destruct (attempt <? float_exponents);
    first [apply alike_ret | apply alike_raise].
Qed.

Lemma alike_traffic_chat_create r :
  alike same_traffic (chat_create client r) (chat_create client r).
Proof.
  intros w1 w2 (Hs & Hc & Hp). unfold chat_create. rewrite Hs.
  destruct (create client r (service w2)) as [res s1].
  split; [reflexivity|]. unfold same_traffic. cbn [fst snd service trace].
  rewrite !calls_of_app, !sleeps_of_app, Hc, Hp. auto.
Qed.

Lemma alike_exit {St A} (R : St -> St -> Prop) code :
  alike R (@sys_exit St A code) (@sys_exit St A code).
Proof. intros s1 s2 H. split; [reflexivity | exact H]. Qed.

(** One step of the start-up validation under either list. *)
Ltac alike_traffic :=
  repeat
    lazymatch goal with
    | |- alike _ (log _ _ _) (log _ _ _) => apply alike_traffic_log
    | |- alike _ (sleep _) (sleep _) => apply alike_traffic_sleep
    | |- alike _ (backoff _ _) (backoff _ _) => apply alike_traffic_backoff
    | |- alike _ (chat_create _ _) (chat_create _ _) =>
        apply alike_traffic_chat_create
    | |- alike _ (sys_exit _) (sys_exit _) => apply alike_exit
    | |- alike _ (ret _) (ret _) => apply alike_ret
    | |- alike _ (bind _ _) (bind _ _) => apply alike_bind; [|intros ?]
    | |- alike _ (match ?x with _ => _ end) (match ?x with _ => _ end) =>
        destruct x
    end.

Lemma alike_connection_attempts models n :
  forall attempt,
    alike same_traffic
      (connection_attempts client Cfg n attempt)
      (connection_attempts client (with_supported_models models Cfg) n attempt).
Proof.
  induction n as [|n IH]; intros attempt; cbn [connection_attempts].
  - alike_traffic.
  - cbn [MAX_RETRIES RETRY_DELAY MAX_RETRY_DELAY MODEL with_supported_models].
    change (ping_request (with_supported_models models Cfg))
      with (ping_request Cfg).
    repeat first [apply IH | progress alike_traffic].
Qed.

(** X19.  The list of supported models is advisory: whether or not the
    model is on it, the start-up validation ends the same way, after the
    same requests and the same pauses, with the service in the same state;
    only the log differs. *)
Theorem supported_models_are_advisory :
  forall models (w : World S),
    fst (initialize_client client (with_supported_models models Cfg) w)
    = fst (initialize_client client Cfg w)
    /\ same_traffic
         (snd (initialize_client client (with_supported_models models Cfg) w))
         (snd (initialize_client client Cfg w)).
Proof.
  intros models w.
  assert (H : alike same_traffic
                (initialize_client client Cfg)
                (initialize_client client (with_supported_models models Cfg))).
  { unfold initialize_client.
    cbn [API_KEY MODEL BASE_URL SUPPORTED_MODELS MAX_RETRIES with_supported_models].
    destruct (API_KEY Cfg =? "YOUR_OPENAI_API_KEY_HERE")%string.
    - alike_traffic.
    - apply alike_bind; [|intros _].
      + destruct (existsb (String.eqb (MODEL Cfg)) (SUPPORTED_MODELS Cfg)),
                 (existsb (String.eqb (MODEL Cfg)) models).
        * apply alike_ret.
        * intros w1 w2 Hw. split; [reflexivity|].
          unfold same_traffic, bind, log, emit, ret in *.
          cbn [fst snd service trace] in *.
          destruct Hw as (Hs & Hc & Hp).
          rewrite !calls_of_app, !sleeps_of_app. cbn. rewrite !app_nil_r. auto.
        * intros w1 w2 Hw. split; [reflexivity|].
          unfold same_traffic, bind, log, emit, ret in *.
          cbn [fst snd service trace] in *.
          destruct Hw as (Hs & Hc & Hp).
          rewrite !calls_of_app, !sleeps_of_app. cbn. rewrite !app_nil_r. auto.
        * alike_traffic.
      + apply alike_bind; [apply alike_traffic_log | intros _].
        apply alike_bind; [apply alike_traffic_log | intros _].
        apply alike_connection_attempts. }
  destruct (H w w) as [Hfst Hsnd]; [repeat split|].
  split; [symmetry; exact Hfst|].
  destruct Hsnd as (Hs & Hc & Hp). repeat split; symmetry; assumption.
Qed.

End SupportedModels.

(* ================================================================== *)
(** ** A run without a single answer *)
(* ================================================================== *)

Lemma triple_pure {St A} (phi : Prop) (P : St -> Prop) (m : M St A) Q E :
  (phi -> triple P m Q E) ->
  triple (fun st => phi /\ P st) m Q E.
Proof. intros H st [Hphi HP]. apply (H Hphi st HP). Qed.

Section NoAnswer.

(** The executor gives up on every call, after [k] requests. *)
Variable k : nat.
Hypothesis executor_gives_up :
  forall p sc (w : World S),
  exists w' t,
    make_llm_call_with_retry client Cfg p sc w = (Ok None, w')
    /\ trace w' = (trace w ++ t)%list
    /\ length (calls_of t) = k.

#[local] Abbreviation W := (World S).

Lemma json_operation_outage {A} p (markers : A) read (w : W) :
  exists w' t,
    json_operation p markers read w = (Ok markers, w')
    /\ trace w' = (trace w ++ t)%list
    /\ length (calls_of t) = k.
Proof.
  destruct (executor_gives_up p default_system_content w)
    as (w' & t & Hcall & Htr & Hlen).
  exists w', t. split; [|split; assumption].
  apply json_operation_no_text with (raw := None); [exact Hcall | reflexivity].
Qed.

Lemma ask_expected_evidence_outage c (w : W) :
  exists w' t,
    ask_expected_evidence client Cfg py_repr c w = (Ok "LLM error", w')
    /\ trace w' = (trace w ++ t)%list
    /\ length (calls_of t) = k.
Proof.
  unfold ask_expected_evidence.
  match goal with
  | |- context [make_llm_call_with_retry client Cfg ?p ?sc] =>
      destruct (executor_gives_up p sc w) as (w' & t & Hcall & Htr & Hlen)
  end.
  exists w', t. split; [|split; assumption].
  unfold bind. rewrite Hcall. reflexivity.
Qed.

Lemma outage_lift {A} w0 calls n done idx (m : M W A) (v : A) :
  (forall w, exists w' t,
      m w = (Ok v, w') /\ trace w' = (trace w ++ t)%list
      /\ length (calls_of t) = n) ->
  triple (outage_stage w0 calls done idx) (lift m)
         (fun a st => a = v /\ outage_stage w0 (calls + n) done idx st)
         (fun _ => False).
Proof.
  intros Hm [L w] (HL & t0 & Htr0 & Hlen0). unfold lift. cbn [fst snd] in *.
  destruct (Hm w) as (w' & t & -> & Htr & Hlen).
  split; [reflexivity|]. split; [exact HL|]. cbn [snd].
  exists (t0 ++ t)%list. rewrite Htr, Htr0, app_assoc.
  split; [reflexivity|]. rewrite calls_of_app, length_app. lia.
Qed.

Lemma outage_log w0 calls done idx l tpl a :
  triple (outage_stage w0 calls done idx) (lift (@log S l tpl a))
         (fun _ => outage_stage w0 calls done idx) (fun _ => False).
Proof.
  intros [L w] (HL & t0 & Htr0 & Hlen0). unfold lift, log, emit.
  cbn [fst snd service trace] in *. split; [exact HL|].
  eexists. rewrite Htr0, <- app_assoc. split; [reflexivity|].
  rewrite calls_of_app, length_app. cbn. lia.
Qed.

Lemma outage_row_item w0 calls done idx df col :
  well_formed df ->
  has_column col df = true ->
  idx < nrows df ->
  triple (outage_stage w0 calls done idx)
         (@row_item (Lists * W) df idx col)
         (fun _ => outage_stage w0 calls done idx) (fun _ => False).
Proof.
  intros Hwf Hhas Hidx st HP. unfold row_item.
  destruct (column_present col df idx Hwf Hhas Hidx) as (cells & v & -> & ->).
  exact HP.
Qed.

Lemma outage_append w0 calls done idx l v :
  done l = false ->
  v = outage_entry l ->
  triple (outage_stage w0 calls done idx) (@append S l v)
         (fun _ =>
            outage_stage w0 calls
              (fun l' => result_list_eqb l l' || done l') idx)
         (fun _ => False).
Proof.
  intros Hl -> [L w] (HP & Ht). split; [|exact Ht].
  intros l'. specialize (HP l'). cbn [fst snd append] in *.
  destruct (result_list_eqb_spec l l') as [<-|Hne]; cbn [orb]; [|exact HP].
  rewrite HP, Hl. rewrite <- repeat_cons. reflexivity.
Qed.

(** An operation of [analyse_record] without an answer, with what it
    returns. *)
Ltac outage_operation :=
  intros ?;
  first
    [ apply ask_expected_evidence_outage
    | shape_of_operation; apply json_operation_outage ].

Ltac outage_record Hwf Hcols Hidx :=
  repeat
    lazymatch goal with
    | |- triple _ (bind (lift _) _) _ _ =>
        eapply triple_bind;
        [ apply outage_lift; outage_operation
        | let x := fresh "x" in
          intros x; apply triple_pure; intros ->; cbv beta iota zeta ]
    | |- triple _ (bind (row_item _ _ _) _) _ _ =>
        eapply triple_bind;
        [ apply outage_row_item;
          [exact Hwf | apply Hcols; cbn; tauto | exact Hidx]
        | intros ?; cbv beta ]
    | |- triple _ (bind (append _ _) _) _ _ =>
        eapply triple_bind;
        [ apply outage_append; reflexivity | intros ?; cbv beta ]
    end.

Lemma analyse_record_outage w0 calls df idx control_name :
  well_formed df ->
  (forall c, In c read_columns -> has_column c df = true) ->
  idx < nrows df ->
  triple (outage_stage w0 calls (fun _ => false) idx)
         (analyse_record client Cfg loads py_repr df idx control_name)
         (fun _ => outage_stage w0 (calls + 9 * k) (fun _ => true) idx)
         (fun _ => False).
Proof.
  intros Hwf Hcols Hidx. unfold analyse_record.
  outage_record Hwf Hcols Hidx.
  eapply triple_conseq.
  - apply outage_log.
  - intros st H. exact H.
  - intros ? st (HL & t & Htr & Hlen). split.
    + intros l. specialize (HL l). destruct l; exact HL.
    + exists t. split; [exact Htr | lia].
  - intros st H. exact H.
Qed.

Lemma process_record_outage w0 calls df total idx :
  well_formed df ->
  (forall c, In c read_columns -> has_column c df = true) ->
  idx < nrows df ->
  triple (outage_stage w0 calls (fun _ => false) idx)
         (process_record client Cfg loads py_repr df total idx)
         (fun _ =>
            outage_stage w0 (calls + 9 * k) (fun _ => false) (Datatypes.S idx))
         (fun _ => False).
Proof.
  intros Hwf Hcols Hidx. unfold process_record.
  eapply triple_bind; [apply outage_log | intros ?; cbv beta].
  eapply triple_try with (E1 := fun _ => False).
  - eapply triple_conseq;
      [ apply analyse_record_outage; assumption
      | intros st H; exact H
      | intros ? st [HL Ht]; split; [intros l; apply (HL l) | exact Ht]
      | intros st H; exact H ].
  - intros err st [].
Qed.

Lemma records_loop_outage w0 df total n :
  well_formed df ->
  (forall c, In c read_columns -> has_column c df = true) ->
  forall start calls,
    start + n <= nrows df ->
    triple (outage_stage w0 calls (fun _ => false) start)
           (for_each (seq start n)
              (process_record client Cfg loads py_repr df total))
           (fun _ =>
              outage_stage w0 (calls + 9 * k * n) (fun _ => false) (start + n))
           (fun _ => False).
Proof.
  intros Hwf Hcols. induction n as [|n IH]; intros start calls Hle;
    cbn [seq for_each].
  - intros st (HL & t & Htr & Hlen). split.
    + intros l. rewrite Nat.add_0_r. apply HL.
    + exists t. split; [exact Htr | lia].
  - eapply triple_bind; [apply process_record_outage; [assumption..|lia]|].
    intros ?; cbv beta.
    eapply triple_conseq;
      [ apply (IH (Datatypes.S start) (calls + 9 * k)); lia
      | intros st H; exact H | | intros st H; exact H ].
    intros ? st (HL & t & Htr & Hlen). split.
    + intros l. rewrite (HL l). f_equal. lia.
    + exists t. split; [exact Htr | lia].
Qed.

(** When the executor gives up on every call, [process_controls] returns
    the table of the markers, after nine calls per record. *)
Lemma outage_table df (w : W) :
  well_formed df ->
  (forall c, In c read_columns -> has_column c df = true) ->
  exists df' w' t,
    process_controls client Cfg loads py_repr df w = (Ok df', w')
    /\ trace w' = (trace w ++ t)%list
    /\ length (calls_of t) = 9 * k * nrows df
    /\ nrows df' = nrows df
    /\ forall c l, In (c, l) output_columns ->
                   In (c, repeat (outage_entry l) (nrows df)) (columns df').
Proof.
  intros Hwf Hcols. unfold process_controls, bind at 1, log, emit.
  cbn [fst snd]. unfold bind at 1, with_lists.
  match goal with
  | |- context [for_each ?xs ?body (empty_lists, ?w1)] =>
      assert (Hstart : outage_stage w 0 (fun _ => false) 0 (empty_lists, w1))
        by (split; [intros l; reflexivity
                   | eexists; split; [reflexivity | reflexivity]]);
      pose proof (records_loop_outage w df (nrows df) (nrows df) Hwf Hcols 0 0
                    (le_n _) (empty_lists, w1) Hstart) as Hloop;
      destruct (for_each xs body (empty_lists, w1)) as [[[]|err|c] [L w2]]
  end; try contradiction.
  destruct Hloop as (HL & t & Htr & Hcount). cbn [fst snd Nat.add] in *.
  assert (Hlen : forall l, length (L l) = nrows df)
    by (intros l; rewrite HL; apply repeat_length).
  destruct (add_result_columns_spec L df Hlen) as (df' & Hadd & Hn & _ & Hout & _).
  unfold of_res, bind, ret. rewrite Hadd. cbn [fst snd service trace].
  eexists. eexists. eexists. split; [reflexivity|]. cbn [trace].
  rewrite Htr, <- app_assoc. split; [reflexivity|].
  rewrite calls_of_app, length_app. cbn [calls_of flat_map length app].
  split; [lia|]. split; [exact Hn|].
  intros c l Hin. rewrite <- HL. apply Hout, Hin.
Qed.

End NoAnswer.

Section NonRetryable.


End NonRetryable.

Section Outage.

Variable res : api_result.
Variable e : string.
Hypothesis in_range : settings_in_range Cfg = true.
Hypothesis service_down : keeps_answering res.
Hypothesis no_answer : first_content res = inr e.

Lemma executor_gives_up_after p sc (w : World S) :
  exists w' t,
    make_llm_call_with_retry client Cfg p sc w = (Ok None, w')
    /\ trace w' = (trace w ++ t)%list
    /\ length (calls_of t) = attempts_made e.
Proof.
  unfold attempts_made, make_llm_call_with_retry.
  destruct (classify e) eqn:Hcls.
  - destruct (llm_attempts_rate_limited (request_of p sc) res e in_range
                service_down no_answer Hcls (MAX_RETRIES Cfg) 0 w (le_n _))
      as (w' & t & Hrun & Htr & Hcalls & _).
    exists w', t. split; [exact Hrun|]. split; [exact Htr|].
    rewrite Hcalls. apply repeat_length.
  - destruct (MAX_RETRIES Cfg) as [|n] eqn:Hmax.
    + exists w, []. cbn. rewrite app_nil_r. auto.
    + destruct (keeps_answering_create res (request_of p sc) w service_down)
        as (s1 & Hc).
      destruct (llm_attempts_no_pause (request_of p sc) n 0 w res s1 e Hc no_answer)
        as (pre & Hpre & Hno).
      rewrite Hcls in Hno. unfold request_of in *. rewrite Hno.
      eexists. exists pre. split; [reflexivity|]. split; [reflexivity|].
      rewrite Hpre. reflexivity.
  - destruct (MAX_RETRIES Cfg) as [|n] eqn:Hmax.
    + exists w, []. cbn. rewrite app_nil_r. auto.
    + destruct (keeps_answering_create res (request_of p sc) w service_down)
        as (s1 & Hc).
      destruct (llm_attempts_no_pause (request_of p sc) n 0 w res s1 e Hc no_answer)
        as (pre & Hpre & Hno).
      rewrite Hcls in Hno. unfold request_of in *. rewrite Hno.
      eexists. exists pre. split; [reflexivity|]. split; [reflexivity|].
      rewrite Hpre. reflexivity.
  - destruct (llm_attempts_other_error (request_of p sc) res e in_range
                service_down no_answer Hcls (MAX_RETRIES Cfg) 0 w eq_refl)
      as (w' & t & Hrun & Htr & Hcalls & _).
    exists w', t. split; [exact Hrun|]. split; [exact Htr|].
    rewrite Hcalls. apply repeat_length.
Qed.

(** X20.  When no request gets an answer during the whole run (the
    service keeps failing, in whatever way) and the retry settings are in
    range, [process_controls] on a well-formed frame that has the columns
    it reads still returns the table: every row holds "LLM error" in each
    output column, except the documented-control column, which holds the
    headings [Present:] and [Missing:] with "LLM error" under the second,
    and [Suggestions], which is empty.  Each of the nine operations of each
    record has sent its whole budget of requests when the failure is one
    that is retried, and one request when it is not. *)
Theorem outage_fills_the_table_with_markers :
  forall df (w : World S),
    well_formed df ->
    (forall c, In c read_columns -> has_column c df = true) ->
    exists df' w' t,
      process_controls client Cfg loads py_repr df w = (Ok df', w')
      /\ trace w' = (trace w ++ t)%list
      /\ length (calls_of t) = 9 * attempts_made e * nrows df
      /\ nrows df' = nrows df
      /\ forall c l, In (c, l) output_columns ->
                     In (c, repeat (outage_entry l) (nrows df)) (columns df').
Proof.
  intros df w Hwf Hcols.
  exact (outage_table (attempts_made e) executor_gives_up_after df w Hwf Hcols).
Qed.

End Outage.

End Facts.

(* ================================================================== *)
(** ** The theorems on the samples *)
(* ================================================================== *)

Module OnSamples.
Import Sample Text.

Lemma one_control_well_formed : well_formed one_control.
Proof. repeat constructor. Qed.



(** A cell need not be a text: a JSON null under [answer] is taken over as
    it is, and the cell of the record holds [None]. *)
Lemma null_answer_leaves_a_none_cell :
  exists df',
    fst (process_controls null_answer cfg Json.loads repr one_control
           (start tt)) = Ok df'
    /\ column objective_col df' = Some [PNone]
    /\ column "Control objective: Explanation" df' = Some [PStr "n/a"].
Proof. eexists. split; [vm_compute; reflexivity|]. split; reflexivity. Qed.

Lemma timing_out_executor_fails op :
  executor_fails timing_out cfg repr op inputs (start tt).
Proof.
  unfold executor_fails.
  destruct op; eexists; eexists;
    (split; [vm_compute; reflexivity | reflexivity]).
Qed.

(** With the service down, the objective operation answers "LLM error"
    under both keys. *)
Lemma failure_markers_of_each_operation_witness :
  (executor_fails timing_out cfg repr ObjectiveFit inputs (start tt)
   \/ (ObjectiveFit <> ExpectedEvidence
       /\ parser_gives timing_out cfg Json.loads repr ObjectiveFit inputs
            (start tt) None))
  /\ fst (run_operation timing_out cfg Json.loads repr ObjectiveFit inputs
            (start tt))
     = Ok [("answer", LLM_error); ("explanation", LLM_error)].
Proof.
  assert (H : executor_fails timing_out cfg repr ObjectiveFit inputs (start tt)
              \/ (ObjectiveFit <> ExpectedEvidence
                  /\ parser_gives timing_out cfg Json.loads repr ObjectiveFit
                       inputs (start tt) None))
    by (left; apply timing_out_executor_fails).
  split; [exact H|].
  exact (proj1 (failure_markers_of_each_operation timing_out cfg Json.loads repr
                  ObjectiveFit inputs (start tt) H)).
Defined.

(** C3, as stated, fails for Completeness: with the service down it answers
    the empty string, not "LLM error", under [present] and [suggestions]. *)
Lemma completeness_failure_is_not_uniform :
  ~ (forall op,
        executor_fails timing_out cfg repr op inputs (start tt) ->
        fst (run_operation timing_out cfg Json.loads repr op inputs (start tt))
        = Ok (map (fun k => (k, LLM_error)) (expected_keys op))).
Proof.
  intros H. specialize (H Completeness (timing_out_executor_fails Completeness)).
  vm_compute in H. discriminate.
Qed.

Lemma only_answer_parses :
  parser_gives only_answer cfg Json.loads repr ObjectiveFit inputs (start tt)
    (Some (PDict [("answer", PStr "Yes")])).
Proof.
  unfold parser_gives. eexists. eexists.
  split; [vm_compute; reflexivity|]. split; [reflexivity|].
  vm_compute. reflexivity.
Qed.

(** An object with only [answer]: that answer, and "LLM error" for the
    explanation. *)
Lemma absent_keys_default_one_by_one_witness :
  ObjectiveFit <> ExpectedEvidence
  /\ parser_gives only_answer cfg Json.loads repr ObjectiveFit inputs (start tt)
       (Some (PDict [("answer", PStr "Yes")]))
  /\ [("answer", PStr "Yes")] <> []
  /\ fst (run_operation only_answer cfg Json.loads repr ObjectiveFit inputs
            (start tt))
     = Ok [("answer", PStr "Yes"); ("explanation", LLM_error)].
Proof.
  assert (H1 : ObjectiveFit <> ExpectedEvidence) by discriminate.
  assert (H3 : [("answer", PStr "Yes")] <> @nil (string * pyval)) by discriminate.
  split; [exact H1|]. split; [exact only_answer_parses|]. split; [exact H3|].
  exact (proj1 (absent_keys_default_one_by_one only_answer cfg Json.loads repr
                  ObjectiveFit inputs (start tt) [("answer", PStr "Yes")]
                  H1 only_answer_parses H3)).
Defined.

Lemma only_present_parses :
  parser_gives only_present cfg Json.loads repr Completeness inputs (start tt)
    (Some (PDict [("present", PDict [("Who", PStr "Manager")])])).
Proof.
  unfold parser_gives. eexists. eexists.
  split; [vm_compute; reflexivity|]. split; [reflexivity|].
  vm_compute. reflexivity.
Qed.

(** C4, as stated, fails for Completeness: for an object with only
    [present], the absent [missing] reads as the empty string, not as an
    error marker. *)
Lemma completeness_absent_key_is_not_an_error_marker :
  ~ (forall op d k,
        op <> ExpectedEvidence ->
        parser_gives only_present cfg Json.loads repr op inputs (start tt)
          (Some (PDict d)) ->
        d <> [] ->
        In k (expected_keys op) ->
        dict_find k d = None ->
        exists fields,
          fst (run_operation only_present cfg Json.loads repr op inputs
                 (start tt)) = Ok fields
          /\ dict_find k fields = Some LLM_error).
Proof.
  intros H.
  destruct (H Completeness [("present", PDict [("Who", PStr "Manager")])]
              "missing") as (fields & Hrun & Hmissing).
  - discriminate.
  - exact only_present_parses.
  - discriminate.
  - simpl. auto.
  - reflexivity.
  - vm_compute in Hrun. injection Hrun as <-. vm_compute in Hmissing.
    discriminate.
Qed.


Lemma helpful_is_stateless : stateless (replying helpful).
Proof. exists helpful. intros r s. reflexivity. Qed.

(** Two runs over the two sample controls give the same table. *)
Lemma process_controls_twice_same_table_witness :
  stateless (replying helpful)
  /\ let first_run :=
       process_controls (replying helpful) cfg Json.loads repr two_controls
         (start tt) in
     let second_run :=
       process_controls (replying helpful) cfg Json.loads repr two_controls
         (snd first_run) in
     fst second_run = fst first_run.
Proof.
  split; [exact helpful_is_stateless|].
  exact (proj2 (process_controls_twice_same_table (replying helpful) cfg
                  Json.loads repr helpful_is_stateless two_controls (start tt))).
Defined.

Lemma empty_object_parses :
  parser_gives empty_object cfg Json.loads repr ObjectiveFit inputs (start tt)
    (Some (PDict [])).
Proof.
  unfold parser_gives. eexists. eexists.
  split; [vm_compute; reflexivity|]. split; [reflexivity|].
  vm_compute. reflexivity.
Qed.

(** The empty object: "LLM error" under both keys. *)
Lemma empty_object_is_treated_as_parse_failure_witness :
  ObjectiveFit <> ExpectedEvidence
  /\ parser_gives empty_object cfg Json.loads repr ObjectiveFit inputs (start tt)
       (Some (PDict []))
  /\ (Some (PDict []) = Some (PDict []) \/ Some (PDict []) = @None pyval)
  /\ fst (run_operation empty_object cfg Json.loads repr ObjectiveFit inputs
            (start tt))
     = Ok (failure_markers ObjectiveFit).
Proof.
  assert (H1 : ObjectiveFit <> ExpectedEvidence) by discriminate.
  assert (H3 : Some (PDict []) = Some (PDict []) \/ Some (PDict []) = @None pyval)
    by (left; reflexivity).
  split; [exact H1|]. split; [exact empty_object_parses|]. split; [exact H3|].
  exact (empty_object_is_treated_as_parse_failure empty_object cfg Json.loads
           repr ObjectiveFit inputs (start tt) (Some (PDict []))
           H1 empty_object_parses H3).
Defined.

(** The first sample control: the overall rating starts where the seven
    operations before it end, on their answers. *)
Lemma overall_rating_runs_after_its_prerequisites_witness :
  read_once one_control = true
  /\ cell one_control 0 "Control Description" = Some (PStr "Manager reviews reports")
  /\ cell one_control 0 "Risk Description" = Some (PStr "Fraud")
  /\ cell one_control 0 "Automation" = Some (PStr "Manual")
  /\ cell one_control 0 "Detective/ Preventive" = Some (PStr "Detective")
  /\ cell one_control 0 "Operation Frequency" = Some (PStr "Monthly")
  /\ exists w7 L7,
       prerequisites (replying helpful) cfg Json.loads repr
         (PStr "Manager reviews reports") (PStr "Fraud") (PStr "Manual")
         (PStr "Detective") (PStr "Monthly") (start tt)
       = (Ok ("• Who: Manager", "• When: No timeline",
              (PStr "Yes", PStr "Yes", PStr "Yes", PStr "Yes", PStr "SAP"),
              PStr "Yes"), w7)
       /\ analyse_record (replying helpful) cfg Json.loads repr one_control 0
            (PStr "C1") (empty_lists, start tt)
          = bind
              (lift
                 (ask_overall_rating (replying helpful) cfg Json.loads repr
                    (overall_row (PStr "Yes") (PStr "Yes") (PStr "Yes")
                       (PStr "Yes") (PStr "SAP"))
                    "• Who: Manager" "• When: No timeline" (PStr "Yes")))
              (after_overall_rating (replying helpful) cfg repr one_control 0
                 (PStr "C1"))
              (L7, w7)
       /\ exists t8,
            trace
              (snd (ask_overall_rating (replying helpful) cfg Json.loads repr
                      (overall_row (PStr "Yes") (PStr "Yes") (PStr "Yes")
                         (PStr "Yes") (PStr "SAP"))
                      "• Who: Manager" "• When: No timeline" (PStr "Yes") w7))
            = (trace w7 ++ t8)%list
            /\ Forall
                 (fun c =>
                    req_user (fst c)
                    = Text.join Text.nl
                        (overall_rating_lines repr (PStr "Yes") (PStr "Yes")
                           (PStr "Yes") (PStr "Yes") (PStr "SAP")
                           "• Who: Manager" "• When: No timeline"))
                 (calls_of t8).
Proof.
  assert (H0 : read_once one_control = true) by reflexivity.
  assert (H1 : cell one_control 0 "Control Description"
               = Some (PStr "Manager reviews reports")) by reflexivity.
  assert (H2 : cell one_control 0 "Risk Description" = Some (PStr "Fraud"))
    by reflexivity.
  assert (H3 : cell one_control 0 "Automation" = Some (PStr "Manual"))
    by reflexivity.
  assert (H4 : cell one_control 0 "Detective/ Preventive"
               = Some (PStr "Detective")) by reflexivity.
  assert (H5 : cell one_control 0 "Operation Frequency" = Some (PStr "Monthly"))
    by reflexivity.
  repeat (split; [assumption|]).
  pose proof (overall_rating_runs_after_its_prerequisites (replying helpful) cfg
                Json.loads repr one_control 0 (PStr "C1") _ _ _ _ _
                empty_lists (start tt) H0 H1 H2 H3 H4 H5) as T.
  assert (Hp : exists w7,
             prerequisites (replying helpful) cfg Json.loads repr
               (PStr "Manager reviews reports") (PStr "Fraud") (PStr "Manual")
               (PStr "Detective") (PStr "Monthly") (start tt)
             = (Ok ("• Who: Manager", "• When: No timeline",
                    (PStr "Yes", PStr "Yes", PStr "Yes", PStr "Yes", PStr "SAP"),
                    PStr "Yes"), w7))
    by (eexists; vm_compute; reflexivity).
  destruct Hp as (w7 & Hp). rewrite Hp in T.
  destruct T as ((L7 & Heq) & _ & Hprompt). exists w7, L7.
  split; [exact Hp|]. split; [exact Heq | exact Hprompt].
Defined.

(** With the service down, five requests and four pauses. *)
Lemma executor_under_persistent_failure_witness :
  settings_in_range cfg = true
  /\ keeps_answering timing_out (ApiError "Request timed out.")
  /\ first_content (ApiError "Request timed out.") = inr "Request timed out."
  /\ (classify "Request timed out." = RateLimited
      \/ classify "Request timed out." = OtherError)
  /\ exists w' t,
       make_llm_call_with_retry timing_out cfg "prompt" default_system_content
         (start tt) = (Ok None, w')
       /\ trace w' = (trace (start tt) ++ t)%list
       /\ calls_of t
          = repeat (request_of cfg "prompt" default_system_content,
                    ApiError "Request timed out.") (MAX_RETRIES cfg)
       /\ (classify "Request timed out." = RateLimited ->
           sleeps_of t = map (capped_delay cfg) (seq 0 (MAX_RETRIES cfg)))
       /\ (classify "Request timed out." = OtherError ->
           sleeps_of t = map (plain_delay cfg) (seq 0 (MAX_RETRIES cfg - 1))).
Proof.
  assert (H1 : keeps_answering timing_out (ApiError "Request timed out."))
    by (intros r s; reflexivity).
  assert (H2 : first_content (ApiError "Request timed out.")
               = inr "Request timed out.") by reflexivity.
  assert (H3 : classify "Request timed out." = RateLimited
               \/ classify "Request timed out." = OtherError)
    by (right; vm_compute; reflexivity).
  assert (H0 : settings_in_range cfg = true) by reflexivity.
  split; [exact H0|].
  split; [exact H1|]. split; [exact H2|]. split; [exact H3|].
  exact (executor_under_persistent_failure timing_out cfg _ _ "prompt"
           default_system_content (start tt) H0 H1 H2 H3).
Defined.

(** Out of range the [except] clause raises.  With a negative delay the
    pause after the first request that was rate limited raises, out of the
    executor; in [process_controls] the record is abandoned there, after
    that one request, with the placeholder in every output column. *)
Lemma negative_delay_raises_in_the_pause :
  settings_in_range cfg_negative = false
  /\ (exists w',
        make_llm_call_with_retry rate_limited cfg_negative "prompt"
          default_system_content (start tt)
        = (Raise (ValueError "sleep length must be non-negative"), w')
        /\ length (calls_of (trace w')) = 1)
  /\ exists df' w',
       process_controls rate_limited cfg_negative Json.loads repr one_control
         (start tt) = (Ok df', w')
       /\ length (calls_of (trace w')) = 1
       /\ forall c l, In (c, l) output_columns ->
                      column c df' = Some [Processing_error].
Proof.
  split; [reflexivity|]. split.
  - eexists. split; [vm_compute; reflexivity | reflexivity].
  - eexists. eexists. split; [vm_compute; reflexivity|].
    split; [reflexivity|]. intros c l Hin. cbn in Hin.
    repeat (destruct Hin as [Hin | Hin];
            [injection Hin as <- <-; reflexivity|]).
    contradiction.
Qed.

(** With 1026 attempts allowed and a service that keeps rate limiting, the
    power of two of attempt 1024 is too large for the product: the executor
    raises after 1025 requests. *)
Lemma attempt_1024_overflows :
  settings_in_range cfg1026 = false
  /\ exists w',
       make_llm_call_with_retry rate_limited cfg1026 "prompt"
         default_system_content (start tt)
       = (Raise (OverflowError "int too large to convert to float"), w')
       /\ length (calls_of (trace w')) = 1025.
Proof.
  split; [vm_compute; reflexivity|].
  eexists. split; [vm_compute; reflexivity | vm_compute; reflexivity].
Qed.

(** With the service down at start-up, five pings and exit. *)
Lemma start_up_under_persistent_failure_witness :
  settings_in_range cfg = true
  /\ keeps_answering timing_out (ApiError "Request timed out.")
  /\ ping_outcome (ApiError "Request timed out.") = inr "Request timed out."
  /\ (classify "Request timed out." = RateLimited
      \/ classify "Request timed out." = OtherError)
  /\ API_KEY cfg <> placeholder_key
  /\ exists t,
       trace (snd (initialize_client timing_out cfg (start tt)))
       = (trace (start tt) ++ t)%list
       /\ fst (initialize_client timing_out cfg (start tt)) = Exit 1
       /\ calls_of t
          = repeat (ping_request cfg, ApiError "Request timed out.")
                   (MAX_RETRIES cfg)
       /\ (classify "Request timed out." = RateLimited ->
           sleeps_of t = map (capped_delay cfg) (seq 0 (MAX_RETRIES cfg)))
       /\ (classify "Request timed out." = OtherError ->
           sleeps_of t = map (plain_delay cfg) (seq 0 (MAX_RETRIES cfg - 1))).
Proof.
  assert (H1 : keeps_answering timing_out (ApiError "Request timed out."))
    by (intros r s; reflexivity).
  assert (H2 : ping_outcome (ApiError "Request timed out.")
               = inr "Request timed out.") by reflexivity.
  assert (H3 : classify "Request timed out." = RateLimited
               \/ classify "Request timed out." = OtherError)
    by (right; vm_compute; reflexivity).
  assert (H4 : API_KEY cfg <> placeholder_key) by (vm_compute; discriminate).
  assert (H0 : settings_in_range cfg = true) by reflexivity.
  split; [exact H0|].
  split; [exact H1|]. split; [exact H2|]. split; [exact H3|]. split; [exact H4|].
  exact (start_up_under_persistent_failure timing_out cfg H0 _ _ (start tt)
           H1 H2 H3 H4).
Defined.

(** An answer of three spaces: one request, and the failure markers. *)
Lemma blank_answer_is_not_retried_witness :
  0 < MAX_RETRIES cfg
  /\ fst (create blank
            (request_of cfg (prompt_of cfg repr ObjectiveFit inputs)
               (system_content_of ObjectiveFit))
            (service (start tt)))
     = Response [Some "   "]
  /\ Text.strip "   " = ""
  /\ exists t,
       trace (snd (run_operation blank cfg Json.loads repr ObjectiveFit inputs
                     (start tt)))
       = (trace (start tt) ++ t)%list
       /\ fst (run_operation blank cfg Json.loads repr ObjectiveFit inputs
                 (start tt))
          = Ok (failure_markers ObjectiveFit)
       /\ calls_of t
          = [(request_of cfg (prompt_of cfg repr ObjectiveFit inputs)
                (system_content_of ObjectiveFit),
              Response [Some "   "])]
       /\ sleeps_of t = [].
Proof.
  assert (H1 : 0 < MAX_RETRIES cfg) by (vm_compute; lia).
  assert (H2 : fst (create blank
                      (request_of cfg (prompt_of cfg repr ObjectiveFit inputs)
                         (system_content_of ObjectiveFit))
                      (service (start tt)))
               = Response [Some "   "]) by reflexivity.
  assert (H3 : Text.strip "   " = "") by (vm_compute; reflexivity).
  split; [exact H1|]. split; [exact H2|]. split; [exact H3|].
  exact (blank_answer_is_not_retried blank cfg Json.loads repr ObjectiveFit
           inputs (start tt) "   " [] H1 H2 H3).
Defined.

Lemma array_answer_parses :
  parser_gives array_answer cfg Json.loads repr ObjectiveFit inputs (start tt)
    (Some (PList [PInt 1; PInt 2])).
Proof.
  unfold parser_gives. eexists. eexists.
  split; [vm_compute; reflexivity|]. split; [reflexivity|].
  vm_compute. reflexivity.
Qed.

(** An answer that is an array: the operation raises. *)
Lemma non_object_answer_raises_witness :
  ObjectiveFit <> ExpectedEvidence
  /\ parser_gives array_answer cfg Json.loads repr ObjectiveFit inputs
       (start tt) (Some (PList [PInt 1; PInt 2]))
  /\ truthy (PList [PInt 1; PInt 2]) = true
  /\ (forall d, PList [PInt 1; PInt 2] <> PDict d)
  /\ fst (run_operation array_answer cfg Json.loads repr ObjectiveFit inputs
            (start tt))
     = Raise (AttributeError "'list' object has no attribute 'get'").
Proof.
  assert (H1 : ObjectiveFit <> ExpectedEvidence) by discriminate.
  assert (H3 : truthy (PList [PInt 1; PInt 2]) = true) by reflexivity.
  assert (H4 : forall d, PList [PInt 1; PInt 2] <> PDict d)
    by (intros d; discriminate).
  split; [exact H1|]. split; [exact array_answer_parses|]. split; [exact H3|].
  split; [exact H4|].
  exact (non_object_answer_raises array_answer cfg Json.loads repr ObjectiveFit
           inputs (start tt) (PList [PInt 1; PInt 2])
           H1 array_answer_parses H3 H4).
Defined.

Lemma nothing_missing_parses :
  parser_gives nothing_missing cfg Json.loads repr Completeness inputs (start tt)
    (Some (PDict [("present", PDict [("Who", PStr "Manager")]);
                  ("missing", PList [])])).
Proof.
  unfold parser_gives. eexists. eexists.
  split; [vm_compute; reflexivity|]. split; [reflexivity|].
  vm_compute. reflexivity.
Qed.

(** An object whose [missing] section is an empty array: Completeness
    raises. *)
Lemma completeness_sections_must_be_objects_witness :
  parser_gives nothing_missing cfg Json.loads repr Completeness inputs
    (start tt)
    (Some (PDict [("present", PDict [("Who", PStr "Manager")]);
                  ("missing", PList [])]))
  /\ In "missing" (expected_keys Completeness)
  /\ dict_find "missing"
       [("present", PDict [("Who", PStr "Manager")]); ("missing", PList [])]
     = Some (PList [])
  /\ (forall items, PList [] <> PDict items)
  /\ exists k' v',
       In k' (expected_keys Completeness)
       /\ dict_find k'
            [("present", PDict [("Who", PStr "Manager")]); ("missing", PList [])]
          = Some v'
       /\ (forall items, v' <> PDict items)
       /\ fst (run_operation nothing_missing cfg Json.loads repr Completeness
                 inputs (start tt))
          = Raise (no_attribute v' "items").
Proof.
  assert (H2 : In "missing" (expected_keys Completeness)) by (simpl; auto).
  assert (H3 : dict_find "missing"
                 [("present", PDict [("Who", PStr "Manager")]);
                  ("missing", PList [])]
               = Some (PList [])) by reflexivity.
  assert (H4 : forall items, PList [] <> PDict items)
    by (intros items; discriminate).
  split; [exact nothing_missing_parses|]. split; [exact H2|].
  split; [exact H3|]. split; [exact H4|].
  exact (completeness_sections_must_be_objects nothing_missing cfg Json.loads
           repr inputs (start tt) _ "missing" (PList [])
           nothing_missing_parses H2 H3 H4).
Defined.

(** A frame of two records without the descriptions: no request, and
    "Processing error" twice in every output column. *)
Lemma missing_description_column_fills_processing_errors_witness :
  has_column "Control Description" no_description = false
  /\ exists df' w' t,
       process_controls (replying helpful) cfg Json.loads repr no_description
         (start tt) = (Ok df', w')
       /\ trace w' = (trace (start tt) ++ t)%list
       /\ calls_of t = []
       /\ nrows df' = nrows no_description
       /\ forall c l, In (c, l) output_columns ->
                      In (c, repeat Processing_error (nrows no_description))
                         (columns df').
Proof.
  assert (H1 : has_column "Control Description" no_description = false)
    by reflexivity.
  split; [exact H1|].
  exact (missing_description_column_fills_processing_errors (replying helpful)
           cfg Json.loads repr no_description (start tt) H1).
Defined.

(** Every answer an array: one request for the one record, and
    "Processing error" in every output column. *)
Lemma non_object_answers_abandon_every_record_witness :
  0 < MAX_RETRIES cfg
  /\ keeps_answering array_answer (Response [Some "[1, 2]"])
  /\ Text.strip "[1, 2]" <> ""
  /\ Json.loads (brace_to_brace (without_marker (Text.strip "[1, 2]")))
     = Some (PList [PInt 1; PInt 2])
  /\ truthy (PList [PInt 1; PInt 2]) = true
  /\ (forall d, PList [PInt 1; PInt 2] <> PDict d)
  /\ well_formed one_control
  /\ has_column "Control Description" one_control = true
  /\ exists df' w' t,
       process_controls array_answer cfg Json.loads repr one_control (start tt)
       = (Ok df', w')
       /\ trace w' = (trace (start tt) ++ t)%list
       /\ length (calls_of t) = nrows one_control
       /\ nrows df' = nrows one_control
       /\ forall c l, In (c, l) output_columns ->
                      In (c, repeat Processing_error (nrows one_control))
                         (columns df').
Proof.
  assert (H1 : 0 < MAX_RETRIES cfg) by (vm_compute; lia).
  assert (H2 : keeps_answering array_answer (Response [Some "[1, 2]"]))
    by (intros r s; reflexivity).
  assert (H3 : Text.strip "[1, 2]" <> "") by (vm_compute; discriminate).
  assert (H4 : Json.loads (brace_to_brace (without_marker (Text.strip "[1, 2]")))
               = Some (PList [PInt 1; PInt 2])) by (vm_compute; reflexivity).
  assert (H5 : truthy (PList [PInt 1; PInt 2]) = true) by reflexivity.
  assert (H6 : forall d, PList [PInt 1; PInt 2] <> PDict d)
    by (intros d; discriminate).
  assert (H8 : has_column "Control Description" one_control = true)
    by reflexivity.
  split; [exact H1|]. split; [exact H2|]. split; [exact H3|].
  split; [exact H4|]. split; [exact H5|]. split; [exact H6|].
  split; [exact one_control_well_formed|]. split; [exact H8|].
  exact (non_object_answers_abandon_every_record array_answer cfg Json.loads
           repr one_control (start tt) "[1, 2]" [] (PList [PInt 1; PInt 2])
           H1 H2 H3 H4 H5 H6 one_control_well_formed H8).
Defined.

Lemma one_control_is_fresh c :
  In c rewritten_columns -> has_column c one_control = false.
Proof.
  intros Hc.
  assert (Hall : forallb (fun c => negb (has_column c one_control))
                         rewritten_columns = true) by (vm_compute; reflexivity).
  rewrite forallb_forall in Hall. apply negb_true_iff, Hall, Hc.
Qed.

(** The first sample control: its seven columns, then the sixteen output
    columns. *)
Lemma fresh_input_gets_the_output_columns_appended_witness :
  (forall c, In c rewritten_columns -> has_column c one_control = false)
  /\ exists df' w' (L : Lists),
       process_controls (replying helpful) cfg Json.loads repr one_control
         (start tt) = (Ok df', w')
       /\ (forall l, length (L l) = nrows one_control)
       /\ columns df'
          = (columns one_control
             ++ map (fun cl => (fst cl, L (snd cl))) output_columns)%list.
Proof.
  split; [exact one_control_is_fresh|].
  exact (fresh_input_gets_the_output_columns_appended (replying helpful) cfg
           Json.loads repr one_control (start tt) one_control_is_fresh).
Defined.

(** The first sample control with an earlier result: the earlier cell stays
    first under the header, beside the new column. *)
Lemma rerun_keeps_the_earlier_column_witness :
  has_column present_missing_col earlier_result = true
  /\ has_column "Present & Missing" earlier_result = false
  /\ exists df' w',
       process_controls (replying helpful) cfg Json.loads repr earlier_result
         (start tt) = (Ok df', w')
       /\ column present_missing_col df'
          = column present_missing_col earlier_result
       /\ count_occ string_dec (headers df') present_missing_col
          = Datatypes.S
              (count_occ string_dec (headers earlier_result) present_missing_col).
Proof.
  assert (H1 : has_column present_missing_col earlier_result = true)
    by (vm_compute; reflexivity).
  assert (H2 : has_column "Present & Missing" earlier_result = false)
    by (vm_compute; reflexivity).
  split; [exact H1|]. split; [exact H2|].
  exact (rerun_keeps_the_earlier_column (replying helpful) cfg Json.loads repr
           earlier_result (start tt) H1 H2).
Defined.

(** An object between a greeting and a farewell. *)
Lemma text_around_the_object_is_ignored_witness :
  without_marker ("Here it is: " ++ json' "{'a': 1}" ++ " Bye")
  = "Here it is: " ++ String "{" (json' "'a': 1" ++ "}") ++ " Bye"
  /\ first_index "{" "Here it is: " = None
  /\ last_index "}" " Bye" = None
  /\ fst (extract_json_from_response Json.loads
            ("Here it is: " ++ json' "{'a': 1}" ++ " Bye") (start tt))
     = Ok (Json.loads (String "{" (json' "'a': 1" ++ "}"))).
Proof.
  assert (H1 : without_marker ("Here it is: " ++ json' "{'a': 1}" ++ " Bye")
               = "Here it is: " ++ String "{" (json' "'a': 1" ++ "}") ++ " Bye")
    by (vm_compute; reflexivity).
  assert (H2 : first_index "{" "Here it is: " = None) by reflexivity.
  assert (H3 : last_index "}" " Bye" = None) by reflexivity.
  split; [exact H1|]. split; [exact H2|]. split; [exact H3|].
  exact (text_around_the_object_is_ignored Json.loads _ _ _ _ (start tt)
           H1 H2 H3).
Defined.

Lemma helpful_answers_the_ping :
  create (replying helpful) (ping_request cfg) (service (start tt))
  = (helpful (ping_request cfg), tt)
  /\ ping_outcome (helpful (ping_request cfg)) = inl tt.
Proof. split; [reflexivity | vm_compute; reflexivity]. Qed.

(** The first sample control, from the ping to the saved table. *)
Lemma main_saves_the_analysed_table_witness :
  API_KEY cfg <> placeholder_key
  /\ 0 < MAX_RETRIES cfg
  /\ create (replying helpful) (ping_request cfg) (service (start tt))
     = (helpful (ping_request cfg), tt)
  /\ ping_outcome (helpful (ping_request cfg)) = inl tt
  /\ forallb (fun c => has_column c one_control) (REQUIRED_COLS cfg) = true
  /\ exists r w' t df' rest,
       main (replying helpful) cfg Json.loads repr (Some one_control) (start tt)
       = (r, w')
       /\ trace w' = (trace (start tt) ++ t)%list
       /\ saved_of t = [df']
       /\ nrows df' = nrows one_control
       /\ (forall c l, In (c, l) output_columns -> has_column c df' = true)
       /\ calls_of t = (ping_request cfg, helpful (ping_request cfg)) :: rest
       /\ length rest <= 9 * MAX_RETRIES cfg * nrows one_control.
Proof.
  assert (H1 : API_KEY cfg <> placeholder_key) by (vm_compute; discriminate).
  assert (H2 : 0 < MAX_RETRIES cfg) by (vm_compute; lia).
  assert (H5 : forallb (fun c => has_column c one_control) (REQUIRED_COLS cfg)
               = true) by (vm_compute; reflexivity).
  split; [exact H1|]. split; [exact H2|].
  split; [exact (proj1 helpful_answers_the_ping)|].
  split; [exact (proj2 helpful_answers_the_ping)|]. split; [exact H5|].
  exact (main_saves_the_analysed_table (replying helpful) cfg Json.loads repr
           one_control (start tt) _ tt H1 H2 (proj1 helpful_answers_the_ping)
           (proj2 helpful_answers_the_ping) H5).
Defined.

(** No input file: one request, the ping, and exit. *)
Lemma unusable_input_exits_after_the_ping_witness :
  API_KEY cfg <> placeholder_key
  /\ 0 < MAX_RETRIES cfg
  /\ create (replying helpful) (ping_request cfg) (service (start tt))
     = (helpful (ping_request cfg), tt)
  /\ ping_outcome (helpful (ping_request cfg)) = inl tt
  /\ (@None DataFrame = None
      \/ exists df,
           @None DataFrame = Some df
           /\ forallb (fun c => has_column c df) (REQUIRED_COLS cfg) = false)
  /\ exists w' t,
       main (replying helpful) cfg Json.loads repr None (start tt)
       = (Exit 1, w')
       /\ trace w' = (trace (start tt) ++ t)%list
       /\ calls_of t = [(ping_request cfg, helpful (ping_request cfg))]
       /\ saved_of t = [].
Proof.
  assert (H1 : API_KEY cfg <> placeholder_key) by (vm_compute; discriminate).
  assert (H2 : 0 < MAX_RETRIES cfg) by (vm_compute; lia).
  assert (H5 : @None DataFrame = None
               \/ exists df,
                    @None DataFrame = Some df
                    /\ forallb (fun c => has_column c df) (REQUIRED_COLS cfg)
                       = false) by (left; reflexivity).
  split; [exact H1|]. split; [exact H2|].
  split; [exact (proj1 helpful_answers_the_ping)|].
  split; [exact (proj2 helpful_answers_the_ping)|]. split; [exact H5|].
  exact (unusable_input_exits_after_the_ping (replying helpful) cfg Json.loads
           repr None (start tt) _ tt H1 H2 (proj1 helpful_answers_the_ping)
           (proj2 helpful_answers_the_ping) H5).
Defined.



(** The service times out on every request: the two sample records come
    back with the markers in every output column. *)
Lemma outage_fills_the_table_with_markers_witness :
  settings_in_range cfg = true
  /\ keeps_answering timing_out (ApiError "Request timed out.")
  /\ first_content (ApiError "Request timed out.") = inr "Request timed out."
  /\ well_formed two_controls
  /\ (forall c, In c read_columns -> has_column c two_controls = true)
  /\ exists df' w' t,
       process_controls timing_out cfg Json.loads repr two_controls (start tt)
       = (Ok df', w')
       /\ trace w' = (trace (start tt) ++ t)%list
       /\ length (calls_of t)
          = 9 * attempts_made cfg "Request timed out." * nrows two_controls
       /\ nrows df' = nrows two_controls
       /\ forall c l, In (c, l) output_columns ->
                      In (c, repeat (outage_entry l) (nrows two_controls))
                         (columns df').
Proof.
  assert (H1 : keeps_answering timing_out (ApiError "Request timed out."))
    by (intros r s; reflexivity).
  assert (H2 : first_content (ApiError "Request timed out.")
               = inr "Request timed out.") by reflexivity.
  assert (H3 : well_formed two_controls)
    by (repeat constructor).
  assert (H4 : forall c, In c read_columns -> has_column c two_controls = true)
    by (intros c Hin; cbn in Hin;
        repeat (destruct Hin as [<-|Hin]; [reflexivity|]);
        destruct Hin).
  assert (H0 : settings_in_range cfg = true) by reflexivity.
  split; [exact H0|].
  split; [exact H1|]. split; [exact H2|]. split; [exact H3|].
  split; [exact H4|].
  exact (outage_fills_the_table_with_markers timing_out cfg Json.loads repr
           _ _ H0 H1 H2 two_controls (start tt) H3 H4).
Defined.

End OnSamples.
